(** * The Coinglass WebSocket client, embedded in Rocq

    A shallow embedding of [src/coinglass_api_v3/clients/websocket_client.py]
    (class [CoinglassWebSocketClient]).  Every method of the class is a
    computation in a small monad that threads the client object, collects the
    observable actions of the method (log lines, calls on the transport,
    threads started, handler invocations) and propagates Python exceptions.

    What the class does not own is an oracle of the environment [Env]: whether
    [ws.send] or [ws.close] raises, whether a thread is alive, which thread
    is running, what a handler does, what [json.loads] returns.  Oracles see
    the whole history of actions so far, so they may answer differently from
    one call to the next.  A handler is application code that holds the
    client: what it does is a sequence of calls of the client's public
    methods, which run inside [_on_message], and an ending. *)

From Stdlib Require Import String ZArith List Bool Lia Arith.
Import ListNotations.
Local Open Scope string_scope.
Local Open Scope Z_scope.
Local Open Scope list_scope.

Set Implicit Arguments.
Local Set Warnings "-register-all".

(** ** Python values *)

(** The value [json.loads] returns.  Numbers are integers here; a message
    with a fractional number is outside the model. *)
Inductive json : Type :=
| JNull
| JBool (b : bool)
| JNum (z : Z)
| JStr (s : string)
| JArr (items : list json)
| JObj (fields : list (string * json)).

(** Python truthiness, as [if value:] tests it. *)
Definition truthy (v : json) : bool :=
  match v with
  | JNull => false
  | JBool b => b
  | JNum z => negb (z =? 0)
  | JStr s => negb (s =? "")%string
  | JArr l => match l with [] => false | _ => true end
  | JObj l => match l with [] => false | _ => true end
  end.

(** [value == "text"] for a decoded value. *)
Definition json_eq_str (v : json) (s : string) : bool :=
  match v with
  | JStr s' => (s' =? s)%string
  | _ => false
  end.

(** Ordered dictionaries with string keys: a Python [dict] keeps its keys
    in insertion order, assigning to a present key keeps its place, a new
    key goes last. *)
Module PyDict.
Section Dict.
Variable V : Type.

Definition t := list (string * V).

Definition empty : t := [].

Fixpoint get (k : string) (d : t) : option V :=
  match d with
  | [] => None
  | (k', v) :: d' => if (k =? k')%string then Some v else get k d'
  end.

(** [k in d] *)
Definition contains (k : string) (d : t) : bool :=
  match get k d with Some _ => true | None => false end.

(** [d[k] = v] *)
Fixpoint set (k : string) (v : V) (d : t) : t :=
  match d with
  | [] => [(k, v)]
  | (k', v') :: d' =>
      if (k =? k')%string then (k, v) :: d' else (k', v') :: set k v d'
  end.

(** [del d[k]] *)
Fixpoint del (k : string) (d : t) : t :=
  match d with
  | [] => []
  | (k', v') :: d' =>
      if (k =? k')%string then d' else (k', v') :: del k d'
  end.

(** [d.items()] *)
Definition items (d : t) : list (string * V) := d.

Definition keys (d : t) : list string := map fst d.

(** A Python dict holds each key once. *)
Definition wf (d : t) : Prop := NoDup (keys d).
End Dict.
End PyDict.

(** [dict.get(key, default)] on a decoded JSON object. *)
Definition json_get (fields : list (string * json)) (k : string) (dflt : json) : json :=
  match PyDict.get k fields with
  | Some v => v
  | None => dflt
  end.

(** [x in xs] for a list of strings. *)
Definition str_in (x : string) (xs : list string) : bool :=
  existsb (String.eqb x) xs.

(** [xs.remove(x)]: drops the first occurrence (the callers test [x in xs]
    first, so the [ValueError] of an absent [x] never arises). *)
Fixpoint str_remove (x : string) (xs : list string) : list string :=
  match xs with
  | [] => []
  | y :: ys => if (x =? y)%string then ys else y :: str_remove x ys
  end.

(** [not xs] for a list. *)
Definition is_empty {X} (l : list X) : bool :=
  match l with [] => true | _ => false end.

(** ** Handles *)

(** A data handler is a callback; the client only compares handlers with
    [in], which for functions is identity.  A handler is its identity. *)
Definition Handler := nat.
(** A [WebSocketApp] instance and a [threading.Thread] instance. *)
Definition WebSocketApp := nat.
Definition Thread := nat.

(** The thread of the application.  The threads the client starts take
    their handles from the length of the history, after at least one
    action: none of them is 0. *)
Definition main_thread : Thread := 0%nat.

(** [join(timeout=5)] in [disconnect]. *)
Definition JOIN_TIMEOUT : Z := 5.

Definition handler_in (h : Handler) (hs : list Handler) : bool :=
  existsb (Nat.eqb h) hs.

Fixpoint handler_remove (h : Handler) (hs : list Handler) : list Handler :=
  match hs with
  | [] => []
  | y :: ys => if Nat.eqb h y then ys else y :: handler_remove h ys
  end.

(** ** The client object *)

Record Client : Type := mkClient {
  api_key : string;
  debug : bool;
  ws : option WebSocketApp;
  is_connected : bool;
  (** [is_authenticated] is assigned the [success] field of the auth
      result, whatever value it carries. *)
  is_authenticated : json;
  subscribed_channels : PyDict.t (list string);
  handlers : PyDict.t (list Handler);
  reconnect_interval : Z;
  max_reconnect_attempts : Z;
  reconnect_attempts : Z;
  running : bool;
  _ping_thread : option Thread;
  _ws_thread : option Thread
}.

Definition WS_URL : string := "wss://open-ws.coinglass.com/ws-api".
Definition PING_INTERVAL : Z := 20.

(** [__init__] *)
Definition init (key : string) (dbg : bool) : Client :=
  {| api_key := key;
     debug := dbg;
     ws := None;
     is_connected := false;
     is_authenticated := JBool false;
     subscribed_channels := PyDict.empty _;
     handlers := PyDict.empty _;
     reconnect_interval := 5;
     max_reconnect_attempts := 5;
     reconnect_attempts := 0;
     running := false;
     _ping_thread := None;
     _ws_thread := None |}.

Definition set_ws (x : option WebSocketApp) (c : Client) : Client :=
  mkClient c.(api_key) c.(debug) x c.(is_connected) c.(is_authenticated)
    c.(subscribed_channels) c.(handlers) c.(reconnect_interval)
    c.(max_reconnect_attempts) c.(reconnect_attempts) c.(running)
    c.(_ping_thread) c.(_ws_thread).

Definition set_is_connected (x : bool) (c : Client) : Client :=
  mkClient c.(api_key) c.(debug) c.(ws) x c.(is_authenticated)
    c.(subscribed_channels) c.(handlers) c.(reconnect_interval)
    c.(max_reconnect_attempts) c.(reconnect_attempts) c.(running)
    c.(_ping_thread) c.(_ws_thread).

Definition set_is_authenticated (x : json) (c : Client) : Client :=
  mkClient c.(api_key) c.(debug) c.(ws) c.(is_connected) x
    c.(subscribed_channels) c.(handlers) c.(reconnect_interval)
    c.(max_reconnect_attempts) c.(reconnect_attempts) c.(running)
    c.(_ping_thread) c.(_ws_thread).

Definition set_subscribed_channels (x : PyDict.t (list string)) (c : Client) : Client :=
  mkClient c.(api_key) c.(debug) c.(ws) c.(is_connected) c.(is_authenticated)
    x c.(handlers) c.(reconnect_interval)
    c.(max_reconnect_attempts) c.(reconnect_attempts) c.(running)
    c.(_ping_thread) c.(_ws_thread).

Definition set_handlers (x : PyDict.t (list Handler)) (c : Client) : Client :=
  mkClient c.(api_key) c.(debug) c.(ws) c.(is_connected) c.(is_authenticated)
    c.(subscribed_channels) x c.(reconnect_interval)
    c.(max_reconnect_attempts) c.(reconnect_attempts) c.(running)
    c.(_ping_thread) c.(_ws_thread).

Definition set_reconnect_attempts (x : Z) (c : Client) : Client :=
  mkClient c.(api_key) c.(debug) c.(ws) c.(is_connected) c.(is_authenticated)
    c.(subscribed_channels) c.(handlers) c.(reconnect_interval)
    c.(max_reconnect_attempts) x c.(running)
    c.(_ping_thread) c.(_ws_thread).

Definition set_running (x : bool) (c : Client) : Client :=
  mkClient c.(api_key) c.(debug) c.(ws) c.(is_connected) c.(is_authenticated)
    c.(subscribed_channels) c.(handlers) c.(reconnect_interval)
    c.(max_reconnect_attempts) c.(reconnect_attempts) x
    c.(_ping_thread) c.(_ws_thread).

Definition set_ping_thread (x : option Thread) (c : Client) : Client :=
  mkClient c.(api_key) c.(debug) c.(ws) c.(is_connected) c.(is_authenticated)
    c.(subscribed_channels) c.(handlers) c.(reconnect_interval)
    c.(max_reconnect_attempts) c.(reconnect_attempts) c.(running)
    x c.(_ws_thread).

Definition set_ws_thread (x : option Thread) (c : Client) : Client :=
  mkClient c.(api_key) c.(debug) c.(ws) c.(is_connected) c.(is_authenticated)
    c.(subscribed_channels) c.(handlers) c.(reconnect_interval)
    c.(max_reconnect_attempts) c.(reconnect_attempts) c.(running)
    c.(_ping_thread) x.

(** ** Observable actions *)

(** The control messages, as the dictionaries handed to [json.dumps]. *)
Inductive Wire : Type :=
| WAuth (key : string)               (* {"op": "auth", "args": [{"apiKey": key}]} *)
| WSubscribe (args : list string)    (* {"op": "subscribe", "args": args} *)
| WUnsubscribe (args : list string)  (* {"op": "unsubscribe", "args": args} *)
| WPing.                             (* {"op": "ping"} *)

(** Python exceptions that are instances of [Exception]: what
    [except Exception] catches. *)
Inductive exn : Type :=
| JSONDecodeError (msg : string)
| KeyError (key : string)
| TypeError (msg : string)
| RuntimeError (msg : string)
| Exception (msg : string).

(** Exceptions that derive from [BaseException] only: [except Exception]
    lets them through. *)
Inductive exit : Type :=
| SystemExit (code : Z)
| KeyboardInterrupt.

Inductive Level : Type := DEBUG | INFO | WARNING | ERROR.

(** One constructor per [logger] call of the class, with the values its
    f-string interpolates. *)
Inductive LogMsg : Type :=
| SentMessage (m : Wire)
| ErrorSendingMessage (e : exn)
| NotConnectedCannotSend
| SentPing
| ErrorInPingThread (e : exn)
| ReceivedMessage (data : json)
| ReceivedPong
| AuthenticationSuccessful
| AuthenticationFailed (message : json)
| ErrorInHandler (channel : string) (e : exn)
| NoHandlerRegistered (channel : json)
| ReceivedErrorFromServer (message : json)
| FailedToParse (message : string)
| ErrorProcessingMessage (e : exn)
| WebSocketError (error : string)
| ConnectionClosed (status : option Z) (msg : option string)
| ClosedUnexpectedly
| ClosedIntentionally
| ConnectionOpened
| AlreadyRunning
| ThreadAlreadyRunning
| ConnectingTo (url : string)
| ClientNotRunning
| Disconnecting
| ErrorClosing (e : exn)
| WaitingForThread
| ThreadDidNotTerminate
| ThreadTerminated
| Disconnected
| ReconnectAborted
| AttemptingReconnect (attempt maxi wait : Z)
| ErrorClosingBeforeReconnect (e : exn)
| MaxReconnectAttemptsReached
| CannotResubscribe
| Resubscribing
| Resubscribed (channel : string) (params : list string)
| NoParametersFound (channel : string)
| EmptyChannelOrParams
| HandlerAdded (channel : string)
| Subscribed (channel : string) (params : list string)
| NotReadyToSubscribe (channel : string) (params : list string)
| AlreadySubscribed (channel : string) (params : list string)
| NotSubscribedToChannel (channel : string)
| NotSubscribedWithParams (channel : string) (params : list string)
| Unsubscribed (channel : string) (params : list string)
| NotReadyToUnsubscribe
| RemovedHandler (channel : string)
| HandlerNotFound (channel : string)
| RemovedAllHandlers (channel : string).

Inductive Target : Type :=
| RunForever (w : WebSocketApp)   (* target=self.ws.run_forever *)
| SendPing.                       (* target=self._send_ping *)

Inductive Event : Type :=
| EvLog (lvl : Level) (m : LogMsg)
| EvSend (w : WebSocketApp) (m : Wire)        (* ws.send(json.dumps(m)) is called *)
| EvClose (w : WebSocketApp)                  (* ws.close() is called *)
| EvNewWebSocketApp (w : WebSocketApp)        (* WebSocketApp(WS_URL, ...) is built *)
| EvThreadStart (t : Thread) (target : Target)
| EvJoin (t : Thread) (timeout : Z)
| EvSleep (seconds : Z)                       (* time.sleep(seconds) *)
| EvInvoke (h : Handler) (payload : json).    (* handler(payload) is called *)

Definition History := list Event.

(** ** The environment *)

(** What a call can end in: it returns, it raises an instance of
    [Exception], or it raises something [except Exception] does not
    catch. *)
Inductive Outcome (A : Type) : Type :=
| Ret (a : A)
| Exc (e : exn)
| Esc (x : exit).
Arguments Exc {A} e.
Arguments Esc {A} x.

(** The calls a handler can make on the client it holds: the public
    methods. *)
Inductive ClientCall : Type :=
| CallSubscribe (channel : string) (params : list string) (handler : Handler)
| CallUnsubscribe (channel : string) (params : list string)
    (handler : option Handler)
| CallConnect
| CallDisconnect.

(** How a handler ends: it returns, raises an instance of [Exception], or
    raises something else ([sys.exit()], say). *)
Inductive Ending : Type :=
| Returns
| Raises (e : exn)
| Exits (x : exit).

(** What a handler does when it is called: it ends, or it makes a call on
    the client and goes on according to what the call did ([None]: it
    returned, [Some e]: it raised [e], which the handler may catch or
    raise again). *)
Inductive HandlerRun : Type :=
| Ends (how : Ending)
| Calls (k : ClientCall) (next : option exn -> HandlerRun).

(** The environment's answers.  [None] from [ws_send] and [ws_close]
    means the call returned, [Some e] that it raised [e]; the transport
    raises instances of [Exception] only.  [is_alive] answers for the
    threads other than the running one, which is alive.  [growth] bounds
    the model, not the code: the [for] loop over the handlers is followed
    for as many turns as the list is long when the loop starts, plus
    [growth]; a loop that the handlers keep feeding with new handlers
    beyond that is cut there, where Python would go on. *)
Record Env : Type := mkEnv {
  json_loads : string -> Outcome json;
  ws_send : History -> WebSocketApp -> Wire -> option exn;
  ws_close : History -> WebSocketApp -> option exn;
  is_alive : History -> Thread -> bool;
  call_handler : History -> Handler -> json -> HandlerRun;
  current_thread : Thread;
  growth : nat
}.

(** ** The monad *)

Record Res (A : Type) : Type := mkRes {
  res_out : Outcome A;
  res_client : Client;
  res_events : list Event
}.

(** A computation reads the history so far and the client, and yields an
    outcome, the client as it left it and the actions it performed. *)
Definition M (A : Type) : Type := History -> Client -> Res A.

(** The history after some more actions: [h ++ evs], written so that it
    computes to [h] when nothing happened. *)
Definition extend (h : History) (evs : list Event) : History :=
  match evs with
  | [] => h
  | _ => h ++ evs
  end.

Definition ret {A} (a : A) : M A :=
  fun _ c => mkRes (Ret a) c [].

(** The result of a computation that ran after the actions [evs]. *)
Definition prefix {A} (evs : list Event) (r : Res A) : Res A :=
  match r with
  | mkRes out c evs' => mkRes out c (evs ++ evs')
  end.

Definition bind {A B} (m : M A) (f : A -> M B) : M B :=
  fun h c =>
    match m h c with
    | mkRes (Ret a) c' evs => prefix evs (f a (extend h evs) c')
    | mkRes (Exc e) c' evs => mkRes (Exc e) c' evs
    | mkRes (Esc x) c' evs => mkRes (Esc x) c' evs
    end.

Definition raise {A} (e : exn) : M A :=
  fun _ c => mkRes (Exc e) c [].

Definition escape {A} (x : exit) : M A :=
  fun _ c => mkRes (Esc x) c [].

(** [try: m  except Exception as e: handler e] *)
Definition try_except {A} (m : M A) (handler : exn -> M A) : M A :=
  fun h c =>
    match m h c with
    | mkRes (Ret a) c' evs => mkRes (Ret a) c' evs
    | mkRes (Exc e) c' evs => prefix evs (handler e (extend h evs) c')
    | mkRes (Esc x) c' evs => mkRes (Esc x) c' evs
    end.

Definition get {A} (field : Client -> A) : M A :=
  fun _ c => mkRes (Ret (field c)) c [].

Definition modify (f : Client -> Client) : M unit :=
  fun _ c => mkRes (Ret tt) (f c) [].

Definition emit (e : Event) : M unit :=
  fun _ c => mkRes (Ret tt) c [e].

Definition history : M History :=
  fun h c => mkRes (Ret h) c [].

Definition log (lvl : Level) (m : LogMsg) : M unit := emit (EvLog lvl m).

Declare Scope py_scope.
Delimit Scope py_scope with py.
Notation "x <- m ;; k" := (bind m (fun x => k))
  (at level 61, m at next level, right associativity) : py_scope.
Notation "m ;; k" := (bind m (fun _ => k))
  (at level 61, right associativity) : py_scope.
Local Open Scope py_scope.

(** [for x in xs: body x] *)
Fixpoint for_each {X} (xs : list X) (body : X -> M unit) : M unit :=
  match xs with
  | [] => ret tt
  | x :: xs' => body x ;; for_each xs' body
  end.

(** A [for] loop that carries a local variable. *)
Fixpoint for_fold {X A} (xs : list X) (acc : A) (body : A -> X -> M A) : M A :=
  match xs with
  | [] => ret acc
  | x :: xs' => acc' <- body acc x ;; for_fold xs' acc' body
  end.

(** ** The methods of [CoinglassWebSocketClient] *)

Section Methods.
Variable env : Env.

(** A call on a collaborator that may raise: the action is recorded and
    the environment decides whether it returns. *)
Definition call (ev : Event) (answer : History -> option exn) : M unit :=
  fun h c =>
    match answer h with
    | None => mkRes (Ret tt) c [ev]
    | Some e => mkRes (Exc e) c [ev]
    end.

(** [thread.is_alive()]: the running thread is alive, the environment
    answers for the others. *)
Definition thread_is_alive (t : Thread) : M bool :=
  fun h c => mkRes (Ret (Nat.eqb t (current_thread env) || is_alive env h t)) c [].

(** [thread.join(timeout=...)]: a thread that joins itself gets a
    [RuntimeError]. *)
Definition thread_join (t : Thread) (timeout : Z) : M unit :=
  if Nat.eqb t (current_thread env)
  then raise (RuntimeError "cannot join current thread")
  else emit (EvJoin t timeout).

(** [json.loads(message)] *)
Definition loads (message : string) : M json :=
  fun _ c => mkRes (json_loads env message) c [].

(** [self.handlers[channel]] and [self.subscribed_channels[channel]] *)
Definition handlers_item (channel : string) : M (list Handler) :=
  d <- get handlers ;;
  match PyDict.get channel d with
  | Some l => ret l
  | None => raise (KeyError channel)
  end.

Definition subscribed_item (channel : string) : M (list string) :=
  d <- get subscribed_channels ;;
  match PyDict.get channel d with
  | Some l => ret l
  | None => raise (KeyError channel)
  end.

(** [f"{channel}:{param}"] *)
Definition arg_of (channel param : string) : string :=
  (channel ++ ":" ++ param)%string.

Definition _send_message (message : Wire) : M unit :=
  w <- get ws ;;
  conn <- get is_connected ;;
  match w with
  | Some app =>
      if conn then
        try_except
          (call (EvSend app message) (fun h => ws_send env h app message) ;;
           log DEBUG (SentMessage message))
          (fun e => log ERROR (ErrorSendingMessage e))
      else log WARNING NotConnectedCannotSend
  | None => log WARNING NotConnectedCannotSend
  end.

(** The body of the [while] loop of [_send_ping]: [true] when the loop
    goes back to its test, [false] on [break]. *)
Definition _send_ping_body : M bool :=
  try_except
    (_send_message WPing ;;
     log DEBUG SentPing ;;
     emit (EvSleep PING_INTERVAL) ;;
     ret true)
    (fun e => log ERROR (ErrorInPingThread e) ;; ret false).

(** [_send_ping], for at most [fuel] turns of the loop. *)
Fixpoint _send_ping (fuel : nat) : M unit :=
  match fuel with
  | O => ret tt
  | S fuel' =>
      r <- get running ;;
      conn <- get is_connected ;;
      if r && conn then
        again <- _send_ping_body ;;
        if again then _send_ping fuel' else ret tt
      else ret tt
  end.

Definition is_dict (data : json) : bool :=
  match data with JObj _ => true | _ => false end.

Definition fields_of (data : json) : list (string * json) :=
  match data with JObj f => f | _ => [] end.

(** [data.get(key)] and [data.get(key, default)] *)
Definition data_get (data : json) (k : string) (dflt : json) : json :=
  json_get (fields_of data) k dflt.

(** [key in data] *)
Definition data_has (data : json) (k : string) : bool :=
  PyDict.contains k (fields_of data).

(** The body of the [for] loop of [_resubscribe_channels]. *)
Definition resubscribe_channel (item : string * list string) : M unit :=
  let channel := fst item in
  let current_params := snd item in
  if negb (is_empty current_params) then
    let args := map (arg_of channel) current_params in
    _send_message (WSubscribe args) ;;
    log INFO (Resubscribed channel current_params)
  else log WARNING (NoParametersFound channel).

Definition _resubscribe_channels : M unit :=
  conn <- get is_connected ;;
  auth <- get is_authenticated ;;
  if negb conn || negb (truthy auth) then log WARNING CannotResubscribe
  else
    log INFO Resubscribing ;;
    subs <- get subscribed_channels ;;
    for_each (PyDict.items subs) resubscribe_channel.

Definition _on_error (ws0 : WebSocketApp) (error : string) : M unit :=
  log ERROR (WebSocketError error) ;;
  modify (set_is_connected false) ;;
  modify (set_is_authenticated (JBool false)).

Definition _start_ws_thread : M unit :=
  t <- get _ws_thread ;;
  alive <- match t with
           | Some th => thread_is_alive th
           | None => ret false
           end ;;
  if alive then log WARNING ThreadAlreadyRunning
  else
    log INFO (ConnectingTo WS_URL) ;;
    h <- history ;;
    let app := length h in
    emit (EvNewWebSocketApp app) ;;
    modify (set_ws (Some app)) ;;
    h' <- history ;;
    let th := length h' in
    modify (set_ws_thread (Some th)) ;;
    emit (EvThreadStart th (RunForever app)).

(** [_attempt_reconnect] up to and including [time.sleep(wait_time)]:
    [Some wait_time] when it went to sleep, [None] when it returned
    without sleeping. *)
Definition _attempt_reconnect_until_sleep : M (option Z) :=
  r <- get running ;;
  if negb r then
    log INFO ReconnectAborted ;; ret None
  else
    n <- get reconnect_attempts ;;
    maxi <- get max_reconnect_attempts ;;
    if n <? maxi then
      modify (set_reconnect_attempts (n + 1)) ;;
      n' <- get reconnect_attempts ;;
      base <- get reconnect_interval ;;
      let wait_time := base * 2 ^ (n' - 1) in
      log INFO (AttemptingReconnect n' maxi wait_time) ;;
      emit (EvSleep wait_time) ;;
      ret (Some wait_time)
    else
      log ERROR MaxReconnectAttemptsReached ;;
      modify (set_running false) ;;
      ret None.

(** [_attempt_reconnect] from the statement after [time.sleep]. *)
Definition _attempt_reconnect_after_sleep : M unit :=
  w <- get ws ;;
  match w with
  | Some app =>
      try_except (call (EvClose app) (fun h => ws_close env h app))
        (fun e => log ERROR (ErrorClosingBeforeReconnect e))
  | None => ret tt
  end ;;
  _start_ws_thread.

Definition _attempt_reconnect : M unit :=
  slept <- _attempt_reconnect_until_sleep ;;
  match slept with
  | Some _ => _attempt_reconnect_after_sleep
  | None => ret tt
  end.

(** [_on_close], with the reconnect call left open: the method itself
    ([_on_close]) runs [_attempt_reconnect] to its end, the scheduler
    below stops it at the sleep ([_on_close_until_sleep]). *)
Definition on_close_body {A} (reconnect : M A) (otherwise : A)
    (close_status_code : option Z) (close_msg : option string) : M A :=
  log INFO (ConnectionClosed close_status_code close_msg) ;;
  modify (set_is_connected false) ;;
  modify (set_is_authenticated (JBool false)) ;;
  r <- get running ;;
  if r then
    log WARNING ClosedUnexpectedly ;;
    reconnect
  else
    log INFO ClosedIntentionally ;;
    ret otherwise.

Definition _on_close (ws0 : WebSocketApp)
    (close_status_code : option Z) (close_msg : option string) : M unit :=
  on_close_body _attempt_reconnect tt close_status_code close_msg.

Definition _on_close_until_sleep (ws0 : WebSocketApp)
    (close_status_code : option Z) (close_msg : option string) : M (option Z) :=
  on_close_body _attempt_reconnect_until_sleep None close_status_code close_msg.

Definition _on_open (ws0 : WebSocketApp) : M unit :=
  log INFO ConnectionOpened ;;
  modify (set_is_connected true) ;;
  modify (set_reconnect_attempts 0) ;;
  key <- get api_key ;;
  _send_message (WAuth key) ;;
  h <- history ;;
  let th := length h in
  modify (set_ping_thread (Some th)) ;;
  emit (EvThreadStart th SendPing).

(** [connect] and [disconnect] run under [connect_lock].  In the runs
    followed here no call of one of them starts on one thread while
    another is under way on another thread, and neither calls the other:
    the lock is never waited for, and it is left out. *)
Definition connect : M unit :=
  r <- get running ;;
  if r then log WARNING AlreadyRunning
  else
    modify (set_running true) ;;
    _start_ws_thread.

(** [disconnect] from "Disconnecting WebSocket..." to the return of
    [join]: the thread it waited for, if it waited. *)
Definition disconnect_until_join : M (option Thread) :=
  log INFO Disconnecting ;;
  modify (set_running false) ;;
  w <- get ws ;;
  match w with
  | Some app =>
      try_except (call (EvClose app) (fun h => ws_close env h app))
        (fun e => log ERROR (ErrorClosing e))
  | None => ret tt
  end ;;
  t <- get _ws_thread ;;
  match t with
  | Some th =>
      alive <- thread_is_alive th ;;
      if alive then
        log DEBUG WaitingForThread ;;
        thread_join th JOIN_TIMEOUT ;;
        ret (Some th)
      else ret None
  | None => ret None
  end.

(** [disconnect] from the statement after [join]. *)
Definition disconnect_after_join (joined : option Thread) : M unit :=
  match joined with
  | Some th =>
      still <- thread_is_alive th ;;
      if still then log WARNING ThreadDidNotTerminate
      else log DEBUG ThreadTerminated
  | None => ret tt
  end ;;
  modify (set_ws None) ;;
  modify (set_ws_thread None) ;;
  modify (set_ping_thread None) ;;
  modify (set_is_connected false) ;;
  modify (set_is_authenticated (JBool false)) ;;
  log INFO Disconnected.

(** [disconnect], with what happens while it waits in [join] left open:
    the method itself ([disconnect]) waits with nothing happening, the
    scheduler below lets a thread that is in a short backoff sleep wake up
    inside the wait. *)
Definition disconnect_body (until_join : M (option Thread))
    (meanwhile : Thread -> M unit) (after_join : option Thread -> M unit)
    : M unit :=
  r <- get running ;;
  if negb r then log WARNING ClientNotRunning
  else
    joined <- until_join ;;
    match joined with
    | Some th => meanwhile th
    | None => ret tt
    end ;;
    after_join joined.

Definition disconnect : M unit :=
  disconnect_body disconnect_until_join (fun _ => ret tt) disconnect_after_join.

(** The body of the [for p in params] loop of [subscribe];
    [new] is [new_params_to_subscribe]. *)
Definition register_param (channel : string) (new : list string) (p : string)
    : M (list string) :=
  cur <- subscribed_item channel ;;
  if negb (str_in p cur) then
    subs <- get subscribed_channels ;;
    modify (set_subscribed_channels (PyDict.set channel (cur ++ [p]) subs)) ;;
    ret (new ++ [p])
  else ret new.

Definition subscribe (channel : string) (params : list string)
    (handler : Handler) : M unit :=
  if (channel =? "")%string || is_empty params then
    log ERROR EmptyChannelOrParams
  else
    hs <- get handlers ;;
    (if negb (PyDict.contains channel hs)
     then modify (set_handlers (PyDict.set channel [] hs))
     else ret tt) ;;
    l <- handlers_item channel ;;
    (if negb (handler_in handler l) then
       hs' <- get handlers ;;
       modify (set_handlers (PyDict.set channel (l ++ [handler]) hs')) ;;
       log INFO (HandlerAdded channel)
     else ret tt) ;;
    subs <- get subscribed_channels ;;
    (if negb (PyDict.contains channel subs)
     then modify (set_subscribed_channels (PyDict.set channel [] subs))
     else ret tt) ;;
    new_params_to_subscribe <- for_fold params [] (register_param channel) ;;
    if negb (is_empty new_params_to_subscribe) then
      conn <- get is_connected ;;
      auth <- get is_authenticated ;;
      if conn && truthy auth then
        let args := map (arg_of channel) new_params_to_subscribe in
        _send_message (WSubscribe args) ;;
        log INFO (Subscribed channel new_params_to_subscribe)
      else log WARNING (NotReadyToSubscribe channel new_params_to_subscribe)
    else log INFO (AlreadySubscribed channel params).

(** The [for p in params] loop of [unsubscribe]; it works on two local
    lists only. *)
Fixpoint unsubscribe_loop (params params_to_unsubscribe remaining_params : list string)
    : list string * list string :=
  match params with
  | [] => (params_to_unsubscribe, remaining_params)
  | p :: ps =>
      if str_in p remaining_params then
        unsubscribe_loop ps (params_to_unsubscribe ++ [p])
          (str_remove p remaining_params)
      else unsubscribe_loop ps params_to_unsubscribe remaining_params
  end.

(** [handler] is [None] or a callback; a callback is truthy, so
    [if handler:] is the test for [Some]. *)
Definition unsubscribe (channel : string) (params : list string)
    (handler : option Handler) : M unit :=
  subs <- get subscribed_channels ;;
  if negb (PyDict.contains channel subs) then
    log WARNING (NotSubscribedToChannel channel)
  else
    let registered :=
      match PyDict.get channel subs with Some l => l | None => [] end in
    let params_to_unsubscribe := fst (unsubscribe_loop params [] registered) in
    let remaining_params := snd (unsubscribe_loop params [] registered) in
    if is_empty params_to_unsubscribe then
      log WARNING (NotSubscribedWithParams channel params)
    else
      (if is_empty remaining_params
       then modify (set_subscribed_channels (PyDict.del channel subs))
       else modify (set_subscribed_channels
                      (PyDict.set channel remaining_params subs))) ;;
      conn <- get is_connected ;;
      auth <- get is_authenticated ;;
      (if conn && truthy auth then
         let args := map (arg_of channel) params_to_unsubscribe in
         _send_message (WUnsubscribe args) ;;
         log INFO (Unsubscribed channel params_to_unsubscribe)
       else log WARNING NotReadyToUnsubscribe) ;;
      hs <- get handlers ;;
      if PyDict.contains channel hs then
        match handler with
        | Some h =>
            l <- handlers_item channel ;;
            if handler_in h l then
              modify (set_handlers (PyDict.set channel (handler_remove h l) hs)) ;;
              log INFO (RemovedHandler channel)
            else log WARNING (HandlerNotFound channel)
        | None =>
            if is_empty remaining_params then
              modify (set_handlers (PyDict.del channel hs)) ;;
              log INFO (RemovedAllHandlers channel)
            else ret tt
        end
      else ret tt.

(** *** The data handlers *)

(** One call of a handler on the client. *)
Definition client_call (k : ClientCall) : M unit :=
  match k with
  | CallSubscribe channel params handler => subscribe channel params handler
  | CallUnsubscribe channel params handler => unsubscribe channel params handler
  | CallConnect => connect
  | CallDisconnect => disconnect
  end.

(** The [for] loop over [self.handlers[channel]] iterates the list object
    that the registry holds: it sees what [subscribe] appends to it and
    what [unsubscribe] removes from it while the loop runs.  Only
    [del self.handlers[channel]] takes the object out of the registry:
    from then on the loop holds the last reference to it, with the items
    it had, and a later [subscribe] puts a new list into the registry.
    [None]: the loop iterates the list of the registry; [Some items]: it
    iterates a list that has left the registry. *)
Definition Held := option (list Handler).

Definition held_items (channel : string) (held : Held) (c : Client) : list Handler :=
  match held with
  | Some items => items
  | None =>
      match PyDict.get channel (handlers c) with
      | Some l => l
      | None => []
      end
  end.

(** The iterated list object after a call that took the client from
    [before] to [after]: no single call deletes the registry's entry and
    makes a new one. *)
Definition hold (channel : string) (held : Held) (before after : Client) : Held :=
  match held with
  | Some items => Some items
  | None =>
      if PyDict.contains channel (handlers after) then None
      else Some (held_items channel None before)
  end.

(** The calls of a running handler, up to its ending. *)
Fixpoint handler_calls (channel : string) (run : HandlerRun) (held : Held)
    : M (Held * Ending) :=
  match run with
  | Ends how => ret (held, how)
  | Calls k next =>
      fun h c =>
        match client_call k h c with
        | mkRes (Ret _) c' evs =>
            prefix evs
              (handler_calls channel (next None) (hold channel held c c')
                 (extend h evs) c')
        | mkRes (Exc e) c' evs =>
            prefix evs
              (handler_calls channel (next (Some e)) (hold channel held c c')
                 (extend h evs) c')
        | mkRes (Esc x) c' evs =>
            mkRes (Ret (hold channel held c c', Exits x)) c' evs
        end
  end.

(** The call [handler(channel_data)], up to the ending of the handler. *)
Definition invoke (channel : string) (handler : Handler) (channel_data : json)
    (held : Held) : M (Held * Ending) :=
  h <- history ;;
  emit (EvInvoke handler channel_data) ;;
  handler_calls channel (call_handler env h handler channel_data) held.

(** The ending of the handler, as the caller sees it. *)
Definition finish (how : Ending) : M unit :=
  match how with
  | Returns => ret tt
  | Raises e => raise e
  | Exits x => escape x
  end.

(** The body of the [for handler in ...] loop of [_on_message]: the call
    of the handler inside [try: ... except Exception as e:]. *)
Definition guarded_invoke (channel : string) (channel_data : json)
    (handler : Handler) (held : Held) : M Held :=
  result <- invoke channel handler channel_data held ;;
  try_except (finish (snd result))
    (fun e => log ERROR (ErrorInHandler channel e)) ;;
  ret (fst result).

(** [for handler in self.handlers[channel]: ...], from index [i] of the
    list object on, for at most [turns] turns. *)
Fixpoint handler_loop (turns : nat) (channel : string) (channel_data : json)
    (i : nat) (held : Held) : M unit :=
  match turns with
  | O => ret tt
  | S turns' =>
      c <- get (fun c => c) ;;
      match nth_error (held_items channel held c) i with
      | Some handler =>
          held' <- guarded_invoke channel channel_data handler held ;;
          handler_loop turns' channel channel_data (S i) held'
      | None => ret tt
      end
  end.

(** The channel-data branch of [_on_message].  [channel in self.handlers]
    hashes [channel]: a list or a dict raises [TypeError]; a number, a
    boolean or [None] is no key of the registry. *)
Definition dispatch (channel channel_data : json) : M unit :=
  match channel with
  | JStr name =>
      hs <- get handlers ;;
      if PyDict.contains name hs then
        l <- handlers_item name ;;
        handler_loop (length l + growth env) name channel_data 0 None
      else log DEBUG (NoHandlerRegistered channel)
  | JArr _ | JObj _ => raise (TypeError "unhashable type")
  | _ => log DEBUG (NoHandlerRegistered channel)
  end.

Definition _on_message (ws0 : WebSocketApp) (message : string) : M unit :=
  try_except
    (data <- loads message ;;
     log DEBUG (ReceivedMessage data) ;;
     if is_dict data && json_eq_str (data_get data "op" JNull) "pong" then
       log DEBUG ReceivedPong
     else if is_dict data && json_eq_str (data_get data "op" JNull) "auth" then
       let success := data_get data "success" (JBool false) in
       modify (set_is_authenticated success) ;;
       if truthy success then
         log INFO AuthenticationSuccessful ;;
         _resubscribe_channels
       else
         log ERROR (AuthenticationFailed
                      (data_get data "message" (JStr "Unknown error")))
     else if is_dict data && data_has data "channel" && data_has data "data" then
       dispatch (data_get data "channel" JNull) (data_get data "data" JNull)
     else if is_dict data && json_eq_str (data_get data "event" JNull) "error" then
       log ERROR (ReceivedErrorFromServer
                    (data_get data "message" (JStr "Unknown error")))
     else ret tt)
    (fun e =>
       match e with
       | JSONDecodeError _ => log ERROR (FailedToParse message)
       | _ => log ERROR (ErrorProcessingMessage e)
       end).
End Methods.

(** ** The client among its threads *)

(** What can happen to a client: the application calls one of the public
    methods, the transport calls one of the callbacks on its thread, a
    backoff sleep started by an earlier close ends, or the heartbeat
    thread takes one turn of its loop.  Each of these runs to its end (or
    to the sleep) before the next one starts, with one exception: when
    [disconnect] waits in [join] for a thread that is inside a backoff
    sleep no longer than the timeout of the [join], that thread wakes up
    and runs the rest of [_attempt_reconnect] inside the wait.  Time is
    not followed beyond that: sleeping threads wake up in the order in
    which they went to sleep. *)
Inductive Call : Type :=
| AppConnect
| AppDisconnect
| AppSubscribe (channel : string) (params : list string) (handler : Handler)
| AppUnsubscribe (channel : string) (params : list string) (handler : option Handler)
| OnOpen (w : WebSocketApp)
| OnMessage (w : WebSocketApp) (message : string)
| OnError (w : WebSocketApp) (error : string)
| OnClose (w : WebSocketApp) (status : option Z) (msg : option string)
| SleepEnds
| PingTurn.

(** A thread inside the [time.sleep] of [_attempt_reconnect], with the
    seconds it sleeps. *)
Definition Sleeper : Type := (Thread * Z)%type.

Record System : Type := mkSystem {
  client : Client;
  (** the threads inside the [time.sleep] of [_attempt_reconnect], the
      one that went to sleep first at the head *)
  asleep : list Sleeper;
  trace : History
}.

(** The number of threads inside a backoff sleep. *)
Definition sleeping (s : System) : nat := length (asleep s).

Definition boot (key : string) (dbg : bool) : System :=
  mkSystem (init key dbg) [] [].

(** The thread that runs [run_forever] of a transport, and so its
    callbacks: [_start_ws_thread] makes the transport and the thread
    together and takes both handles from the length of the history, the
    thread's right after the transport's. *)
Definition runner (w : WebSocketApp) : Thread := S w.

(** The seconds the thread [t] sleeps, if it is asleep. *)
Fixpoint nap (t : Thread) (zs : list Sleeper) : option Z :=
  match zs with
  | [] => None
  | (t', seconds) :: zs' => if Nat.eqb t t' then Some seconds else nap t zs'
  end.

(** The sleepers once [t] woke up. *)
Fixpoint wake (t : Thread) (zs : list Sleeper) : list Sleeper :=
  match zs with
  | [] => []
  | (t', seconds) :: zs' =>
      if Nat.eqb t t' then zs' else (t', seconds) :: wake t zs'
  end.

Definition is_asleep (t : Thread) (zs : list Sleeper) : bool :=
  match nap t zs with Some _ => true | None => false end.

(** The environment as the thread [t] finds it while the threads of [zs]
    sleep: a sleeping thread is alive. *)
Definition on_thread (t : Thread) (zs : list Sleeper) (env : Env) : Env :=
  {| json_loads := json_loads env;
     ws_send := ws_send env;
     ws_close := ws_close env;
     is_alive := fun h th => is_asleep th zs || is_alive env h th;
     call_handler := call_handler env;
     current_thread := t;
     growth := growth env |}.

(** The thread that [disconnect], called by the application, finds asleep
    when it joins it and that wakes up inside the [join]: the recorded
    transport thread, when its sleep is no longer than the timeout.  A
    longer sleep outlasts the [join]: the call is taken to come while
    more than the timeout of the sleep is left; a call that comes later
    in a long sleep is not followed. *)
Definition woken_by_join (c : Client) (zs : list Sleeper) : option Thread :=
  if running c then
    match _ws_thread c with
    | Some th =>
        match nap th zs with
        | Some seconds =>
            if (seconds <=? JOIN_TIMEOUT) && negb (Nat.eqb th main_thread)
            then Some th else None
        | None => None
        end
    | None => None
    end
  else None.

(** The thread of the heartbeat loop. *)
Definition ping_thread (c : Client) : Thread :=
  match _ping_thread c with
  | Some t => t
  | None => main_thread
  end.

Section Scheduler.
Variable env : Env.

Definition after {A} (s : System) (r : Res A) (zs : list Sleeper) : System :=
  mkSystem (res_client r) zs (extend (trace s) (res_events r)).

Definition step (s : System) (call : Call) : System :=
  let h := trace s in
  let c := client s in
  let zs := asleep s in
  let caller := on_thread main_thread zs env in
  match call with
  | AppConnect => after s (connect caller h c) zs
  | AppDisconnect =>
      match woken_by_join c zs with
      | Some th =>
          let rest := wake th zs in
          after s
            (disconnect_body (disconnect_until_join caller)
               (fun _ => _attempt_reconnect_after_sleep (on_thread th rest env))
               (disconnect_after_join (on_thread main_thread rest env)) h c)
            rest
      | None => after s (disconnect caller h c) zs
      end
  | AppSubscribe ch ps hd => after s (subscribe caller ch ps hd h c) zs
  | AppUnsubscribe ch ps hd => after s (unsubscribe caller ch ps hd h c) zs
  | OnOpen w => after s (_on_open (on_thread (runner w) zs env) w h c) zs
  | OnMessage w m => after s (_on_message (on_thread (runner w) zs env) w m h c) zs
  | OnError w e => after s (_on_error w e h c) zs
  | OnClose w code msg =>
      let r := _on_close_until_sleep w code msg h c in
      after s r (match res_out r with
                 | Ret (Some seconds) => zs ++ [(runner w, seconds)]
                 | _ => zs
                 end)
  | SleepEnds =>
      match zs with
      | [] => s
      | (th, _) :: rest =>
          after s (_attempt_reconnect_after_sleep (on_thread th rest env) h c) rest
      end
  | PingTurn => after s (_send_ping (on_thread (ping_thread c) zs env) 1 h c) zs
  end.

Definition run (s : System) (calls : list Call) : System :=
  fold_left step calls s.
End Scheduler.

(** ** Reading a trace *)

(** The control messages handed to the transport, in order. *)
Fixpoint sends (evs : list Event) : list Wire :=
  match evs with
  | [] => []
  | EvSend _ m :: evs' => m :: sends evs'
  | _ :: evs' => sends evs'
  end.

(** The transports opened ([WebSocketApp] instances built), in order. *)
Fixpoint opens (evs : list Event) : list WebSocketApp :=
  match evs with
  | [] => []
  | EvNewWebSocketApp w :: evs' => w :: opens evs'
  | _ :: evs' => opens evs'
  end.

(** The handler calls, in order. *)
Fixpoint invocations (evs : list Event) : list (Handler * json) :=
  match evs with
  | [] => []
  | EvInvoke h d :: evs' => (h, d) :: invocations evs'
  | _ :: evs' => invocations evs'
  end.

(** The sleeps, in order. *)
Fixpoint sleeps (evs : list Event) : list Z :=
  match evs with
  | [] => []
  | EvSleep t :: evs' => t :: sleeps evs'
  | _ :: evs' => sleeps evs'
  end.

(** The log lines, in order. *)
Fixpoint logs (evs : list Event) : list (Level * LogMsg) :=
  match evs with
  | [] => []
  | EvLog l m :: evs' => (l, m) :: logs evs'
  | _ :: evs' => logs evs'
  end.

Definition is_subscribe (m : Wire) : bool :=
  match m with WSubscribe _ => true | _ => false end.

Definition is_auth (m : Wire) : bool :=
  match m with WAuth _ => true | _ => false end.

Definition is_ping (m : Wire) : bool :=
  match m with WPing => true | _ => false end.

(** ** Vocabulary of the statements *)

(** A computation is quiet when it always returns [tt] and leaves the
    client as it found it. *)
Definition quiet (m : M unit) : Prop :=
  forall h c, res_out (m h c) = Ret tt /\ res_client (m h c) = c.

(** The actions of [_send_message]. *)
Definition send_events (env : Env) (msg : Wire) (h : History) (c : Client)
    : list Event :=
  match ws c with
  | Some app =>
      if is_connected c then
        match ws_send env h app msg with
        | None => [EvSend app msg; EvLog DEBUG (SentMessage msg)]
        | Some e => [EvSend app msg; EvLog ERROR (ErrorSendingMessage e)]
        end
      else [EvLog WARNING NotConnectedCannotSend]
  | None => [EvLog WARNING NotConnectedCannotSend]
  end.

(** Whether a message handed to [_send_message] reaches [ws.send]. *)
Definition can_send (c : Client) : bool :=
  match ws c with
  | Some _ => is_connected c
  | None => false
  end.

(** The subscribe message of the replay for one registry entry. *)
Definition subscribe_message (item : string * list string) : Wire :=
  WSubscribe (map (arg_of (fst item)) (snd item)).

Definition has_params (item : string * list string) : bool :=
  negb (is_empty (snd item)).

(** The parameters of a [subscribe] call that are not registered yet, in
    the order of the call, each once. *)
Fixpoint fresh_params (params cur : list string) : list string :=
  match params with
  | [] => []
  | p :: ps =>
      if str_in p cur then fresh_params ps cur
      else p :: fresh_params ps (cur ++ [p])
  end.

(** [d.get(k, [])] *)
Definition get_list {V} (k : string) (d : PyDict.t (list V)) : list V :=
  match PyDict.get k d with
  | Some l => l
  | None => []
  end.

(** The registries after [subscribe]. *)
Definition handlers_after_subscribe (channel : string) (handler : Handler)
    (hs : PyDict.t (list Handler)) : PyDict.t (list Handler) :=
  if handler_in handler (get_list channel hs) then hs
  else PyDict.set channel (get_list channel hs ++ [handler]) hs.

Definition subscribed_after_subscribe (channel : string) (params : list string)
    (subs : PyDict.t (list string)) : PyDict.t (list string) :=
  let cur := get_list channel subs in
  PyDict.set channel (cur ++ fresh_params params cur) subs.

(** The actions of [subscribe]. *)
Definition subscribe_events (env : Env) (channel : string) (params : list string)
    (handler : Handler) (h : History) (c : Client) : list Event :=
  let added :=
    if handler_in handler (get_list channel (handlers c)) then []
    else [EvLog INFO (HandlerAdded channel)] in
  let fresh := fresh_params params (get_list channel (subscribed_channels c)) in
  added ++
  (if is_empty fresh then [EvLog INFO (AlreadySubscribed channel params)]
   else if is_connected c && truthy (is_authenticated c) then
     send_events env (WSubscribe (map (arg_of channel) fresh)) (extend h added)
       (set_subscribed_channels
          (subscribed_after_subscribe channel params (subscribed_channels c))
          (set_handlers (handlers_after_subscribe channel handler (handlers c)) c))
     ++ [EvLog INFO (Subscribed channel fresh)]
   else [EvLog WARNING (NotReadyToSubscribe channel fresh)]).

(** The two lists the loop of [unsubscribe] ends with. *)
Definition params_to_unsubscribe (params registered : list string) : list string :=
  fst (unsubscribe_loop params [] registered).

Definition remaining_params (params registered : list string) : list string :=
  snd (unsubscribe_loop params [] registered).

(** The registries after an [unsubscribe] that found something to
    remove. *)
Definition subscribed_after_unsubscribe (channel : string) (params : list string)
    (subs : PyDict.t (list string)) : PyDict.t (list string) :=
  let remaining := remaining_params params (get_list channel subs) in
  if is_empty remaining then PyDict.del channel subs
  else PyDict.set channel remaining subs.

Definition handlers_after_unsubscribe (channel : string) (params : list string)
    (handler : option Handler) (subs : PyDict.t (list string))
    (hs : PyDict.t (list Handler)) : PyDict.t (list Handler) :=
  match PyDict.get channel hs with
  | None => hs
  | Some l =>
      match handler with
      | Some hd =>
          if handler_in hd l then PyDict.set channel (handler_remove hd l) hs
          else hs
      | None =>
          if is_empty (remaining_params params (get_list channel subs))
          then PyDict.del channel hs else hs
      end
  end.

(** The settings no method changes. *)
Definition keeps_policy (c c' : Client) : Prop :=
  api_key c' = api_key c /\
  reconnect_interval c' = reconnect_interval c /\
  max_reconnect_attempts c' = max_reconnect_attempts c.

Definition keeps_registries (c c' : Client) : Prop :=
  subscribed_channels c' = subscribed_channels c /\
  handlers c' = handlers c.

(** The reconnect counter is within its budget. *)
Definition within_budget (c : Client) : Prop :=
  0 <= reconnect_attempts c <= max_reconnect_attempts c.

(** No auth message among the control messages of a trace. *)
Definition no_auth (evs : list Event) : Prop :=
  forallb (fun m => negb (is_auth m)) (sends evs) = true.

(** The auth messages of a trace. *)
Definition auth_sends (evs : list Event) : list Wire :=
  filter is_auth (sends evs).

Definition is_connect (call : Call) : bool :=
  match call with AppConnect => true | _ => false end.

Definition is_open (call : Call) : bool :=
  match call with OnOpen _ => true | _ => false end.

Definition is_registration (call : Call) : bool :=
  match call with
  | AppSubscribe _ _ _ | AppUnsubscribe _ _ _ => true
  | _ => false
  end.

(** Every list of a registry is duplicate free. *)
Definition lists_nodup {V} (d : PyDict.t (list V)) : Prop :=
  forall k l, PyDict.get k d = Some l -> NoDup l.

(** What [subscribe] and [unsubscribe] maintain: each channel once, each
    parameter and each handler once per channel. *)
Definition registry_ok (c : Client) : Prop :=
  PyDict.wf (subscribed_channels c) /\ PyDict.wf (handlers c) /\
  lists_nodup (subscribed_channels c) /\ lists_nodup (handlers c).

(** A decoded message that [_on_message] treats as channel data for the
    channel [name]: a dict that is neither a pong nor an auth result and
    has both keys. *)
Definition is_channel_data (data : json) (name : string) : Prop :=
  is_dict data = true /\
  json_eq_str (data_get data "op" JNull) "pong" = false /\
  json_eq_str (data_get data "op" JNull) "auth" = false /\
  data_has data "channel" = true /\
  data_has data "data" = true /\
  data_get data "channel" JNull = JStr name.

(** The handler clause of the unsubscribe claim, for one call: the
    handler that is given, when it is in the channel's handler list, is
    taken out of that list. *)
Definition removes_given_handler (env : Env) (channel : string)
    (params : list string) (hd : Handler) (h : History) (c : Client) : Prop :=
  forall l,
    PyDict.get channel (handlers c) = Some l -> In hd l ->
    PyDict.get channel
      (handlers (res_client (unsubscribe env channel params (Some hd) h c))) =
    Some (handler_remove hd l).

(** The state of the default client between two reconnect attempts. *)
Definition at_attempt (s : System) (n : Z) (slept : list Z) : Prop :=
  running (client s) = true /\
  reconnect_attempts (client s) = n /\
  reconnect_interval (client s) = 5 /\
  max_reconnect_attempts (client s) = 5 /\
  sleeps (trace s) = slept.

(** A failed connection that the application replaces: the transport
    closes, the backoff sleep ends, and the application calls
    [disconnect] and [connect]. *)
Definition retry_round (w : WebSocketApp) : list Call :=
  [OnClose w None None; SleepEnds; AppDisconnect; AppConnect].

(** Five unexpected closes in a row, each followed by the end of its
    backoff sleep. *)
Definition five_failures : list Call :=
  [OnClose 0%nat None None; SleepEnds;
   OnClose 0%nat None None; SleepEnds;
   OnClose 0%nat None None; SleepEnds;
   OnClose 0%nat None None; SleepEnds;
   OnClose 0%nat None None; SleepEnds].

(** A handler run all of whose calls on the client pass the test
    [good], whichever way the run goes. *)
Inductive calls_only (good : ClientCall -> bool) : HandlerRun -> Prop :=
| calls_only_ends how : calls_only good (Ends how)
| calls_only_calls k next :
    good k = true ->
    (forall o, calls_only good (next o)) ->
    calls_only good (Calls k next).

(** Whether a call of a handler is a [subscribe] or an [unsubscribe] for
    [channel]: the calls that change the handler list of the channel. *)
Definition touches (channel : string) (k : ClientCall) : bool :=
  match k with
  | CallSubscribe ch _ _ | CallUnsubscribe ch _ _ => (ch =? channel)%string
  | _ => false
  end.

(** A handler run that makes no [subscribe] and no [unsubscribe] call for
    [channel], whatever its other calls do. *)
Definition leaves_handlers (channel : string) : HandlerRun -> Prop :=
  calls_only (fun k => negb (touches channel k)).

Definition registers (k : ClientCall) : bool :=
  match k with
  | CallSubscribe _ _ _ | CallUnsubscribe _ _ _ => true
  | _ => false
  end.

(** A handler run without a [subscribe] or [unsubscribe] call. *)
Definition no_registration : HandlerRun -> Prop :=
  calls_only (fun k => negb (registers k)).

Definition connects (k : ClientCall) : bool :=
  match k with
  | CallConnect => true
  | _ => false
  end.

(** A handler run without a [connect] call. *)
Definition no_connect : HandlerRun -> Prop :=
  calls_only (fun k => negb (connects k)).

(** A handler run that ends by returning or by raising an instance of
    [Exception], whatever its calls do. *)
Inductive never_exits : HandlerRun -> Prop :=
| never_exits_returns : never_exits (Ends Returns)
| never_exits_raises e : never_exits (Ends (Raises e))
| never_exits_calls k next :
    (forall o, never_exits (next o)) -> never_exits (Calls k next).

(** ** A sample environment *)

(** Handlers 1 and 2; handler 1 raises on every call.  The transport
    accepts every message, no thread other than the running one and the
    sleeping ones is reported alive, and four message texts stand for the
    four server messages they decode to. *)
Definition sample_loads (message : string) : Outcome json :=
  if (message =? "auth ok")%string then
    Ret (JObj [("op", JStr "auth"); ("success", JBool true)])
  else if (message =? "auth bad key")%string then
    Ret (JObj [("op", JStr "auth"); ("success", JBool false);
               ("message", JStr "bad key")])
  else if (message =? "liquidation 1")%string then
    Ret (JObj [("channel", JStr "liquidation"); ("data", JNum 1)])
  else if (message =? "liquidation 2")%string then
    Ret (JObj [("channel", JStr "liquidation"); ("data", JNum 2)])
  else Exc (JSONDecodeError message).

Definition sample_env : Env :=
  {| json_loads := sample_loads;
     ws_send := fun _ _ _ => None;
     ws_close := fun _ _ => None;
     is_alive := fun _ _ => false;
     call_handler := fun _ handler _ =>
       if Nat.eqb handler 1 then Ends (Raises (Exception "boom"))
       else Ends Returns;
     current_thread := main_thread;
     growth := 0 |}.

(** The sample environment with a transport whose [send] always raises. *)
Definition broken_pipe_env : Env :=
  {| json_loads := sample_loads;
     ws_send := fun _ _ _ => Some (Exception "broken pipe");
     ws_close := fun _ _ => None;
     is_alive := fun _ _ => false;
     call_handler := fun _ _ _ => Ends Returns;
     current_thread := main_thread;
     growth := 0 |}.



(** A client that is connected and authenticated on transport 0, which
    runs on thread 1, with channel "liquidation" registered for BTC and
    ETH and handlers 1, 2. *)
Definition sample_client : Client :=
  {| api_key := "key";
     debug := false;
     ws := Some 0%nat;
     is_connected := true;
     is_authenticated := JBool true;
     subscribed_channels := [("liquidation", ["BTC"; "ETH"])];
     handlers := [("liquidation", [1%nat; 2%nat])];
     reconnect_interval := 5;
     max_reconnect_attempts := 5;
     reconnect_attempts := 0;
     running := true;
     _ping_thread := Some 2%nat;
     _ws_thread := Some 1%nat |}.

(** ** Vocabulary of the further properties *)

(** Whether [_start_ws_thread] finds the recorded transport thread alive. *)
Definition thread_alive (env : Env) (h : History) (c : Client) : bool :=
  match _ws_thread c with
  | Some th => Nat.eqb th (current_thread env) || is_alive env h th
  | None => false
  end.

(** The transports on which [close()] was called, in order. *)
Fixpoint closes (evs : list Event) : list WebSocketApp :=
  match evs with
  | [] => []
  | EvClose w :: evs' => w :: closes evs'
  | _ :: evs' => closes evs'
  end.

(** The client as [disconnect] leaves it. *)
Definition disconnected (c : Client) : Client :=
  set_is_authenticated (JBool false)
    (set_is_connected false
       (set_ping_thread None
          (set_ws_thread None (set_ws None (set_running false c))))).

(** The client after [_start_ws_thread] built a transport with the handles
    it takes from the length of the history. *)
Definition started (h : History) (c : Client) : Client :=
  let h1 := h ++ [EvLog INFO (ConnectingTo WS_URL)] in
  let transport := length h1 in
  let thread := length (h1 ++ [EvNewWebSocketApp transport]) in
  set_ws_thread (Some thread) (set_ws (Some transport) c).

(** The actions of a [_start_ws_thread] that builds a transport. *)
Definition start_events (h : History) : list Event :=
  let h1 := h ++ [EvLog INFO (ConnectingTo WS_URL)] in
  let transport := length h1 in
  let thread := length (h1 ++ [EvNewWebSocketApp transport]) in
  [EvLog INFO (ConnectingTo WS_URL);
   EvNewWebSocketApp transport;
   EvThreadStart thread (RunForever transport)].

(** No registered channel has an empty parameter list. *)
Definition lists_nonempty {V} (d : PyDict.t (list V)) : Prop :=
  forall k l, PyDict.get k d = Some l -> l <> [].

(** The sample environment with every thread reported alive. *)
Definition live_thread_env : Env :=
  {| json_loads := sample_loads;
     ws_send := fun _ _ _ => None;
     ws_close := fun _ _ => None;
     is_alive := fun _ _ => true;
     call_handler := fun _ _ _ => Ends Returns;
     current_thread := main_thread;
     growth := 0 |}.

(** The sample environment with [json.loads] returning [data] for every
    message text. *)
Definition decoding_env (data : json) : Env :=
  {| json_loads := fun _ => Ret data;
     ws_send := fun _ _ _ => None;
     ws_close := fun _ _ => None;
     is_alive := fun _ _ => false;
     call_handler := fun _ handler _ =>
       if Nat.eqb handler 1 then Ends (Raises (Exception "boom"))
       else Ends Returns;
     current_thread := main_thread;
     growth := 0 |}.

(** Whether one of the four tests of [_on_message] accepts the decoded
    message. *)
Definition recognised (data : json) : bool :=
  is_dict data &&
  (json_eq_str (data_get data "op" JNull) "pong"
   || json_eq_str (data_get data "op" JNull) "auth"
   || (data_has data "channel" && data_has data "data")
   || json_eq_str (data_get data "event" JNull) "error").


(** ** Vocabulary of the proofs *)

(** The fields [disconnect] resets after the [join]. *)
Definition reset_after_join (c : Client) : Client :=
  set_is_authenticated (JBool false)
    (set_is_connected false
       (set_ping_thread None (set_ws_thread None (set_ws None c)))).

(** A computation that always returns, sends nothing, does not sleep, and
    touches neither the settings, the registries, the reconnect counter
    nor the flags [running] and [is_connected]. *)
Definition tame (m : M unit) : Prop :=
  forall h c,
    let r := m h c in
    res_out r = Ret tt /\
    keeps_policy c (res_client r) /\ keeps_registries c (res_client r) /\
    reconnect_attempts (res_client r) = reconnect_attempts c /\
    running (res_client r) = running c /\
    is_connected (res_client r) = is_connected c /\
    sends (res_events r) = [] /\ sleeps (res_events r) = [].


(** The loop of [_on_message] over a list that does not change under it:
    the guarded call of each handler of [hs], one after the other. *)
Definition each_handler (env : Env) (channel : string) (channel_data : json)
    (hs : list Handler) : M unit :=
  for_each hs
    (fun handler => guarded_invoke env channel channel_data handler None ;; ret tt).
(** * Proofs *)

(** ** Lemmas on dictionaries and lists *)

Module PyDictFacts.
Import PyDict.
Section Facts.
Variable V : Type.
Implicit Types (d : t V) (k : string) (v : V).

Lemma get_set_same d k v : get k (set k v d) = Some v.
Proof.
  induction d as [|[k' v'] d IH]; simpl.
  - now rewrite String.eqb_refl.
  - destruct (String.eqb k k') eqn:E; simpl.
    + now rewrite String.eqb_refl.
    + now rewrite E.
Qed.

Lemma get_set_other d k k' v : k' <> k -> get k' (set k v d) = get k' d.
Proof.
  intros Hne. induction d as [|[k0 v0] d IH]; simpl.
  - apply String.eqb_neq in Hne. now rewrite Hne.
  - destruct (String.eqb k k0) eqn:E; simpl.
    + apply String.eqb_eq in E; subst k0.
      apply String.eqb_neq in Hne. now rewrite Hne.
    + now rewrite IH.
Qed.

Lemma set_get_same d k v : get k d = Some v -> set k v d = d.
Proof.
  induction d as [|[k' v'] d IH]; simpl; [discriminate|].
  destruct (String.eqb k k') eqn:E.
  - apply String.eqb_eq in E; subst k'. intros [= ->]. reflexivity.
  - intros H. now rewrite IH.
Qed.

Lemma set_set d k v v' : set k v' (set k v d) = set k v' d.
Proof.
  induction d as [|[k0 v0] d IH]; simpl.
  - now rewrite String.eqb_refl.
  - destruct (String.eqb k k0) eqn:E; simpl.
    + now rewrite String.eqb_refl.
    + now rewrite E, IH.
Qed.

Lemma get_del_other d k k' : k' <> k -> get k' (del k d) = get k' d.
Proof.
  intros Hne. induction d as [|[k0 v0] d IH]; simpl; [reflexivity|].
  destruct (String.eqb k k0) eqn:E; simpl.
  - apply String.eqb_eq in E; subst k0.
    apply String.eqb_neq in Hne. now rewrite Hne.
  - now rewrite IH.
Qed.

Lemma get_none_not_key d k : get k d = None -> ~ In k (keys d).
Proof.
  induction d as [|[k0 v0] d IH]; simpl; [tauto|].
  destruct (String.eqb k k0) eqn:E; [discriminate|].
  apply String.eqb_neq in E. intros H [Heq|Hin]; [congruence|]. now apply IH.
Qed.

Lemma not_key_get_none d k : ~ In k (keys d) -> get k d = None.
Proof.
  induction d as [|[k0 v0] d IH]; simpl; [reflexivity|].
  intros H. destruct (String.eqb k k0) eqn:E.
  - apply String.eqb_eq in E. subst. tauto.
  - apply IH. tauto.
Qed.

Lemma get_del_same d k : wf d -> get k (del k d) = None.
Proof.
  unfold wf. induction d as [|[k0 v0] d IH]; simpl; [reflexivity|].
  intros Hnd. inversion Hnd as [|? ? Hnin Hnd']; subst.
  destruct (String.eqb k k0) eqn:E; simpl.
  - apply String.eqb_eq in E; subst k0. now apply not_key_get_none.
  - rewrite E. now apply IH.
Qed.

Lemma keys_set_in d k v k' : In k' (keys (set k v d)) <-> k' = k \/ In k' (keys d).
Proof.
  induction d as [|[k0 v0] d IH]; simpl.
  - intuition congruence.
  - destruct (String.eqb k k0) eqn:E; simpl.
    + apply String.eqb_eq in E; subst k0. intuition congruence.
    + rewrite IH. intuition congruence.
Qed.

Lemma wf_set d k v : wf d -> wf (set k v d).
Proof.
  unfold wf. induction d as [|[k0 v0] d IH]; simpl; intros Hnd.
  - constructor; [simpl; tauto | constructor].
  - inversion Hnd as [|? ? Hnin Hnd']; subst.
    destruct (String.eqb k k0) eqn:E; simpl.
    + apply String.eqb_eq in E; subst k0. now constructor.
    + constructor; [|now apply IH].
      fold (keys (set k v d)). rewrite keys_set_in.
      apply String.eqb_neq in E. intros [->|H]; [congruence | tauto].
Qed.

Lemma keys_del_in d k k' : In k' (keys (del k d)) -> In k' (keys d).
Proof.
  induction d as [|[k0 v0] d IH]; simpl; [tauto|].
  destruct (String.eqb k k0); simpl; intuition.
Qed.

Lemma wf_del d k : wf d -> wf (del k d).
Proof.
  unfold wf. induction d as [|[k0 v0] d IH]; simpl; intros Hnd; [constructor|].
  inversion Hnd as [|? ? Hnin Hnd']; subst.
  destruct (String.eqb k k0); simpl; [assumption|].
  constructor; [|now apply IH].
  intros H. apply Hnin. eapply keys_del_in. exact H.
Qed.

Lemma contains_get d k : contains k d = true <-> exists v, get k d = Some v.
Proof.
  unfold contains. destruct (get k d); split; intros H;
    try discriminate; eauto. now destruct H.
Qed.
End Facts.
End PyDictFacts.

Lemma str_in_In x xs : str_in x xs = true <-> In x xs.
Proof.
  unfold str_in. rewrite existsb_exists. split.
  - intros [y [Hin Heq]]. apply String.eqb_eq in Heq. now subst.
  - intros H. exists x. split; [assumption | apply String.eqb_refl].
Qed.

Lemma str_in_app x xs ys : str_in x (xs ++ ys) = str_in x xs || str_in x ys.
Proof. unfold str_in. apply existsb_app. Qed.

Lemma handler_in_In x xs : handler_in x xs = true <-> In x xs.
Proof.
  unfold handler_in. rewrite existsb_exists. split.
  - intros [y [Hin Heq]]. apply Nat.eqb_eq in Heq. now subst.
  - intros H. exists x. split; [assumption | apply Nat.eqb_refl].
Qed.

Lemma sends_app a b : sends (a ++ b) = sends a ++ sends b.
Proof.
  induction a as [|e a IH]; simpl; [reflexivity|].
  destruct e; simpl; now rewrite ?IH.
Qed.

Lemma opens_app a b : opens (a ++ b) = opens a ++ opens b.
Proof.
  induction a as [|e a IH]; simpl; [reflexivity|].
  destruct e; simpl; now rewrite ?IH.
Qed.

Lemma invocations_app a b : invocations (a ++ b) = invocations a ++ invocations b.
Proof.
  induction a as [|e a IH]; simpl; [reflexivity|].
  destruct e; simpl; now rewrite ?IH.
Qed.

Lemma sleeps_app a b : sleeps (a ++ b) = sleeps a ++ sleeps b.
Proof.
  induction a as [|e a IH]; simpl; [reflexivity|].
  destruct e; simpl; now rewrite ?IH.
Qed.

(** ** What the methods do *)

Lemma set_is_authenticated_same c : set_is_authenticated (is_authenticated c) c = c.
Proof. now destruct c. Qed.

Lemma set_subscribed_channels_same c :
  set_subscribed_channels (subscribed_channels c) c = c.
Proof. now destruct c. Qed.

Lemma set_handlers_same c : set_handlers (handlers c) c = c.
Proof. now destruct c. Qed.

Lemma extend_app h evs : extend h evs = h ++ evs.
Proof. destruct evs; simpl; [now rewrite app_nil_r | reflexivity]. Qed.


Lemma quiet_eq (m : M unit) h c :
  quiet m -> m h c = mkRes (Ret tt) c (res_events (m h c)).
Proof.
  intros Hq. destruct (Hq h c) as [Ho Hc].
  destruct (m h c) as [o c1 e1]. cbn in *. now subst.
Qed.

Lemma bind_eq {A B} (m : M A) (f : A -> M B) h c a c1 e1 :
  m h c = mkRes (Ret a) c1 e1 ->
  bind m f h c = prefix e1 (f a (extend h e1) c1).
Proof. intros H. unfold bind. now rewrite H. Qed.
Arguments bind_eq {A B m} f {h c a c1 e1} _.

Lemma res_out_prefix {A} evs (r : Res A) : res_out (prefix evs r) = res_out r.
Proof. now destruct r. Qed.

Lemma res_client_prefix {A} evs (r : Res A) : res_client (prefix evs r) = res_client r.
Proof. now destruct r. Qed.

Lemma res_events_prefix {A} evs (r : Res A) :
  res_events (prefix evs r) = evs ++ res_events r.
Proof. now destruct r. Qed.

Lemma quiet_bind (m : M unit) (k : M unit) :
  quiet m -> quiet k -> quiet (bind m (fun _ => k)).
Proof.
  intros Hm Hk h c.
  rewrite (bind_eq _ (quiet_eq h c Hm)).
  rewrite res_out_prefix, res_client_prefix. apply Hk.
Qed.

Lemma quiet_log lvl m : quiet (log lvl m).
Proof. intros h c. split; reflexivity. Qed.

Lemma quiet_for_each {X} (body : X -> M unit) (xs : list X) :
  (forall x, quiet (body x)) -> quiet (for_each xs body).
Proof.
  intros Hb. induction xs as [|x xs IH]; simpl.
  - intros h c. split; reflexivity.
  - apply quiet_bind; [apply Hb | exact IH].
Qed.

(** A reading of the trace that distributes over concatenation is, on a
    loop of quiet turns, the concatenation of the readings of the turns. *)
Lemma for_each_reading {X Y} (reading : list Event -> list Y)
    (body : X -> M unit) (f : X -> Client -> list Y) :
  (forall a b, reading (a ++ b) = reading a ++ reading b) ->
  (forall x, quiet (body x)) ->
  (forall x h c, reading (res_events (body x h c)) = f x c) ->
  forall xs h c,
    reading (res_events (for_each xs body h c)) = flat_map (fun x => f x c) xs.
Proof.
  intros Happ Hq Hf xs. induction xs as [|x xs IH]; intros h c; simpl.
  - specialize (Happ [] []). simpl in Happ.
    destruct (reading []); [reflexivity | ].
    exfalso. apply (f_equal (@length Y)) in Happ. rewrite length_app in Happ.
    simpl in Happ. lia.
  - rewrite (bind_eq _ (quiet_eq h c (Hq x))).
    rewrite res_events_prefix, Happ, Hf, IH. reflexivity.
Qed.

Ltac norm_prefix :=
  rewrite ?res_out_prefix, ?res_client_prefix, ?res_events_prefix; cbn [app].

Ltac step_m :=
  unfold bind, try_except, get, modify, log, emit, ret, raise, history;
  cbn [prefix extend app negb andb orb is_empty res_out res_client res_events].

Ltac proj_m :=
  cbn [api_key debug ws is_connected is_authenticated subscribed_channels
       handlers reconnect_interval max_reconnect_attempts reconnect_attempts
       running _ping_thread _ws_thread
       set_ws set_is_connected set_is_authenticated set_subscribed_channels
       set_handlers set_reconnect_attempts set_running set_ping_thread
       set_ws_thread].

Ltac go := repeat progress (step_m; proj_m).

Section Runs.
Variable env : Env.


(** [_send_message] never raises and never touches the client. *)
Lemma send_message_run msg h c :
  _send_message env msg h c = mkRes (Ret tt) c (send_events env msg h c).
Proof.
  unfold _send_message, send_events, call. step_m.
  destruct (ws c) as [app|]; step_m; [|reflexivity].
  destruct (is_connected c); step_m; [|reflexivity].
  unfold try_except, bind.
  destruct (ws_send env h app msg); reflexivity.
Qed.

Lemma quiet_send_message msg : quiet (_send_message env msg).
Proof. intros h c. rewrite send_message_run. split; reflexivity. Qed.


Lemma sends_send_events msg h c :
  sends (send_events env msg h c) = if can_send c then [msg] else [].
Proof.
  unfold send_events, can_send. destruct (ws c); [|reflexivity].
  destruct (is_connected c); [|reflexivity].
  destruct (ws_send env h _ msg); reflexivity.
Qed.

Lemma opens_send_events msg h c : opens (send_events env msg h c) = [].
Proof.
  unfold send_events. destruct (ws c); [|reflexivity].
  destruct (is_connected c); [|reflexivity].
  destruct (ws_send env h _ msg); reflexivity.
Qed.

Lemma invocations_send_events msg h c : invocations (send_events env msg h c) = [].
Proof.
  unfold send_events. destruct (ws c); [|reflexivity].
  destruct (is_connected c); [|reflexivity].
  destruct (ws_send env h _ msg); reflexivity.
Qed.

Lemma sleeps_send_events msg h c : sleeps (send_events env msg h c) = [].
Proof.
  unfold send_events. destruct (ws c); [|reflexivity].
  destruct (is_connected c); [|reflexivity].
  destruct (ws_send env h _ msg); reflexivity.
Qed.

(** *** Replay *)


Lemma quiet_resubscribe_channel item : quiet (resubscribe_channel env item).
Proof.
  unfold resubscribe_channel.
  destruct (negb (is_empty (snd item))).
  - apply quiet_bind; [apply quiet_send_message | apply quiet_log].
  - apply quiet_log.
Qed.

Lemma sends_resubscribe_channel item h c :
  sends (res_events (resubscribe_channel env item h c)) =
  if has_params item && can_send c then [subscribe_message item] else [].
Proof.
  unfold resubscribe_channel, has_params.
  destruct (negb (is_empty (snd item))); [|reflexivity].
  rewrite (bind_eq _ (send_message_run _ h c)). step_m.
  rewrite sends_app, sends_send_events. cbn.
  rewrite app_nil_r. reflexivity.
Qed.

Lemma quiet_resubscribe_channels : quiet (_resubscribe_channels env).
Proof.
  intros h c. unfold _resubscribe_channels. step_m.
  destruct (negb (is_connected c) || negb (truthy (is_authenticated c))); step_m.
  - split; reflexivity.
  - norm_prefix. apply quiet_for_each, quiet_resubscribe_channel.
Qed.

Lemma sends_resubscribe_channels h c :
  sends (res_events (_resubscribe_channels env h c)) =
  if is_connected c && truthy (is_authenticated c) && can_send c
  then map subscribe_message (filter has_params (PyDict.items (subscribed_channels c)))
  else [].
Proof.
  unfold _resubscribe_channels. step_m.
  destruct (is_connected c) eqn:Hconn; step_m; [|reflexivity].
  destruct (truthy (is_authenticated c)); step_m; [|reflexivity].
  norm_prefix. cbn [sends].
  rewrite (for_each_reading sends (resubscribe_channel env)
             (fun item c => if has_params item && can_send c
                            then [subscribe_message item] else [])
             sends_app quiet_resubscribe_channel sends_resubscribe_channel).
  destruct (can_send c).
  - induction (PyDict.items (subscribed_channels c)) as [|item l IH]; simpl;
      [reflexivity|].
    rewrite andb_true_r. destruct (has_params item); simpl; now rewrite IH.
  - induction (PyDict.items (subscribed_channels c)) as [|item l IH]; simpl;
      [reflexivity|].
    rewrite andb_false_r. simpl. exact IH.
Qed.
End Runs.

Lemma flat_map_nil {X Y} (xs : list X) : flat_map (fun _ => @nil Y) xs = [].
Proof. induction xs; simpl; auto. Qed.

(** *** subscribe *)


Lemma fresh_params_registered params cur :
  (forall p, In p params -> In p cur) -> fresh_params params cur = [].
Proof.
  induction params as [|p ps IH]; simpl; intros Hall; [reflexivity|].
  assert (Hp : str_in p cur = true) by (apply str_in_In; auto).
  rewrite Hp. apply IH. auto.
Qed.

Lemma fresh_params_covers params : forall cur p,
  In p params -> In p (cur ++ fresh_params params cur).
Proof.
  induction params as [|q qs IH]; simpl; intros cur p Hin; [tauto|].
  destruct (str_in q cur) eqn:Hq.
  - destruct Hin as [->|Hin]; [|now apply IH].
    apply in_or_app. left. now apply str_in_In.
  - replace (cur ++ q :: fresh_params qs (cur ++ [q]))
      with ((cur ++ [q]) ++ fresh_params qs (cur ++ [q]))
      by (now rewrite <- app_assoc).
    destruct Hin as [->|Hin]; [|now apply IH].
    apply in_or_app. left. apply in_or_app. right. now left.
Qed.

Lemma fresh_params_new params : forall cur p,
  In p (fresh_params params cur) -> In p params /\ ~ In p cur.
Proof.
  induction params as [|q qs IH]; simpl; intros cur p Hin; [tauto|].
  destruct (str_in q cur) eqn:Hq.
  - apply IH in Hin. tauto.
  - destruct Hin as [->|Hin].
    + split; [now left|]. intros H. apply str_in_In in H. congruence.
    + apply IH in Hin. destruct Hin as [H1 H2]. split; [now right|].
      intros H. apply H2. apply in_or_app. now left.
Qed.

Lemma fresh_params_nodup params : forall cur,
  NoDup cur -> NoDup (cur ++ fresh_params params cur).
Proof.
  induction params as [|q qs IH]; simpl; intros cur Hnd.
  - now rewrite app_nil_r.
  - destruct (str_in q cur) eqn:Hq; [now apply IH|].
    replace (cur ++ q :: fresh_params qs (cur ++ [q]))
      with ((cur ++ [q]) ++ fresh_params qs (cur ++ [q]))
      by (now rewrite <- app_assoc).
    apply IH. apply NoDup_app; [assumption | repeat constructor; simpl; tauto |].
    intros x Hx [<-|[]]. apply str_in_In in Hx. congruence.
Qed.

Section Subscribe.
Variable env : Env.

Lemma register_loop_run channel params : forall new cur h c,
  PyDict.get channel (subscribed_channels c) = Some cur ->
  for_fold params new (register_param channel) h c =
  mkRes (Ret (new ++ fresh_params params cur))
    (set_subscribed_channels
       (PyDict.set channel (cur ++ fresh_params params cur)
          (subscribed_channels c)) c)
    [].
Proof.
  induction params as [|p ps IH]; intros new cur h c Hget; simpl.
  - rewrite !app_nil_r, (PyDictFacts.set_get_same _ _ Hget).
    now rewrite set_subscribed_channels_same.
  - unfold register_param at 1, subscribed_item.
    repeat progress (step_m; rewrite ?Hget).
    destruct (str_in p cur); repeat progress (step_m; rewrite ?Hget).
    + rewrite (IH new cur h c Hget). reflexivity.
    + rewrite (IH (new ++ [p]) (cur ++ [p]) h _)
        by (cbn; apply PyDictFacts.get_set_same).
      cbn. rewrite PyDictFacts.set_set, <- !app_assoc. reflexivity.
Qed.


Lemma subscribe_run channel params handler h c :
  channel <> ""%string -> params <> [] ->
  subscribe env channel params handler h c =
  mkRes (Ret tt)
    (set_subscribed_channels
       (subscribed_after_subscribe channel params (subscribed_channels c))
       (set_handlers (handlers_after_subscribe channel handler (handlers c)) c))
    (subscribe_events env channel params handler h c).
Proof.
  intros Hch Hps.
  unfold subscribe, subscribe_events, handlers_after_subscribe,
    subscribed_after_subscribe, get_list, handlers_item, PyDict.contains.
  apply String.eqb_neq in Hch. rewrite Hch.
  destruct params as [|p0 ps0]; [congruence|]. cbn [is_empty orb].
  set (params := p0 :: ps0).
  destruct c as [k d w conn auth subs hs ri mx n r pt wt].
  cbn [handlers subscribed_channels is_connected is_authenticated].
  step_m. cbn [handlers subscribed_channels is_connected is_authenticated].
  assert (Hfin : forall h' c1,
    is_connected c1 = conn -> is_authenticated c1 = auth ->
    forall cur,
      (if negb (is_empty (fresh_params params cur))
        then
          conn' <- get is_connected ;;
          auth' <- get is_authenticated ;;
          if conn' && truthy auth' then
            _send_message env
              (WSubscribe (map (arg_of channel) (fresh_params params cur))) ;;
            log INFO (Subscribed channel (fresh_params params cur))
          else log WARNING (NotReadyToSubscribe channel (fresh_params params cur))
        else log INFO (AlreadySubscribed channel params)) h' c1 =
    mkRes (Ret tt) c1
       (if is_empty (fresh_params params cur)
        then [EvLog INFO (AlreadySubscribed channel params)]
        else if conn && truthy auth then
          send_events env
            (WSubscribe (map (arg_of channel) (fresh_params params cur)))
            h' c1
          ++ [EvLog INFO (Subscribed channel (fresh_params params cur))]
        else [EvLog WARNING
                (NotReadyToSubscribe channel (fresh_params params cur))])).
  { intros h' c1 Hc Ha cur.
    destruct (fresh_params params cur) as [|f fs]; go; [reflexivity|].
    rewrite Hc, Ha. destruct (conn && truthy auth); go; [|reflexivity].
    rewrite send_message_run. reflexivity. }
  destruct (PyDict.get channel hs) as [l|] eqn:Hh;
    repeat progress (go; cbn [handler_in existsb];
                     rewrite ?Hh, ?PyDictFacts.get_set_same);
    [destruct (handler_in handler l) eqn:Hin;
      repeat progress (go; rewrite ?Hh, ?PyDictFacts.get_set_same)|];
    (destruct (PyDict.get channel subs) as [cur|] eqn:Hs;
       repeat progress (go; rewrite ?Hs, ?PyDictFacts.get_set_same);
     [erewrite register_loop_run by (cbn; exact Hs)
     |erewrite register_loop_run by (cbn; apply PyDictFacts.get_set_same)];
     go; rewrite ?PyDictFacts.set_set;
     rewrite Hfin by reflexivity; reflexivity).
Qed.
End Subscribe.

(** *** unsubscribe *)

Lemma str_remove_filter x xs :
  NoDup xs -> str_remove x xs = filter (fun y => negb (String.eqb x y)) xs.
Proof.
  induction xs as [|y ys IH]; simpl; intros Hnd; [reflexivity|].
  inversion Hnd as [|? ? Hnin Hnd']; subst.
  destruct (String.eqb x y) eqn:E; simpl.
  - apply String.eqb_eq in E; subst y.
    symmetry. apply forallb_filter_id. apply forallb_forall.
    intros z Hz. apply negb_true_iff, String.eqb_neq. congruence.
  - now rewrite IH.
Qed.

Lemma str_remove_nodup x xs : NoDup xs -> NoDup (str_remove x xs).
Proof.
  intros Hnd. rewrite str_remove_filter by assumption. now apply NoDup_filter.
Qed.

Lemma str_remove_subset x xs y : In y (str_remove x xs) -> In y xs.
Proof.
  induction xs as [|z zs IH]; simpl; [tauto|].
  destruct (String.eqb x z); simpl; intuition.
Qed.

Lemma unsubscribe_loop_remaining params : forall acc remaining,
  NoDup remaining ->
  snd (unsubscribe_loop params acc remaining) =
  filter (fun p => negb (str_in p params)) remaining.
Proof.
  induction params as [|p ps IH]; intros acc remaining Hnd; simpl.
  - symmetry. apply forallb_filter_id. apply forallb_forall. reflexivity.
  - destruct (str_in p remaining) eqn:Hin.
    + rewrite IH by now apply str_remove_nodup.
      rewrite str_remove_filter by assumption.
      clear. induction remaining as [|y ys IHr]; simpl; [reflexivity|].
      rewrite (String.eqb_sym y p).
      destruct (String.eqb p y); simpl; [exact IHr|].
      destruct (str_in y ps); simpl; now rewrite IHr.
    + rewrite IH by assumption.
      apply filter_ext_in. intros y Hy.
      destruct (String.eqb y p) eqn:E; [|reflexivity].
      apply String.eqb_eq in E; subst y.
      apply str_in_In in Hy. congruence.
Qed.

Lemma unsubscribe_loop_selected params : forall acc remaining p,
  In p (fst (unsubscribe_loop params acc remaining)) <->
  In p acc \/ (In p params /\ In p remaining).
Proof.
  induction params as [|q qs IH]; intros acc remaining p; simpl.
  - tauto.
  - destruct (str_in q remaining) eqn:Hin.
    + rewrite IH, in_app_iff. simpl.
      apply str_in_In in Hin. split.
      * intros [[H|[<-|[]]]|[H1 H2]]; auto.
        right. split; [now right | eapply str_remove_subset; eauto].
      * intros [H|[[<-|H1] H2]]; auto.
        destruct (String.eqb q p) eqn:E.
        -- apply String.eqb_eq in E. subst. auto.
        -- right. split; [assumption|].
           clear - H2 E. induction remaining as [|y ys IHr]; simpl in *; [tauto|].
           destruct (String.eqb q y) eqn:E'.
           ++ destruct H2 as [<-|H2]; [congruence | assumption].
           ++ destruct H2 as [<-|H2]; [now left | right; auto].
    + rewrite IH. split.
      * intros [H|[H1 H2]]; auto.
      * intros [H|[[<-|H1] H2]]; auto.
        apply str_in_In in H2. congruence.
Qed.

Lemma handler_remove_other h hs h' :
  h' <> h -> (In h' (handler_remove h hs) <-> In h' hs).
Proof.
  intros Hne. induction hs as [|y ys IH]; simpl; [tauto|].
  destruct (Nat.eqb h y) eqn:E; simpl.
  - apply Nat.eqb_eq in E. subst y. intuition congruence.
  - rewrite IH. tauto.
Qed.

Lemma handler_remove_gone h hs : NoDup hs -> ~ In h (handler_remove h hs).
Proof.
  induction hs as [|y ys IH]; simpl; intros Hnd; [tauto|].
  inversion Hnd as [|? ? Hnin Hnd']; subst.
  destruct (Nat.eqb h y) eqn:E; simpl.
  - apply Nat.eqb_eq in E. now subst y.
  - apply Nat.eqb_neq in E. intros [H|H]; [congruence | now apply IH].
Qed.

Section Unsubscribe.
Variable env : Env.


(** The early return of [unsubscribe]: nothing of [params] is
    registered for the channel. *)
Lemma unsubscribe_nothing channel params handler h c :
  PyDict.contains channel (subscribed_channels c) = true ->
  params_to_unsubscribe params (get_list channel (subscribed_channels c)) = [] ->
  unsubscribe env channel params handler h c =
  mkRes (Ret tt) c [EvLog WARNING (NotSubscribedWithParams channel params)].
Proof.
  intros Hc Hnone. unfold unsubscribe. go. rewrite Hc. go.
  unfold params_to_unsubscribe, get_list in Hnone. rewrite Hnone. go.
  reflexivity.
Qed.

Lemma unsubscribe_client channel params handler h c :
  PyDict.contains channel (subscribed_channels c) = true ->
  params_to_unsubscribe params (get_list channel (subscribed_channels c)) <> [] ->
  let r := unsubscribe env channel params handler h c in
  res_out r = Ret tt /\
  res_client r =
    set_handlers
      (handlers_after_unsubscribe channel params handler
         (subscribed_channels c) (handlers c))
      (set_subscribed_channels
         (subscribed_after_unsubscribe channel params (subscribed_channels c)) c) /\
  opens (res_events r) = [] /\
  sleeps (res_events r) = [] /\
  sends (res_events r) =
    (if is_connected c && truthy (is_authenticated c) && can_send c
     then [WUnsubscribe
             (map (arg_of channel)
                (params_to_unsubscribe params
                   (get_list channel (subscribed_channels c))))]
     else []).
Proof.
  intros Hc Hsome. unfold unsubscribe. go. rewrite Hc. go.
  unfold handlers_after_unsubscribe, subscribed_after_unsubscribe,
    remaining_params, params_to_unsubscribe, get_list, handlers_item,
    PyDict.contains in *.
  destruct c as [k d w conn auth subs hs ri mx n r pt wt]. proj_m. cbn in Hc, Hsome.
  set (sel := fst (unsubscribe_loop params []
                     match PyDict.get channel subs with
                     | Some l => l | None => [] end)) in *.
  set (rem := snd (unsubscribe_loop params []
                     match PyDict.get channel subs with
                     | Some l => l | None => [] end)) in *.
  destruct sel as [|s0 sel']; [congruence|]. go.
  destruct (is_empty rem) eqn:Hrem; go;
    (destruct (conn && truthy auth) eqn:Hca; go;
     rewrite ?send_message_run; go);
    (destruct (PyDict.get channel hs) as [l|] eqn:Hh; go; rewrite ?Hh; go);
    try (destruct handler as [hd|]; go; rewrite ?Hh; go;
         try (destruct (handler_in hd l); go));
    rewrite ?Hrem; go;
    cbn [opens sleeps sends app];
    rewrite ?opens_app, ?sleeps_app, ?sends_app, ?opens_send_events,
      ?sleeps_send_events, ?sends_send_events;
    unfold can_send; proj_m;
    repeat split; try reflexivity;
    try (destruct w; destruct conn; reflexivity).
Qed.
End Unsubscribe.

(** *** What every method leaves alone *)


Lemma no_auth_app a b : no_auth a -> no_auth b -> no_auth (a ++ b).
Proof.
  unfold no_auth. intros Ha Hb. rewrite sends_app, forallb_app. now rewrite Ha, Hb.
Qed.

Lemma no_auth_subscribes evs :
  forallb is_subscribe (sends evs) = true -> no_auth evs.
Proof.
  unfold no_auth. induction (sends evs) as [|m ms IH]; simpl; [reflexivity|].
  intros H. apply andb_true_iff in H. destruct H as [H1 H2].
  rewrite IH by assumption. destruct m; try discriminate. reflexivity.
Qed.

(** Case analysis on whatever test the computation is stuck on. *)
Ltac break :=
  repeat (go;
          match goal with
          | |- context [if ?b then _ else _] => destruct b eqn:?
          | |- context [match ?x with Some _ => _ | None => _ end] =>
              destruct x eqn:?
          end);
  go.

Lemma closes_app a b : closes (a ++ b) = closes a ++ closes b.
Proof.
  induction a as [|e a IH]; simpl; [reflexivity|].
  destruct e; simpl; now rewrite ?IH.
Qed.

Section Frames.
Variable env : Env.

Lemma no_auth_send_events msg h c :
  is_auth msg = false -> no_auth (send_events env msg h c).
Proof.
  intros Hm. unfold no_auth. rewrite sends_send_events.
  destruct (can_send c); simpl; [now rewrite Hm | reflexivity].
Qed.

Lemma start_ws_thread_facts h c :
  let r := _start_ws_thread env h c in
  res_out r = Ret tt /\
  keeps_policy c (res_client r) /\ keeps_registries c (res_client r) /\
  reconnect_attempts (res_client r) = reconnect_attempts c /\
  running (res_client r) = running c /\
  no_auth (res_events r) /\ sleeps (res_events r) = [] /\
  (_ws_thread c = None ->
   opens (res_events r) = [length (h ++ [EvLog INFO (ConnectingTo WS_URL)])] /\
   ws (res_client r) = Some (length (h ++ [EvLog INFO (ConnectingTo WS_URL)]))).
Proof.
  unfold _start_ws_thread, thread_is_alive, keeps_policy, keeps_registries, no_auth.
  break; repeat split; try reflexivity; try discriminate.
Qed.

Lemma connect_facts h c :
  let r := connect env h c in
  keeps_policy c (res_client r) /\ keeps_registries c (res_client r) /\
  reconnect_attempts (res_client r) = reconnect_attempts c /\
  no_auth (res_events r) /\ sleeps (res_events r) = [].
Proof.
  unfold connect. go. destruct (running c); go.
  - unfold keeps_policy, keeps_registries, no_auth. repeat split; reflexivity.
  - match goal with
    | |- context [_start_ws_thread env ?h' ?c'] =>
        destruct (start_ws_thread_facts h' c') as (Ho & Hp & Hr & Ha & Hu & Hn & Hs & _);
        destruct (_start_ws_thread env h' c') as [o c1 e1]
    end.
    cbn in *. subst o. go. auto.
Qed.

(** [disconnect] up to the return of [join]: it only clears [running]; it
    ends in the [RuntimeError] of [join] exactly when it runs on the
    thread it is about to join. *)
Lemma disconnect_until_join_facts h c :
  let r := disconnect_until_join env h c in
  res_client r = set_running false c /\
  sends (res_events r) = [] /\ opens (res_events r) = [] /\
  sleeps (res_events r) = [] /\
  closes (res_events r) =
    match ws c with Some transport => [transport] | None => [] end /\
  (_ws_thread c = Some (current_thread env) ->
   res_out r = Exc (RuntimeError "cannot join current thread")) /\
  (_ws_thread c <> Some (current_thread env) ->
   res_out r = Ret None \/
   exists th, res_out r = Ret (Some th) /\ _ws_thread c = Some th).
Proof.
  unfold disconnect_until_join, thread_is_alive, thread_join, call.
  go. destruct (ws c) as [transport|]; go.
  - unfold try_except. destruct (ws_close env _ transport); go;
      (destruct (_ws_thread c) as [th|] eqn:Hth; go;
       [destruct (Nat.eqb th (current_thread env)) eqn:E; go;
        [apply Nat.eqb_eq in E; subst th;
         repeat split; try reflexivity; intros H; congruence
        |apply Nat.eqb_neq in E;
         destruct (is_alive env _ th); go;
         repeat split; try reflexivity;
         try (intros [= H]; congruence); intros _; eauto]
       |repeat split; try reflexivity; try discriminate; auto]).
  - destruct (_ws_thread c) as [th|] eqn:Hth; go;
      [destruct (Nat.eqb th (current_thread env)) eqn:E; go;
       [apply Nat.eqb_eq in E; subst th;
        repeat split; try reflexivity; intros H; congruence
       |apply Nat.eqb_neq in E;
        destruct (is_alive env _ th); go;
        repeat split; try reflexivity;
        try (intros [= H]; congruence); intros _; eauto]
      |repeat split; try reflexivity; try discriminate; auto].
Qed.

Lemma disconnect_after_join_facts joined h c :
  let r := disconnect_after_join env joined h c in
  res_out r = Ret tt /\
  res_client r = reset_after_join c /\
  sends (res_events r) = [] /\ opens (res_events r) = [] /\
  sleeps (res_events r) = [] /\ closes (res_events r) = [].
Proof.
  unfold disconnect_after_join, thread_is_alive, reset_after_join.
  destruct joined as [th|]; go.
  - destruct (Nat.eqb th (current_thread env) || is_alive env h th); go;
      repeat split; reflexivity.
  - repeat split; reflexivity.
Qed.

Lemma disconnect_stopped h c :
  running c = false ->
  disconnect env h c = mkRes (Ret tt) c [EvLog WARNING ClientNotRunning].
Proof. intros Hr. unfold disconnect, disconnect_body. go. rewrite Hr. go. reflexivity. Qed.

(** [disconnect] run by a thread other than the recorded transport
    thread: it returns and resets the client. *)
Lemma disconnect_running h c :
  running c = true ->
  _ws_thread c <> Some (current_thread env) ->
  let r := disconnect env h c in
  res_out r = Ret tt /\
  res_client r = disconnected c /\
  closes (res_events r) = match ws c with Some transport => [transport] | None => [] end /\
  sends (res_events r) = [] /\
  opens (res_events r) = [] /\
  sleeps (res_events r) = [].
Proof.
  intros Hr Hth. unfold disconnect, disconnect_body. go. rewrite Hr. go.
  destruct (disconnect_until_join_facts h c) as (Hc & Hs & Ho & Hsl & Hcl & _ & Hout).
  specialize (Hout Hth).
  destruct (disconnect_until_join env h c) as [o c1 e1].
  cbn [res_out res_client res_events] in *. subst c1.
  assert (Hj : exists joined, o = Ret joined)
    by (destruct Hout as [->|(th & -> & _)]; eauto).
  destruct Hj as [joined ->]. go.
  assert (Hm : (match joined with Some _ => fun (_ : History) c0 => mkRes (Ret tt) c0 []
                | None => fun _ c0 => mkRes (Ret tt) c0 [] end)
               (h ++ e1) (set_running false c) =
               mkRes (Ret tt) (set_running false c) [])
    by (destruct joined; reflexivity).
  unfold extend. destruct e1 as [|e0 e1'].
  - simpl in Hcl. destruct joined; go;
      match goal with
      | |- context [disconnect_after_join env ?j ?h' ?c'] =>
          destruct (disconnect_after_join_facts j h' c') as (Ho2 & Hc2 & Hs2 & Hop2 & Hsl2 & Hcl2);
          destruct (disconnect_after_join env j h' c') as [o2 c2 e2]
      end; cbn [res_out res_client res_events prefix app] in *; subst;
      rewrite <- Hcl; auto 10.
  - destruct joined; go;
      match goal with
      | |- context [disconnect_after_join env ?j ?h' ?c'] =>
          destruct (disconnect_after_join_facts j h' c') as (Ho2 & Hc2 & Hs2 & Hop2 & Hsl2 & Hcl2);
          destruct (disconnect_after_join env j h' c') as [o2 c2 e2]
      end; cbn [res_out res_client res_events prefix] in *; subst;
      rewrite ?app_comm_cons, ?closes_app, ?sends_app, ?opens_app, ?sleeps_app,
        ?Hcl, ?Hs, ?Ho, ?Hsl, ?Hs2, ?Hop2, ?Hsl2, ?Hcl2, ?app_nil_r; auto 10.
Qed.

Lemma on_open_facts w h c :
  let r := _on_open env w h c in
  keeps_policy c (res_client r) /\ keeps_registries c (res_client r) /\
  reconnect_attempts (res_client r) = 0 /\
  running (res_client r) = running c /\
  opens (res_events r) = [] /\ sleeps (res_events r) = [].
Proof.
  unfold _on_open. go. rewrite send_message_run. go.
  cbn [opens sleeps]. rewrite opens_app, sleeps_app, opens_send_events, sleeps_send_events.
  unfold keeps_policy, keeps_registries. repeat split; reflexivity.
Qed.

Lemma on_error_facts w e h c :
  let r := _on_error w e h c in
  keeps_policy c (res_client r) /\ keeps_registries c (res_client r) /\
  reconnect_attempts (res_client r) = reconnect_attempts c /\
  running (res_client r) = running c /\
  opens (res_events r) = [] /\ no_auth (res_events r) /\
  sleeps (res_events r) = [].
Proof.
  unfold _on_error, keeps_policy, keeps_registries, no_auth. go.
  repeat split; reflexivity.
Qed.

(** [_on_close] up to the sleep, when the close is unexpected and the
    budget is not used up: the counter goes up by one and the thread
    sleeps for [reconnect_interval * 2 ^ (attempt - 1)]. *)
Lemma on_close_retry w code msg h c :
  running c = true ->
  reconnect_attempts c < max_reconnect_attempts c ->
  _on_close_until_sleep w code msg h c =
  let n' := reconnect_attempts c + 1 in
  let wait := reconnect_interval c * 2 ^ (n' - 1) in
  mkRes (Ret (Some wait))
    (set_reconnect_attempts n'
       (set_is_authenticated (JBool false) (set_is_connected false c)))
    [EvLog INFO (ConnectionClosed code msg);
     EvLog WARNING ClosedUnexpectedly;
     EvLog INFO (AttemptingReconnect n' (max_reconnect_attempts c) wait);
     EvSleep wait].
Proof.
  intros Hr Hlt. unfold _on_close_until_sleep, on_close_body,
    _attempt_reconnect_until_sleep.
  apply Z.ltb_lt in Hlt. repeat progress (go; rewrite ?Hr, ?Hlt). reflexivity.
Qed.

(** ... when the budget is used up: the client stops running. *)
Lemma on_close_give_up w code msg h c :
  running c = true ->
  max_reconnect_attempts c <= reconnect_attempts c ->
  _on_close_until_sleep w code msg h c =
  mkRes (Ret None)
    (set_running false
       (set_is_authenticated (JBool false) (set_is_connected false c)))
    [EvLog INFO (ConnectionClosed code msg);
     EvLog WARNING ClosedUnexpectedly;
     EvLog ERROR MaxReconnectAttemptsReached].
Proof.
  intros Hr Hge. unfold _on_close_until_sleep, on_close_body,
    _attempt_reconnect_until_sleep.
  apply Z.ltb_ge in Hge. repeat progress (go; rewrite ?Hr, ?Hge). reflexivity.
Qed.

(** ... and when the close was asked for. *)
Lemma on_close_intended w code msg h c :
  running c = false ->
  _on_close_until_sleep w code msg h c =
  mkRes (Ret None)
    (set_is_authenticated (JBool false) (set_is_connected false c))
    [EvLog INFO (ConnectionClosed code msg);
     EvLog INFO ClosedIntentionally].
Proof.
  intros Hr. unfold _on_close_until_sleep, on_close_body.
  repeat progress (go; rewrite ?Hr). reflexivity.
Qed.

Lemma on_close_facts w code msg h c :
  let r := _on_close_until_sleep w code msg h c in
  keeps_policy c (res_client r) /\ keeps_registries c (res_client r) /\
  (within_budget c -> within_budget (res_client r)) /\
  opens (res_events r) = [] /\ no_auth (res_events r) /\
  (running c = false -> running (res_client r) = false /\ res_out r = Ret None).
Proof.
  unfold keeps_policy, keeps_registries, within_budget, no_auth.
  destruct (running c) eqn:Hr.
  - destruct (Z.lt_ge_cases (reconnect_attempts c) (max_reconnect_attempts c))
      as [Hlt|Hge].
    + rewrite on_close_retry by assumption. cbn.
      repeat split; intros; try reflexivity; try lia; congruence.
    + rewrite on_close_give_up by assumption. cbn.
      repeat split; intros; try reflexivity; try lia; congruence.
  - rewrite on_close_intended by assumption. cbn.
    repeat split; intros; try reflexivity; try lia; assumption.
Qed.

Lemma after_sleep_facts h c :
  let r := _attempt_reconnect_after_sleep env h c in
  res_out r = Ret tt /\
  keeps_policy c (res_client r) /\ keeps_registries c (res_client r) /\
  reconnect_attempts (res_client r) = reconnect_attempts c /\
  running (res_client r) = running c /\
  no_auth (res_events r) /\ sleeps (res_events r) = [].
Proof.
  unfold _attempt_reconnect_after_sleep, call. go.
  destruct (ws c) as [app|]; go.
  - unfold try_except.
    destruct (ws_close env h app); go;
      match goal with
      | |- context [_start_ws_thread env ?h' ?c'] =>
          destruct (start_ws_thread_facts h' c') as (Ho & Hp & Hr & Ha & Hu & Hn & Hs & _);
          destruct (_start_ws_thread env h' c') as [o c1 e1]
      end; cbn in *; subst o; unfold no_auth in *; cbn in *; auto 10.
  - match goal with
    | |- context [_start_ws_thread env ?h' ?c'] =>
        destruct (start_ws_thread_facts h' c') as (Ho & Hp & Hr & Ha & Hu & Hn & Hs & _);
        destruct (_start_ws_thread env h' c') as [o c1 e1]
    end; cbn in *; subst o; unfold no_auth in *; cbn in *; auto 10.
Qed.

(** The actions of one turn of the heartbeat loop whose test passed:
    whether [ws.send] raised or not, the body ends in the sleep. *)
Lemma send_ping_body_run h c :
  _send_ping_body env h c =
  mkRes (Ret true) c
    (send_events env WPing h c ++
     [EvLog DEBUG SentPing; EvSleep PING_INTERVAL]).
Proof.
  unfold _send_ping_body. unfold try_except.
  rewrite (bind_eq _ (send_message_run env WPing h c)). go. reflexivity.
Qed.

Lemma send_ping_facts fuel : forall h c,
  let r := _send_ping env fuel h c in
  res_out r = Ret tt /\ res_client r = c /\
  opens (res_events r) = [] /\ no_auth (res_events r) /\
  (running c = false -> res_events r = []).
Proof.
  induction fuel as [|fuel IH]; intros h c; cbn [_send_ping].
  - go. repeat split; reflexivity.
  - go. destruct (running c) eqn:Hr; destruct (is_connected c) eqn:Hc; go;
      try (repeat split; try reflexivity; discriminate).
    rewrite send_ping_body_run. go.
    match goal with
    | |- context [_send_ping env fuel ?h' c] =>
        destruct (IH h' c) as (Ho & Hcl & Hop & Hna & _);
        destruct (_send_ping env fuel h' c) as [o c1 e1]
    end.
    cbn in *. subst. repeat split; try discriminate.
    + rewrite !opens_app, opens_send_events, Hop. reflexivity.
    + rewrite <- app_assoc. apply no_auth_app;
        [now apply no_auth_send_events | exact Hna].
Qed.

Lemma subscribe_facts channel params handler h c :
  let r := subscribe env channel params handler h c in
  res_out r = Ret tt /\
  keeps_policy c (res_client r) /\
  reconnect_attempts (res_client r) = reconnect_attempts c /\
  running (res_client r) = running c /\
  opens (res_events r) = [] /\ no_auth (res_events r).
Proof.
  unfold keeps_policy.
  destruct (String.eqb channel "") eqn:Hch.
  { unfold subscribe. rewrite Hch. go. repeat split; reflexivity. }
  destruct params as [|p ps].
  { unfold subscribe. rewrite Hch. go. repeat split; reflexivity. }
  apply String.eqb_neq in Hch.
  rewrite subscribe_run by (assumption || discriminate).
  cbn [res_out res_client res_events]. unfold subscribe_events.
  repeat split; try reflexivity.
  - rewrite opens_app.
    destruct (handler_in handler (get_list channel (handlers c))); cbn [opens app];
      destruct (is_empty _); try reflexivity;
      destruct (is_connected c && truthy (is_authenticated c)); try reflexivity;
      rewrite opens_app, opens_send_events; reflexivity.
  - apply no_auth_app.
    + destruct (handler_in handler (get_list channel (handlers c))); reflexivity.
    + destruct (is_empty _); [reflexivity|].
      destruct (is_connected c && truthy (is_authenticated c)); [|reflexivity].
      apply no_auth_app; [now apply no_auth_send_events | reflexivity].
Qed.

Lemma unsubscribe_facts channel params handler h c :
  let r := unsubscribe env channel params handler h c in
  res_out r = Ret tt /\
  keeps_policy c (res_client r) /\
  reconnect_attempts (res_client r) = reconnect_attempts c /\
  running (res_client r) = running c /\
  opens (res_events r) = [] /\ no_auth (res_events r).
Proof.
  unfold keeps_policy.
  destruct (PyDict.contains channel (subscribed_channels c)) eqn:Hc.
  2: { unfold unsubscribe. go. rewrite Hc. go. repeat split; reflexivity. }
  destruct (params_to_unsubscribe params
              (get_list channel (subscribed_channels c))) eqn:Hsel.
  { rewrite unsubscribe_nothing by assumption. repeat split; reflexivity. }
  destruct (unsubscribe_client env channel params handler h c Hc)
    as (Ho & Hcl & Hop & Hsl & Hse); [congruence|].
  rewrite Ho, Hcl, Hop. unfold no_auth. rewrite Hse.
  repeat split; try reflexivity.
  destruct (is_connected c && truthy (is_authenticated c) && can_send c);
    reflexivity.
Qed.
End Frames.


Section Threads.
Variable env : Env.

Lemma start_ws_thread_run h c :
  _start_ws_thread env h c =
  if thread_alive env h c
  then mkRes (Ret tt) c [EvLog WARNING ThreadAlreadyRunning]
  else mkRes (Ret tt) (started h c) (start_events h).
Proof.
  unfold _start_ws_thread, thread_is_alive, thread_alive, started, start_events.
  go. destruct (_ws_thread c) as [th|]; go.
  - destruct (Nat.eqb th (current_thread env) || is_alive env h th); go; reflexivity.
  - reflexivity.
Qed.

Lemma connect_run h c :
  connect env h c =
  if running c then mkRes (Ret tt) c [EvLog WARNING AlreadyRunning]
  else if thread_alive env h c
  then mkRes (Ret tt) (set_running true c) [EvLog WARNING ThreadAlreadyRunning]
  else mkRes (Ret tt) (started h (set_running true c)) (start_events h).
Proof.
  unfold connect. go. destruct (running c); go; [reflexivity|].
  rewrite start_ws_thread_run.
  change (thread_alive env h (set_running true c)) with (thread_alive env h c).
  destruct (thread_alive env h c); reflexivity.
Qed.

Lemma connect_unconnected h c :
  let r := connect env h c in
  res_out r = Ret tt /\
  sends (res_events r) = [] /\ is_connected (res_client r) = is_connected c.
Proof.
  cbv zeta. rewrite connect_run.
  destruct (running c); [|destruct (thread_alive env h c)]; cbn; auto.
Qed.

Lemma tame_ret : tame (ret tt).
Proof. intros h c. cbn. repeat split; reflexivity. Qed.

Lemma tame_after_sleep : tame (_attempt_reconnect_after_sleep env).
Proof.
  intros h c. unfold _attempt_reconnect_after_sleep, call. go.
  destruct (ws c) as [transport|]; go.
  - unfold try_except. destruct (ws_close env h transport); go;
      rewrite start_ws_thread_run;
      match goal with |- context [thread_alive ?e ?h' ?c'] =>
        destruct (thread_alive e h' c') end;
      cbn; repeat split; reflexivity.
  - rewrite start_ws_thread_run.
    destruct (thread_alive env h c); cbn; repeat split; reflexivity.
Qed.

Lemma until_join_cases h c :
  let r := disconnect_until_join env h c in
  (exists joined, res_out r = Ret joined) \/
  res_out r = Exc (RuntimeError "cannot join current thread").
Proof.
  destruct (disconnect_until_join_facts env h c) as (_ & _ & _ & _ & _ & Hcur & Hother).
  destruct (_ws_thread c) as [th|] eqn:Hth.
  - destruct (Nat.eqb th (current_thread env)) eqn:E.
    + apply Nat.eqb_eq in E. subst th. right. now apply Hcur.
    + apply Nat.eqb_neq in E. left.
      destruct Hother as [H|(th' & H & _)]; [congruence | eauto | eauto].
  - left. destruct Hother as [H|(th' & H & _)]; [discriminate | eauto | eauto].
Qed.
End Threads.

(** [disconnect] with a tame interlude inside the [join]: whatever thread
    it runs on, it leaves the client not running, sends nothing and does
    not sleep, and the only exception it can end in is the [RuntimeError]
    of a [join] on the running thread. *)
Lemma disconnect_body_facts e1 e3 meanwhile h c :
  (forall th, tame (meanwhile th)) ->
  let r := disconnect_body (disconnect_until_join e1) meanwhile
             (disconnect_after_join e3) h c in
  keeps_policy c (res_client r) /\ keeps_registries c (res_client r) /\
  reconnect_attempts (res_client r) = reconnect_attempts c /\
  running (res_client r) = false /\
  no_auth (res_events r) /\ sleeps (res_events r) = [] /\
  sends (res_events r) = [] /\
  (is_connected c = false -> is_connected (res_client r) = false) /\
  (res_out r = Ret tt \/
   res_out r = Exc (RuntimeError "cannot join current thread")) /\
  ((forall th h' c', opens (res_events (meanwhile th h' c')) = []) ->
   opens (res_events r) = []).
Proof.
  intros Htame. unfold disconnect_body. go.
  destruct (running c) eqn:Hr; go.
  2: { unfold keeps_policy, keeps_registries, no_auth. cbn. auto 12. }
  destruct (disconnect_until_join_facts e1 h c) as (Hc & Hs & Ho & Hsl & _).
  destruct (until_join_cases e1 h c) as [[joined Hout]|Hout];
    destruct (disconnect_until_join e1 h c) as [o c1 e1'];
    cbn [res_out res_client res_events] in *; subst o c1.
  2: { go. unfold keeps_policy, keeps_registries, no_auth. rewrite Hs, Ho, Hsl.
       proj_m. cbn. auto 12. }
  set (mid := match joined with Some th => meanwhile th | None => _ end).
  assert (Hmid : tame mid) by (subst mid; destruct joined; [apply Htame | apply tame_ret]).
  destruct (Hmid (extend h e1') (set_running false c))
    as (Ho2 & Hp2 & Hr2 & Ha2 & Hu2 & Hc2 & Hs2 & Hsl2).
  destruct (mid (extend h e1') (set_running false c)) as [o2 c2 e2] eqn:Emid.
  cbn [res_out res_client res_events] in *. subst o2. go.
  match goal with
  | |- context [disconnect_after_join e3 ?j ?h' ?c'] =>
      destruct (disconnect_after_join_facts e3 j h' c')
        as (Ho3 & Hc3 & Hs3 & Hop3 & Hsl3 & _);
      destruct (disconnect_after_join e3 j h' c') as [o3 c3 e3']
  end.
  cbn [res_out res_client res_events prefix] in *. subst o3 c3.
  unfold keeps_policy, keeps_registries, no_auth, reset_after_join in *.
  proj_m. rewrite !sends_app, !sleeps_app, Hs, Hs2, Hs3, Hsl, Hsl2, Hsl3.
  destruct Hp2 as (Hk & Hi & Hm). destruct Hr2 as [Hsub Hh].
  rewrite Hk, Hi, Hm, Hsub, Hh, Ha2. proj_m. cbn.
  repeat split; auto.
  intros Hop. rewrite !opens_app, Ho, Hop3, app_nil_r. cbn.
  subst mid. destruct joined as [th|].
  - specialize (Hop th (extend h e1') (set_running false c)).
    rewrite Emid in Hop. exact Hop.
  - cbn in Emid. injection Emid as _ <-. reflexivity.
Qed.

Lemma disconnect_facts env h c :
  let r := disconnect env h c in
  keeps_policy c (res_client r) /\ keeps_registries c (res_client r) /\
  reconnect_attempts (res_client r) = reconnect_attempts c /\
  running (res_client r) = false /\
  opens (res_events r) = [] /\ no_auth (res_events r) /\
  sleeps (res_events r) = [] /\
  sends (res_events r) = [] /\
  (is_connected c = false -> is_connected (res_client r) = false) /\
  (res_out r = Ret tt \/
   res_out r = Exc (RuntimeError "cannot join current thread")).
Proof.
  destruct (@disconnect_body_facts env env (fun _ => ret tt) h c (fun _ => tame_ret))
    as (H1 & H2 & H3 & H4 & H5 & H6 & H7 & H8 & H9 & H10).
  unfold disconnect. cbv zeta.
  repeat split; try assumption; try apply H1; try apply H2.
  apply H10. reflexivity.
Qed.

Section Unconnected.
Variable env : Env.

Lemma subscribe_unconnected channel params handler h c :
  is_connected c = false ->
  let r := subscribe env channel params handler h c in
  sends (res_events r) = [] /\ is_connected (res_client r) = false.
Proof.
  intros Hconn.
  destruct (String.eqb channel "") eqn:Hch.
  { unfold subscribe. rewrite Hch. go. auto. }
  destruct params as [|p ps].
  { unfold subscribe. rewrite Hch. go. auto. }
  apply String.eqb_neq in Hch. cbv zeta.
  rewrite subscribe_run by (assumption || discriminate).
  cbn [res_client res_events]. proj_m. split; [|exact Hconn].
  unfold subscribe_events. rewrite Hconn. cbn [andb]. rewrite sends_app.
  destruct (handler_in handler (get_list channel (handlers c)));
    destruct (is_empty _); reflexivity.
Qed.

Lemma unsubscribe_unconnected channel params handler h c :
  is_connected c = false ->
  let r := unsubscribe env channel params handler h c in
  sends (res_events r) = [] /\ is_connected (res_client r) = false.
Proof.
  intros Hconn. cbv zeta.
  destruct (PyDict.contains channel (subscribed_channels c)) eqn:Hc.
  2: { unfold unsubscribe. go. rewrite Hc. go. auto. }
  destruct (params_to_unsubscribe params
              (get_list channel (subscribed_channels c))) as [|s0 sel] eqn:Hsel.
  { rewrite unsubscribe_nothing by assumption. auto. }
  destruct (unsubscribe_client env channel params handler h c Hc)
    as (_ & Hcl & _ & _ & Hse); [congruence|].
  rewrite Hse, Hcl, Hconn. proj_m. auto.
Qed.
End Unconnected.

(** *** The registries of a reachable client *)


Lemma get_list_nodup {V} (d : PyDict.t (list V)) k :
  lists_nodup d -> NoDup (get_list k d).
Proof.
  intros H. unfold get_list. destruct (PyDict.get k d) eqn:E.
  - eapply H; eauto.
  - constructor.
Qed.

Lemma lists_nodup_set {V} (d : PyDict.t (list V)) k l :
  lists_nodup d -> NoDup l -> lists_nodup (PyDict.set k l d).
Proof.
  intros Hd Hl k' l' Hget. destruct (String.eqb k' k) eqn:E.
  - apply String.eqb_eq in E. subst k'.
    rewrite PyDictFacts.get_set_same in Hget. now injection Hget as <-.
  - apply String.eqb_neq in E. rewrite PyDictFacts.get_set_other in Hget by assumption.
    eapply Hd; eauto.
Qed.

Lemma lists_nodup_del {V} (d : PyDict.t (list V)) k :
  PyDict.wf d -> lists_nodup d -> lists_nodup (PyDict.del k d).
Proof.
  intros Hwf Hd k' l' Hget. destruct (String.eqb k' k) eqn:E.
  - apply String.eqb_eq in E. subst k'.
    rewrite PyDictFacts.get_del_same in Hget by assumption. discriminate.
  - apply String.eqb_neq in E. rewrite PyDictFacts.get_del_other in Hget by assumption.
    eapply Hd; eauto.
Qed.

Lemma handler_remove_subset h hs y : In y (handler_remove h hs) -> In y hs.
Proof.
  induction hs as [|z zs IH]; simpl; [tauto|].
  destruct (Nat.eqb h z); simpl; intuition.
Qed.

Lemma handler_remove_nodup h hs : NoDup hs -> NoDup (handler_remove h hs).
Proof.
  induction hs as [|y ys IH]; simpl; intros Hnd; [constructor|].
  inversion Hnd as [|? ? Hnin Hnd']; subst.
  destruct (Nat.eqb h y); [assumption|].
  constructor; [|now apply IH].
  intros Hin. apply Hnin. eapply handler_remove_subset; eauto.
Qed.

Lemma subscribe_registry_ok env channel params handler h c :
  registry_ok c -> registry_ok (res_client (subscribe env channel params handler h c)).
Proof.
  intros (Hws & Hwh & Hns & Hnh).
  destruct (String.eqb channel "") eqn:Hch.
  { unfold subscribe. rewrite Hch. repeat split; assumption. }
  destruct params as [|p ps].
  { unfold subscribe. rewrite Hch. repeat split; assumption. }
  apply String.eqb_neq in Hch.
  rewrite subscribe_run by (assumption || discriminate).
  unfold registry_ok. cbn [res_client]. proj_m.
  unfold subscribed_after_subscribe, handlers_after_subscribe.
  split; [now apply PyDictFacts.wf_set|].
  split; [destruct (handler_in _ _); [assumption | now apply PyDictFacts.wf_set]|].
  split.
  - apply lists_nodup_set; [assumption|].
    apply fresh_params_nodup. now apply get_list_nodup.
  - destruct (handler_in handler (get_list channel (handlers c))) eqn:E;
      [assumption|].
    apply lists_nodup_set; [assumption|].
    apply NoDup_app; [now apply get_list_nodup | repeat constructor; simpl; tauto |].
    intros x Hx [<-|[]]. apply handler_in_In in Hx. congruence.
Qed.

Lemma unsubscribe_registry_ok env channel params handler h c :
  registry_ok c ->
  registry_ok (res_client (unsubscribe env channel params handler h c)).
Proof.
  intros Hok. pose proof Hok as (Hws & Hwh & Hns & Hnh).
  destruct (PyDict.contains channel (subscribed_channels c)) eqn:Hc.
  2: { unfold unsubscribe. go. rewrite Hc. exact Hok. }
  destruct (params_to_unsubscribe params
              (get_list channel (subscribed_channels c))) as [|s0 sel] eqn:Hsel.
  { rewrite unsubscribe_nothing by assumption. exact Hok. }
  destruct (unsubscribe_client env channel params handler h c Hc)
    as (_ & Hcl & _); [congruence|].
  rewrite Hcl. unfold registry_ok. proj_m.
  unfold subscribed_after_unsubscribe, handlers_after_unsubscribe.
  assert (Hrem : NoDup (remaining_params params
                          (get_list channel (subscribed_channels c)))).
  { unfold remaining_params.
    rewrite unsubscribe_loop_remaining by now apply get_list_nodup.
    apply NoDup_filter. now apply get_list_nodup. }
  split.
  { destruct (is_empty _); [now apply PyDictFacts.wf_del | now apply PyDictFacts.wf_set]. }
  split.
  { destruct (PyDict.get channel (handlers c)) as [l|]; [|assumption].
    destruct handler as [hd|].
    - destruct (handler_in hd l); [now apply PyDictFacts.wf_set | assumption].
    - destruct (is_empty _); [now apply PyDictFacts.wf_del | assumption]. }
  split.
  { destruct (is_empty _);
      [now apply lists_nodup_del | now apply lists_nodup_set]. }
  destruct (PyDict.get channel (handlers c)) as [l|] eqn:Hl; [|assumption].
  destruct handler as [hd|].
  - destruct (handler_in hd l); [|assumption].
    apply lists_nodup_set; [assumption|].
    apply handler_remove_nodup. eapply Hnh; eauto.
  - destruct (is_empty _); [now apply lists_nodup_del | assumption].
Qed.

Lemma lists_nonempty_set {V} (d : PyDict.t (list V)) k l :
  lists_nonempty d -> l <> [] -> lists_nonempty (PyDict.set k l d).
Proof.
  intros Hd Hl k' l' Hget. destruct (String.eqb k' k) eqn:E.
  - apply String.eqb_eq in E. subst k'.
    rewrite PyDictFacts.get_set_same in Hget. now injection Hget as <-.
  - apply String.eqb_neq in E. rewrite PyDictFacts.get_set_other in Hget by assumption.
    eapply Hd; eauto.
Qed.

Lemma lists_nonempty_del {V} (d : PyDict.t (list V)) k :
  PyDict.wf d -> lists_nonempty d -> lists_nonempty (PyDict.del k d).
Proof.
  intros Hwf Hd k' l' Hget. destruct (String.eqb k' k) eqn:E.
  - apply String.eqb_eq in E. subst k'.
    rewrite PyDictFacts.get_del_same in Hget by assumption. discriminate.
  - apply String.eqb_neq in E. rewrite PyDictFacts.get_del_other in Hget by assumption.
    eapply Hd; eauto.
Qed.

Lemma subscribe_lists_nonempty env channel params handler h c :
  lists_nonempty (subscribed_channels c) ->
  lists_nonempty (subscribed_channels
                    (res_client (subscribe env channel params handler h c))).
Proof.
  intros Hne.
  destruct (String.eqb channel "") eqn:Hch.
  { unfold subscribe. rewrite Hch. exact Hne. }
  destruct params as [|p ps].
  { unfold subscribe. rewrite Hch. exact Hne. }
  apply String.eqb_neq in Hch.
  rewrite subscribe_run by (assumption || discriminate).
  cbn [res_client]. proj_m. unfold subscribed_after_subscribe.
  apply lists_nonempty_set; [assumption|].
  intros Hnil.
  assert (Hin : In p (get_list channel (subscribed_channels c) ++
                      fresh_params (p :: ps) (get_list channel (subscribed_channels c))))
    by (apply fresh_params_covers; now left).
  rewrite Hnil in Hin. destruct Hin.
Qed.

Lemma unsubscribe_lists_nonempty env channel params handler h c :
  PyDict.wf (subscribed_channels c) ->
  lists_nonempty (subscribed_channels c) ->
  lists_nonempty (subscribed_channels
                    (res_client (unsubscribe env channel params handler h c))).
Proof.
  intros Hwf Hne.
  destruct (PyDict.contains channel (subscribed_channels c)) eqn:Hc.
  2: { unfold unsubscribe. go. rewrite Hc. exact Hne. }
  destruct (params_to_unsubscribe params
              (get_list channel (subscribed_channels c))) as [|s0 sel] eqn:Hsel.
  { rewrite unsubscribe_nothing by assumption. exact Hne. }
  destruct (unsubscribe_client env channel params handler h c Hc)
    as (_ & Hcl & _); [congruence|].
  rewrite Hcl. proj_m. unfold subscribed_after_unsubscribe.
  destruct (remaining_params params (get_list channel (subscribed_channels c)))
    as [|q rest]; cbn [is_empty];
    [now apply lists_nonempty_del | apply lists_nonempty_set; [assumption | discriminate]].
Qed.


Lemma auth_sends_app h evs : no_auth evs -> auth_sends (h ++ evs) = auth_sends h.
Proof.
  unfold auth_sends, no_auth. intros H. rewrite sends_app, filter_app.
  replace (filter is_auth (sends evs)) with (@nil Wire); [apply app_nil_r|].
  induction (sends evs) as [|m ms IH]; simpl in *; [reflexivity|].
  apply andb_true_iff in H. destruct H as [H1 H2].
  destruct (is_auth m); [discriminate | auto].
Qed.

Lemma keeps_policy_refl c : keeps_policy c c.
Proof. repeat split. Qed.

Lemma keeps_registries_refl c : keeps_registries c c.
Proof. repeat split. Qed.


Section Replay.
Variable env : Env.

Lemma opens_resubscribe_channels h c :
  opens (res_events (_resubscribe_channels env h c)) = [].
Proof.
  unfold _resubscribe_channels. step_m.
  destruct (negb (is_connected c) || negb (truthy (is_authenticated c)));
    step_m; [reflexivity|]. norm_prefix. cbn [opens].
  rewrite (for_each_reading opens (resubscribe_channel env) (fun _ _ => [])
             opens_app (quiet_resubscribe_channel env)).
  - apply flat_map_nil.
  - intros item h0 c0. unfold resubscribe_channel.
    destruct (negb (is_empty (snd item))); [|reflexivity].
    rewrite (bind_eq _ (send_message_run env _ h0 c0)). step_m.
    rewrite opens_app, opens_send_events. reflexivity.
Qed.


Lemma subscribes_resubscribe_channels h c :
  forallb is_subscribe (sends (res_events (_resubscribe_channels env h c))) = true.
Proof.
  rewrite sends_resubscribe_channels.
  destruct (is_connected c && truthy (is_authenticated c) && can_send c);
    [|reflexivity].
  induction (filter has_params (PyDict.items (subscribed_channels c)));
    simpl; auto.
Qed.

End Replay.

(** *** The handlers *)

Lemma calls_only_any run : calls_only (fun _ => true) run.
Proof. induction run as [how|k next IH]; constructor; auto. Qed.

Lemma calls_only_weaken (good good' : ClientCall -> bool) run :
  (forall k, good k = true -> good' k = true) ->
  calls_only good run -> calls_only good' run.
Proof.
  intros Himp. induction 1 as [how|k next Hk Hnext IH]; constructor; auto.
Qed.

(** What the calls of the handlers preserve, the dispatch of a message
    preserves: an invariant [I] of the client and a property [Q] of the
    actions, for handlers whose calls all pass the test [good]. *)
Section HandlerInvariant.
Variable env : Env.
Variable good : ClientCall -> bool.
Variable I : Client -> Prop.
Variable Q : list Event -> Prop.
Hypothesis Q_nil : Q [].
Hypothesis Q_app : forall a b, Q a -> Q b -> Q (a ++ b).
Hypothesis Q_log : forall lvl m, Q [EvLog lvl m].
Hypothesis Q_invoke : forall hd d, Q [EvInvoke hd d].
Hypothesis call_ok : forall k h c,
  good k = true -> I c ->
  I (res_client (client_call env k h c)) /\ Q (res_events (client_call env k h c)).
Hypothesis handlers_ok : forall h hd d, calls_only good (call_handler env h hd d).

Lemma handler_calls_inv channel run :
  calls_only good run ->
  forall held h c, I c ->
  let r := handler_calls env channel run held h c in
  I (res_client r) /\ Q (res_events r) /\ exists v, res_out r = Ret v.
Proof.
  induction 1 as [how|k next Hk Hnext IH]; intros held h c Hc; cbn [handler_calls].
  - cbn. eauto.
  - destruct (@call_ok k h c Hk Hc) as [Hc' Hq'].
    destruct (client_call env k h c) as [[a|e|x] c' evs];
      cbn [res_client res_events] in *.
    + destruct (IH None (hold channel held c c') (extend h evs) c' Hc')
        as (A & B & v & E).
      destruct (handler_calls env channel (next None) _ _ c') as [o c2 e2].
      cbn in *. eauto.
    + destruct (IH (Some e) (hold channel held c c') (extend h evs) c' Hc')
        as (A & B & v & E).
      destruct (handler_calls env channel (next (Some e)) _ _ c') as [o c2 e2].
      cbn in *. eauto.
    + cbn. eauto.
Qed.

Lemma guarded_invoke_inv channel d hd held h c :
  I c ->
  let r := guarded_invoke env channel d hd held h c in
  I (res_client r) /\ Q (res_events r) /\
  ((exists v, res_out r = Ret v) \/ exists x, res_out r = Esc x).
Proof.
  intros Hc. unfold guarded_invoke, invoke. go.
  destruct (@handler_calls_inv channel _ (handlers_ok h hd d) held
              (h ++ [EvInvoke hd d]) c Hc) as (A & B & [held' how] & E).
  destruct (handler_calls env channel _ held (h ++ [EvInvoke hd d]) c)
    as [o c2 e2].
  cbn [res_out res_client res_events] in *. subst o. go.
  destruct how as [|e|x]; cbn [finish]; go; cbn; repeat split; eauto 6;
    match goal with
    | |- Q (?a :: ?b ++ ?t) =>
        change (a :: b ++ t) with ([a] ++ b ++ t); auto
    end.
Qed.

Lemma handler_loop_inv channel d turns : forall i held h c,
  I c ->
  let r := handler_loop env turns channel d i held h c in
  I (res_client r) /\ Q (res_events r) /\
  (res_out r = Ret tt \/ exists x, res_out r = Esc x).
Proof.
  induction turns as [|turns IH]; intros i held h c Hc; cbn [handler_loop].
  - cbn. auto.
  - go. destruct (nth_error (held_items channel held c) i) as [hd|]; go.
    2: { cbn. auto. }
    destruct (guarded_invoke_inv channel d hd held h Hc) as (A & B & Ho).
    destruct (guarded_invoke env channel d hd held h c) as [o c1 e1].
    cbn [res_out res_client res_events] in *.
    destruct Ho as [[held' ->]|[x ->]]; go; [|cbn; eauto].
    destruct (IH (S i) held' (extend h e1) c1 A) as (A' & B' & Ho').
    destruct (handler_loop env turns channel d (S i) held' _ c1) as [o2 c2 e2].
    cbn in *. auto.
Qed.

Lemma dispatch_inv channel d h c :
  I c ->
  let r := dispatch env channel d h c in
  I (res_client r) /\ Q (res_events r) /\
  (res_out r = Ret tt \/ res_out r = Exc (TypeError "unhashable type") \/
   exists x, res_out r = Esc x).
Proof.
  intros Hc. destruct channel; cbn; auto.
  unfold dispatch, handlers_item, PyDict.contains. go.
  destruct (PyDict.get s (handlers c)) as [l|] eqn:Hget; go; rewrite ?Hget; go.
  2: { cbn. auto. }
  destruct (handler_loop_inv s d (length l + growth env) 0 None h Hc)
    as (A & B & Ho).
  destruct (handler_loop env _ s d 0 None h c) as [o c1 e1].
  cbn in *. intuition.
Qed.

Hypothesis I_auth : forall v c, I c -> I (set_is_authenticated v c).
Hypothesis resubscribe_ok : forall h c,
  I c -> Q (res_events (_resubscribe_channels env h c)).

Lemma on_message_inv w message h c :
  I c ->
  let r := _on_message env w message h c in
  I (res_client r) /\ Q (res_events r) /\
  (res_out r = Ret tt \/ exists x, res_out r = Esc x).
Proof.
  intros Hc. unfold _on_message, loads. step_m.
  destruct (json_loads env message) as [data|e|x]; step_m.
  2: { destruct e; cbn; auto. }
  2: { cbn. eauto. }
  assert (Q2 : forall a b, Q [a] -> Q b -> Q (a :: b))
    by (intros a b Ha Hb; change (a :: b) with ([a] ++ b); auto).
  destruct (is_dict data && json_eq_str (data_get data "op" JNull) "pong");
    step_m; [cbn; auto|].
  destruct (is_dict data && json_eq_str (data_get data "op" JNull) "auth");
    step_m.
  { destruct (truthy (data_get data "success" (JBool false))); step_m.
    - match goal with
      | |- context [_resubscribe_channels env ?h' ?c'] =>
          pose proof (resubscribe_ok h' (c := c') (I_auth _ Hc)) as Hq;
          rewrite (quiet_eq h' c' (quiet_resubscribe_channels env)) in *
      end.
      cbn [res_out res_client res_events app prefix] in *. auto 7.
    - cbn. auto 7. }
  destruct (is_dict data && data_has data "channel" && data_has data "data");
    step_m.
  { match goal with
    | |- context [dispatch env ?ch ?d ?h' c] =>
        destruct (dispatch_inv ch d h' Hc) as (A & B & Ho);
        destruct (dispatch env ch d h' c) as [o c1 e1]
    end.
    cbn [res_out res_client res_events] in *.
    destruct Ho as [->|[->|[x ->]]]; go; cbn; eauto 7. }
  destruct (is_dict data && json_eq_str (data_get data "event" JNull) "error");
    step_m; cbn; auto.
Qed.
End HandlerInvariant.

Section HandlerFacts.
Variable env : Env.

Lemma client_call_fields k h c :
  let r := client_call env k h c in
  keeps_policy c (res_client r) /\
  reconnect_attempts (res_client r) = reconnect_attempts c /\
  no_auth (res_events r) /\
  (res_out r = Ret tt \/
   res_out r = Exc (RuntimeError "cannot join current thread")).
Proof.
  destruct k as [ch ps hd|ch ps hd| |]; cbn [client_call].
  - destruct (subscribe_facts env ch ps hd h c) as (Ho & Hp & Ha & _ & _ & Hn). auto.
  - destruct (unsubscribe_facts env ch ps hd h c) as (Ho & Hp & Ha & _ & _ & Hn). auto.
  - destruct (connect_facts env h c) as (Hp & _ & Ha & Hn & _).
    destruct (connect_unconnected env h c) as (Ho & _). auto.
  - destruct (disconnect_facts env h c) as (Hp & _ & Ha & _ & _ & Hn & _ & _ & _ & Ho).
    auto.
Qed.

Lemma client_call_unconnected k h c :
  is_connected c = false ->
  let r := client_call env k h c in
  is_connected (res_client r) = false /\ sends (res_events r) = [].
Proof.
  intros Hconn. destruct k as [ch ps hd|ch ps hd| |]; cbn [client_call].
  - destruct (@subscribe_unconnected env ch ps hd h c Hconn); auto.
  - destruct (@unsubscribe_unconnected env ch ps hd h c Hconn); auto.
  - destruct (connect_unconnected env h c) as (_ & Hs & Hc). cbv zeta.
    rewrite Hc. auto.
  - destruct (disconnect_facts env h c) as (_ & _ & _ & _ & _ & _ & _ & Hs & Hc & _).
    auto.
Qed.

Lemma client_call_registries k h c :
  registers k = false ->
  keeps_registries c (res_client (client_call env k h c)).
Proof.
  destruct k as [ch ps hd|ch ps hd| |]; cbn [client_call registers];
    intros Hk; try discriminate.
  - apply connect_facts.
  - apply disconnect_facts.
Qed.

Lemma client_call_registry_ok k h c :
  registry_ok c /\ lists_nonempty (subscribed_channels c) ->
  let r := client_call env k h c in
  registry_ok (res_client r) /\ lists_nonempty (subscribed_channels (res_client r)).
Proof.
  intros [Hok Hne]. destruct k as [ch ps hd|ch ps hd| |]; cbn [client_call].
  - split; [now apply subscribe_registry_ok | now apply subscribe_lists_nonempty].
  - split; [now apply unsubscribe_registry_ok|].
    apply unsubscribe_lists_nonempty; [apply Hok | exact Hne].
  - destruct (connect_facts env h c) as (_ & [Hs Hh] & _).
    unfold registry_ok. cbv zeta. rewrite Hs, Hh. auto.
  - destruct (disconnect_facts env h c) as (_ & [Hs Hh] & _).
    unfold registry_ok. cbv zeta. rewrite Hs, Hh. auto.
Qed.

(** [_on_message], whatever the handlers do: it never ends in an
    instance of [Exception]; the settings and the reconnect counter are
    as before; no auth message is sent. *)
Lemma on_message_fields w message h c :
  let r := _on_message env w message h c in
  keeps_policy c (res_client r) /\
  reconnect_attempts (res_client r) = reconnect_attempts c /\
  no_auth (res_events r) /\
  (res_out r = Ret tt \/ exists x, res_out r = Esc x).
Proof.
  destruct (@on_message_inv env (fun _ => true)
              (fun c' => keeps_policy c c' /\
                         reconnect_attempts c' = reconnect_attempts c)
              no_auth) with (w := w) (message := message) (h := h) (c := c)
    as ((Hp & Ha) & Hn & Ho).
  - reflexivity.
  - apply no_auth_app.
  - reflexivity.
  - reflexivity.
  - intros k h' c' _ ((Hk & Hi & Hm) & Ha).
    destruct (client_call_fields k h' c') as ((Hk' & Hi' & Hm') & Ha' & Hn' & _).
    unfold keeps_policy. repeat split; congruence.
  - intros. apply calls_only_any.
  - intros v c' H. exact H.
  - intros h' c' _. apply no_auth_subscribes, subscribes_resubscribe_channels.
  - split; [apply keeps_policy_refl | reflexivity].
  - auto.
Qed.

Lemma on_message_unconnected w message h c :
  is_connected c = false ->
  let r := _on_message env w message h c in
  is_connected (res_client r) = false /\ sends (res_events r) = [].
Proof.
  intros Hconn.
  destruct (@on_message_inv env (fun _ => true)
              (fun c' => is_connected c' = false)
              (fun evs => sends evs = [])) with (w := w) (message := message)
              (h := h) (c := c) as (Hc & Hs & _); auto.
  - intros a b Ha Hb. now rewrite sends_app, Ha, Hb.
  - intros k h' c' _ Hc'. now apply client_call_unconnected.
  - intros. apply calls_only_any.
  - intros h' c' Hc'. rewrite sends_resubscribe_channels, Hc'. reflexivity.
Qed.

Lemma on_message_registry_ok w message h c :
  registry_ok c /\ lists_nonempty (subscribed_channels c) ->
  let r := _on_message env w message h c in
  registry_ok (res_client r) /\ lists_nonempty (subscribed_channels (res_client r)).
Proof.
  intros Hok.
  destruct (@on_message_inv env (fun _ => true)
              (fun c' => registry_ok c' /\ lists_nonempty (subscribed_channels c'))
              (fun _ => True)) with (w := w) (message := message)
              (h := h) (c := c) as (Hc & _); auto.
  - intros k h' c' _ Hc'. split; [now apply client_call_registry_ok | exact Logic.I].
  - intros. apply calls_only_any.
Qed.

(** ... and when no handler calls [subscribe] or [unsubscribe], the
    registries are as before. *)
Lemma on_message_registries w message h c :
  (forall h' hd d, no_registration (call_handler env h' hd d)) ->
  keeps_registries c (res_client (_on_message env w message h c)).
Proof.
  intros Hnone.
  destruct (@on_message_inv env (fun k => negb (registers k))
              (fun c' => keeps_registries c c')
              (fun _ => True)) with (w := w) (message := message)
              (h := h) (c := c) as (Hc & _); auto.
  - intros k h' c' Hk [Hs Hh]. apply negb_true_iff in Hk.
    destruct (client_call_registries k h' c' Hk) as [Hs' Hh'].
    split; [|exact Logic.I]. split; congruence.
  - apply keeps_registries_refl.
Qed.
End HandlerFacts.

Lemma prefix_nil {A} (r : Res A) : prefix [] r = r.
Proof. destruct r; reflexivity. Qed.

Section Isolation.
Variable env : Env.

Lemma invocations_subscribe channel params handler h c :
  invocations (res_events (subscribe env channel params handler h c)) = [].
Proof.
  destruct (String.eqb channel "") eqn:Hch.
  { unfold subscribe. rewrite Hch. go. reflexivity. }
  destruct params as [|p ps].
  { unfold subscribe. rewrite Hch. go. reflexivity. }
  apply String.eqb_neq in Hch.
  rewrite subscribe_run by (assumption || discriminate).
  cbn [res_events]. unfold subscribe_events.
  rewrite invocations_app.
  destruct (handler_in handler (get_list channel (handlers c))); cbn [invocations app];
    destruct (is_empty _); try reflexivity;
    destruct (is_connected c && truthy (is_authenticated c)); try reflexivity;
    rewrite invocations_app, invocations_send_events; reflexivity.
Qed.

Lemma invocations_unsubscribe channel params handler h c :
  invocations (res_events (unsubscribe env channel params handler h c)) = [].
Proof.
  unfold unsubscribe. go.
  destruct (PyDict.contains channel (subscribed_channels c)) eqn:Hc; go;
    [|reflexivity].
  unfold handlers_item, PyDict.contains in *.
  destruct c as [k d w conn auth subs hs ri mx n r pt wt]. proj_m. cbn in Hc.
  set (sel := fst (unsubscribe_loop params []
                     match PyDict.get channel subs with
                     | Some l => l | None => [] end)) in *.
  set (rem := snd (unsubscribe_loop params []
                     match PyDict.get channel subs with
                     | Some l => l | None => [] end)) in *.
  destruct sel as [|s0 sel']; go; [reflexivity|].
  destruct (is_empty rem) eqn:Hrem; go;
    (destruct (conn && truthy auth) eqn:Hca; go;
     rewrite ?send_message_run; go);
    (destruct (PyDict.get channel hs) as [l|] eqn:Hh; go; rewrite ?Hh; go);
    try (destruct handler as [hd|]; go; rewrite ?Hh; go;
         try (destruct (handler_in hd l); go));
    rewrite ?Hrem; go;
    cbn [invocations app];
    rewrite ?invocations_app, ?invocations_send_events;
    reflexivity.
Qed.

Lemma invocations_connect h c :
  invocations (res_events (connect env h c)) = [].
Proof.
  rewrite connect_run.
  destruct (running c); [reflexivity|].
  destruct (thread_alive env h c); reflexivity.
Qed.

Lemma invocations_disconnect h c :
  invocations (res_events (disconnect env h c)) = [].
Proof.
  unfold disconnect, disconnect_body, disconnect_until_join,
    disconnect_after_join, thread_is_alive, thread_join, call, try_except.
  go. destruct (running c); go; [|reflexivity].
  destruct (ws c) as [transport|]; go;
    [destruct (ws_close env _ transport); go|];
    (destruct (_ws_thread c) as [th|]; go; [|reflexivity];
     destruct (Nat.eqb th (current_thread env)) eqn:E; go; [reflexivity|];
     repeat (match goal with
             | |- context [is_alive env ?h' th] => destruct (is_alive env h' th)
             end; go; rewrite ?E; go);
     reflexivity).
Qed.

Lemma invocations_client_call k h c :
  invocations (res_events (client_call env k h c)) = [].
Proof.
  destruct k; cbn [client_call].
  - apply invocations_subscribe.
  - apply invocations_unsubscribe.
  - apply invocations_connect.
  - apply invocations_disconnect.
Qed.

(** A call that is no [subscribe] or [unsubscribe] for [name] leaves the
    handler list of [name] alone. *)
Lemma client_call_keeps_list name k h c :
  touches name k = false ->
  PyDict.get name (handlers (res_client (client_call env k h c))) =
  PyDict.get name (handlers c).
Proof.
  destruct k as [ch ps hd|ch ps hd| |]; cbn [client_call touches]; intros Hk.
  - apply String.eqb_neq in Hk.
    destruct (String.eqb ch "") eqn:Hch.
    { unfold subscribe. rewrite Hch. reflexivity. }
    destruct ps as [|p ps].
    { unfold subscribe. rewrite Hch. reflexivity. }
    apply String.eqb_neq in Hch.
    rewrite subscribe_run by (assumption || discriminate).
    cbn [res_client]. proj_m. unfold handlers_after_subscribe.
    destruct (handler_in hd (get_list ch (handlers c))); [reflexivity|].
    apply PyDictFacts.get_set_other. congruence.
  - apply String.eqb_neq in Hk.
    destruct (PyDict.contains ch (subscribed_channels c)) eqn:Hc.
    2: { unfold unsubscribe. go. rewrite Hc. reflexivity. }
    destruct (params_to_unsubscribe ps
                (get_list ch (subscribed_channels c))) as [|s0 sel] eqn:Hsel.
    { rewrite unsubscribe_nothing by assumption. reflexivity. }
    destruct (unsubscribe_client env ch ps hd h c Hc) as (_ & Hcl & _); [congruence|].
    rewrite Hcl. proj_m. unfold handlers_after_unsubscribe.
    destruct (PyDict.get ch (handlers c)) as [l|]; [|reflexivity].
    destruct hd as [hd|].
    + destruct (handler_in hd l); [|reflexivity].
      apply PyDictFacts.get_set_other. congruence.
    + destruct (is_empty _); [|reflexivity].
      apply PyDictFacts.get_del_other. congruence.
  - destruct (connect_facts env h c) as (_ & (_ & ->) & _). reflexivity.
  - destruct (disconnect_facts env h c) as (_ & (_ & ->) & _). reflexivity.
Qed.

(** A call of a handler never ends in an exit of the interpreter. *)
Lemma client_call_no_exit k h c x :
  res_out (client_call env k h c) <> Esc x.
Proof.
  destruct (client_call_fields env k h c) as (_ & _ & _ & [-> | ->]); discriminate.
Qed.


(** The calls of a handler that leaves the handlers of [name] alone: the
    loop goes on over the list of the registry, which is as it was. *)
Lemma handler_calls_steady name run :
  leaves_handlers name run ->
  forall h c l,
    PyDict.get name (handlers c) = Some l ->
    let r := handler_calls env name run None h c in
    (exists how, res_out r = Ret (None, how)) /\
    PyDict.get name (handlers (res_client r)) = Some l /\
    invocations (res_events r) = [].
Proof.
  induction 1 as [how|k next Hk Hnext IH]; intros h c l Hl; cbn [handler_calls].
  - cbn. eauto.
  - apply negb_true_iff in Hk.
    pose proof (client_call_keeps_list name k h c Hk) as Hkeep.
    pose proof (invocations_client_call k h c) as Hinv.
    assert (Hhold : hold name None c (res_client (client_call env k h c)) = None).
    { unfold hold, PyDict.contains. rewrite Hkeep, Hl. reflexivity. }
    rewrite Hl in Hkeep.
    destruct (client_call env k h c) as [[a|e|x] c' evs];
      cbn [res_client res_events] in *; rewrite Hhold.
    + destruct (IH None (extend h evs) c' l Hkeep) as ((how & Ho) & Hg & Hi).
      rewrite res_out_prefix, res_client_prefix, res_events_prefix,
        invocations_app, Hinv, Hi.
      eauto.
    + destruct (IH (Some e) (extend h evs) c' l Hkeep) as ((how & Ho) & Hg & Hi).
      rewrite res_out_prefix, res_client_prefix, res_events_prefix,
        invocations_app, Hinv, Hi.
      eauto.
    + cbn. eauto.
Qed.

(** A handler that never exits ends by returning or by raising. *)
Lemma handler_calls_never_exits name run :
  never_exits run ->
  forall held h c held' how,
    res_out (handler_calls env name run held h c) = Ret (held', how) ->
    forall x, how <> Exits x.
Proof.
  induction 1 as [|e|k next Hnext IH]; intros held h c held' how E x;
    cbn [handler_calls] in E.
  - cbn in E. injection E as _ <-. discriminate.
  - cbn in E. injection E as _ <-. discriminate.
  - pose proof (client_call_no_exit k h c) as Hno.
    destruct (client_call env k h c) as [[a|e|x'] c' evs]; cbn [res_out] in *.
    + rewrite res_out_prefix in E. eapply IH; eassumption.
    + rewrite res_out_prefix in E. eapply IH; eassumption.
    + exfalso. eapply Hno. reflexivity.
Qed.

(** What the [try] around the call of a handler does with its ending: a
    return goes on, a raise of an [Exception] is caught and logged, an
    exit of the interpreter is not caught. *)
Lemma guarded_invoke_ending name payload hd held h c held' how :
  res_out (invoke env name hd payload held h c) = Ret (held', how) ->
  let i := invoke env name hd payload held h c in
  let g := guarded_invoke env name payload hd held h c in
  res_client g = res_client i /\
  match how with
  | Returns => res_out g = Ret held' /\ res_events g = res_events i
  | Raises e =>
      res_out g = Ret held' /\
      res_events g = res_events i ++ [EvLog ERROR (ErrorInHandler name e)]
  | Exits x => res_out g = Esc x /\ res_events g = res_events i
  end.
Proof.
  intros E. cbv zeta. unfold guarded_invoke, bind.
  destruct (invoke env name hd payload held h c) as [o c' evs].
  cbn [res_out res_client res_events] in *. subst o.
  destruct how as [|e|x]; go; cbn; rewrite ?app_nil_r; auto.
Qed.

Lemma guarded_invoke_steady name payload hd h c l :
  leaves_handlers name (call_handler env h hd payload) ->
  PyDict.get name (handlers c) = Some l ->
  let g := guarded_invoke env name payload hd None h c in
  (res_out g = Ret None \/ exists x, res_out g = Esc x) /\
  PyDict.get name (handlers (res_client g)) = Some l /\
  invocations (res_events g) = [(hd, payload)] /\
  (never_exits (call_handler env h hd payload) -> res_out g = Ret None).
Proof.
  intros Hleave Hl.
  assert (Hi : invoke env name hd payload None h c =
               prefix [EvInvoke hd payload]
                 (handler_calls env name (call_handler env h hd payload) None
                    (h ++ [EvInvoke hd payload]) c))
    by (unfold invoke; go; destruct (handler_calls env name _ None _ c); reflexivity).
  destruct (handler_calls_steady Hleave (h ++ [EvInvoke hd payload]) c Hl)
    as ((how & Ho) & Hg & Hinv).
  assert (Hio : res_out (invoke env name hd payload None h c) = Ret (None, how))
    by (rewrite Hi, res_out_prefix; exact Ho).
  destruct (guarded_invoke_ending name payload hd None h c Hio) as (Hc & Hhow).
  cbv zeta. rewrite Hc, Hi, res_client_prefix.
  assert (Hev : invocations (res_events (invoke env name hd payload None h c)) =
                [(hd, payload)]).
  { rewrite Hi, res_events_prefix, invocations_app, Hinv. reflexivity. }
  split; [|split; [exact Hg|split]].
  - destruct how as [|e|x]; destruct Hhow as [-> _]; eauto.
  - destruct how as [|e|x]; destruct Hhow as [_ ->];
      rewrite ?invocations_app, Hev; reflexivity.
  - intros Hne.
    destruct how as [|e|x]; destruct Hhow as [-> _]; try reflexivity.
    exfalso.
    exact (@handler_calls_never_exits name _ Hne None (h ++ [EvInvoke hd payload]) c
             None (Exits x) Ho x eq_refl).
Qed.

(** While the handlers leave the list alone, the loop over the list of
    the registry is the loop over the list as it was at the start. *)
Lemma handler_loop_steady name payload : forall rest done turns h c,
  PyDict.get name (handlers c) = Some (done ++ rest) ->
  (forall h' hd, In hd rest -> leaves_handlers name (call_handler env h' hd payload)) ->
  (length rest <= turns)%nat ->
  handler_loop env turns name payload (length done) None h c =
  each_handler env name payload rest h c.
Proof.
  induction rest as [|hd rest IH]; intros done turns h c Hl Hleave Hturns.
  - destruct turns; cbn [handler_loop each_handler for_each]; [reflexivity|].
    go. unfold held_items. rewrite Hl, app_nil_r.
    assert (nth_error done (length done) = None) as ->
      by (apply nth_error_None; lia).
    reflexivity.
  - destruct turns as [|turns]; [cbn in Hturns; lia|].
    cbn [handler_loop each_handler for_each]. fold (each_handler env name payload rest).
    unfold bind at 1. cbn [get]. cbn [prefix extend app].
    unfold held_items. rewrite Hl.
    assert (nth_error (done ++ hd :: rest) (length done) = Some hd) as ->
      by (rewrite nth_error_app2, Nat.sub_diag by lia; reflexivity).
    destruct (@guarded_invoke_steady name payload hd h c (done ++ hd :: rest)
                (Hleave h hd (or_introl eq_refl)) Hl) as (Hout & Hg & _).
    unfold bind.
    destruct (guarded_invoke env name payload hd None h c) as [o c' evs].
    cbn [res_out res_client] in *.
    destruct Hout as [->|[x ->]]; [|reflexivity].
    cbn [ret prefix app]. rewrite app_nil_r.
    replace (S (length done)) with (length (done ++ [hd]))
      by (rewrite length_app; cbn; lia).
    rewrite IH.
    + rewrite !prefix_nil. reflexivity.
    + rewrite <- app_assoc. exact Hg.
    + intros h' hd' Hin. apply Hleave. now right.
    + cbn in Hturns. lia.
Qed.

(** The loop over a list that the handlers leave alone. *)
Lemma each_handler_facts name payload : forall rest done h c,
  PyDict.get name (handlers c) = Some (done ++ rest) ->
  (forall h' hd, In hd rest -> leaves_handlers name (call_handler env h' hd payload)) ->
  let r := each_handler env name payload rest h c in
  PyDict.get name (handlers (res_client r)) = Some (done ++ rest) /\
  (res_out r = Ret tt /\
   invocations (res_events r) = map (fun hd => (hd, payload)) rest \/
   exists x n, res_out r = Esc x /\ (1 <= n <= length rest)%nat /\
               invocations (res_events r) =
               map (fun hd => (hd, payload)) (firstn n rest)) /\
  ((forall h' hd, In hd rest -> never_exits (call_handler env h' hd payload)) ->
   res_out r = Ret tt /\
   invocations (res_events r) = map (fun hd => (hd, payload)) rest).
Proof.
  induction rest as [|hd rest IH]; intros done h c Hl Hleave;
    cbn [each_handler for_each].
  - cbn. auto.
  - fold (each_handler env name payload rest).
    destruct (@guarded_invoke_steady name payload hd h c (done ++ hd :: rest)
                (Hleave h hd (or_introl eq_refl)) Hl) as (Hout & Hg & Hinv & Hne).
    unfold bind.
    destruct (guarded_invoke env name payload hd None h c) as [o c' evs].
    cbn [res_out res_client res_events] in *.
    destruct Hout as [->|[x ->]].
    + cbn [ret prefix app]. rewrite app_nil_r.
      assert (Hl' : PyDict.get name (handlers c') = Some ((done ++ [hd]) ++ rest))
        by (rewrite <- app_assoc; exact Hg).
      destruct (IH (done ++ [hd]) (extend h (evs ++ [])) c' Hl')
        as (A & B & C).
      { intros h' hd' Hin. apply Hleave. now right. }
      rewrite app_nil_r in *.
      rewrite res_out_prefix, res_client_prefix, res_events_prefix,
        invocations_app, Hinv.
      rewrite <- app_assoc in A.
      split; [exact A|]. split.
      * destruct B as [[B1 B2]|(x & n & B1 & B2 & B3)].
        -- left. rewrite B1, B2. auto.
        -- right. exists x, (S n). rewrite B1, B3. cbn [firstn map length app].
           repeat split; try reflexivity; lia.
      * intros Hnever.
        destruct C as [C1 C2].
        { intros h' hd' Hin. apply Hnever. now right. }
        rewrite C1, C2. auto.
    + cbn [res_out res_client res_events].
      split; [exact Hg|]. split.
      * right. exists x, 1%nat. rewrite Hinv. cbn [firstn map length].
        repeat split; try reflexivity; lia.
      * intros Hnever.
        specialize (Hne (Hnever h hd (or_introl eq_refl))). discriminate.
Qed.

(** A channel-data message for a channel with handlers goes to the loop
    over the handlers. *)
Lemma on_message_dispatches w message data name hs h c :
  json_loads env message = Ret data ->
  is_channel_data data name ->
  PyDict.get name (handlers c) = Some hs ->
  (forall h' hd, In hd hs ->
     leaves_handlers name (call_handler env h' hd (data_get data "data" JNull))) ->
  _on_message env w message h c =
  prefix [EvLog DEBUG (ReceivedMessage data)]
    (each_handler env name (data_get data "data" JNull) hs
       (h ++ [EvLog DEBUG (ReceivedMessage data)]) c).
Proof.
  intros Hl (Hd & Hp & Ha & Hc & Hdd & Hn) Hget Hleave.
  pose proof (@handler_loop_steady name (data_get data "data" JNull) hs []
                (length hs + growth env) (h ++ [EvLog DEBUG (ReceivedMessage data)])
                c Hget Hleave ltac:(lia)) as Hloop.
  cbn [length] in Hloop.
  destruct (@each_handler_facts name (data_get data "data" JNull) hs []
              (h ++ [EvLog DEBUG (ReceivedMessage data)]) c Hget Hleave)
    as (_ & Hout & _).
  unfold _on_message, loads, dispatch, handlers_item. go. rewrite Hl. go.
  rewrite Hd, Hp, Ha, Hc, Hdd, Hn. go.
  unfold PyDict.contains. rewrite Hget. go. rewrite Hget. go.
  rewrite Hloop.
  destruct (each_handler env name (data_get data "data" JNull) hs _ c)
    as [o c' evs].
  cbn [res_out] in Hout.
  destruct Hout as [[-> _]|(x & n & -> & _)]; reflexivity.
Qed.
End Isolation.

(** What a channel-data message does on a channel whose handlers leave
    the channel's handler list alone. *)
Lemma on_message_channel_data env w message data name hs h c :
  json_loads env message = Ret data ->
  is_channel_data data name ->
  PyDict.get name (handlers c) = Some hs ->
  (forall h' hd, In hd hs ->
     leaves_handlers name (call_handler env h' hd (data_get data "data" JNull))) ->
  let payload := data_get data "data" JNull in
  let r := _on_message env w message h c in
  (exists n, invocations (res_events r) =
             map (fun hd => (hd, payload)) (firstn n hs)) /\
  ((forall h' hd, In hd hs -> never_exits (call_handler env h' hd payload)) ->
   res_out r = Ret tt /\
   invocations (res_events r) = map (fun hd => (hd, payload)) hs).
Proof.
  intros Hl Hcd Hget Hleave payload r. subst r payload.
  rewrite (@on_message_dispatches env w message data name hs h c Hl Hcd Hget Hleave).
  destruct (@each_handler_facts env name (data_get data "data" JNull) hs []
              (h ++ [EvLog DEBUG (ReceivedMessage data)]) c Hget Hleave)
    as (_ & Hcases & Hall).
  rewrite res_out_prefix, res_events_prefix. cbn [invocations app].
  split.
  - destruct Hcases as [[_ ->]|(x & n & _ & _ & ->)].
    + exists (length hs). now rewrite firstn_all.
    + now exists n.
  - exact Hall.
Qed.

Section Returns.
Variable env : Env.
Hypothesis handlers_return : forall h hd d, never_exits (call_handler env h hd d).



End Returns.


(** *** Runs of the scheduler *)

Section SchedulerFacts.
Variable env : Env.

(** The two ways [disconnect] runs when the application calls it. *)
Lemma step_disconnect_facts s :
  let s' := step env s AppDisconnect in
  keeps_policy (client s) (client s') /\
  keeps_registries (client s) (client s') /\
  reconnect_attempts (client s') = reconnect_attempts (client s) /\
  running (client s') = false /\
  auth_sends (trace s') = auth_sends (trace s) /\
  sleeps (trace s') = sleeps (trace s) /\
  sends (trace s') = sends (trace s) /\
  (is_connected (client s) = false -> is_connected (client s') = false).
Proof.
  cbn [step].
  destruct (woken_by_join (client s) (asleep s)) as [th|];
    cbn [after client trace]; rewrite extend_app, sleeps_app, sends_app.
  - match goal with
    | |- context [disconnect_body (disconnect_until_join ?e1) ?m
                    (disconnect_after_join ?e3) ?h ?c] =>
        destruct (@disconnect_body_facts e1 e3 m h c
                    (fun _ => tame_after_sleep _))
          as (H1 & H2 & H3 & H4 & H5 & H6 & H7 & H8 & _)
    end.
    rewrite H6, H7, !app_nil_r, (auth_sends_app _ H5). auto 10.
  - match goal with
    | |- context [disconnect ?e ?h ?c] =>
        destruct (disconnect_facts e h c)
          as (H1 & H2 & H3 & H4 & _ & H5 & H6 & H7 & H8 & _)
    end.
    rewrite H6, H7, !app_nil_r, (auth_sends_app _ H5). auto 10.
Qed.

Lemma step_policy s call : keeps_policy (client s) (client (step env s call)).
Proof.
  destruct call; try apply step_disconnect_facts; cbn [step after client].
  - apply connect_facts.
  - apply subscribe_facts.
  - apply unsubscribe_facts.
  - apply on_open_facts.
  - apply on_message_fields.
  - apply on_error_facts.
  - apply (on_close_facts w status msg).
  - destruct (asleep s) as [|[th seconds] rest]; cbn [after client];
      [apply keeps_policy_refl | apply after_sleep_facts].
  - match goal with
    | |- context [_send_ping ?e 1 ?h ?c] =>
        destruct (send_ping_facts e 1 h c) as (_ & -> & _)
    end.
    apply keeps_policy_refl.
Qed.

Lemma step_budget s call :
  within_budget (client s) -> within_budget (client (step env s call)).
Proof.
  unfold within_budget. intros Hb.
  pose proof (step_policy s call) as (_ & _ & Hmax). rewrite Hmax.
  destruct call;
    try (destruct (step_disconnect_facts s) as (_ & _ & -> & _); exact Hb);
    cbn [step after client].
  - match goal with |- context [connect ?e ?h ?c] =>
      destruct (connect_facts e h c) as (_ & _ & -> & _) end. exact Hb.
  - match goal with |- context [subscribe ?e ?ch ?ps ?hd ?h ?c] =>
      destruct (subscribe_facts e ch ps hd h c) as (_ & _ & -> & _) end. exact Hb.
  - match goal with |- context [unsubscribe ?e ?ch ?ps ?hd ?h ?c] =>
      destruct (unsubscribe_facts e ch ps hd h c) as (_ & _ & -> & _) end. exact Hb.
  - match goal with |- context [_on_open ?e ?w ?h ?c] =>
      destruct (on_open_facts e w h c) as (_ & _ & -> & _) end. lia.
  - match goal with |- context [_on_message ?e ?w ?m ?h ?c] =>
      destruct (on_message_fields e w m h c) as (_ & -> & _) end. exact Hb.
  - destruct (on_error_facts w error (trace s) (client s)) as (_ & _ & -> & _).
    exact Hb.
  - destruct (on_close_facts w status msg (trace s) (client s))
      as ((_ & _ & Hm) & _ & Hbud & _).
    specialize (Hbud Hb). unfold within_budget in Hbud. lia.
  - destruct (asleep s) as [|[th seconds] rest]; cbn [after client]; [exact Hb|].
    match goal with |- context [_attempt_reconnect_after_sleep ?e ?h ?c] =>
      destruct (after_sleep_facts e h c) as (_ & _ & _ & -> & _) end.
    exact Hb.
  - match goal with
    | |- context [_send_ping ?e 1 ?h ?c] =>
        destruct (send_ping_facts e 1 h c) as (_ & -> & _)
    end.
    exact Hb.
Qed.

(** Only [subscribe] and [unsubscribe] change the registries, whether
    the application calls them or a handler does. *)
Lemma step_registries s call :
  (forall h hd d, no_registration (call_handler env h hd d)) ->
  is_registration call = false ->
  keeps_registries (client s) (client (step env s call)).
Proof.
  intros Hnone.
  destruct call; try (intros _; apply step_disconnect_facts);
    cbn [step after client is_registration]; intros Hc; try discriminate.
  - apply connect_facts.
  - apply on_open_facts.
  - apply on_message_registries. exact Hnone.
  - apply on_error_facts.
  - apply (on_close_facts w status msg).
  - destruct (asleep s) as [|[th seconds] rest]; cbn [after client];
      [apply keeps_registries_refl | apply after_sleep_facts].
  - match goal with
    | |- context [_send_ping ?e 1 ?h ?c] =>
        destruct (send_ping_facts e 1 h c) as (_ & -> & _)
    end.
    apply keeps_registries_refl.
Qed.

(** Only [_on_open] sends an auth message. *)
Lemma step_no_auth s call :
  is_open call = false ->
  auth_sends (trace (step env s call)) = auth_sends (trace s).
Proof.
  intros Hc.
  destruct call; try apply step_disconnect_facts;
    cbn [step after client trace is_open] in *;
    try discriminate; rewrite ?extend_app.
  - apply auth_sends_app, connect_facts.
  - apply auth_sends_app, subscribe_facts.
  - apply auth_sends_app, unsubscribe_facts.
  - apply auth_sends_app, on_message_fields.
  - apply auth_sends_app, on_error_facts.
  - apply auth_sends_app, (on_close_facts w status msg).
  - destruct (asleep s) as [|[th seconds] rest]; [reflexivity|]. cbn [after trace].
    rewrite extend_app. apply auth_sends_app, after_sleep_facts.
  - apply auth_sends_app, send_ping_facts.
Qed.

(** While the client is not marked connected nothing is sent, and only
    [_on_open] marks it connected. *)
Lemma step_unconnected s call :
  is_connected (client s) = false -> is_open call = false ->
  is_connected (client (step env s call)) = false /\
  sends (trace (step env s call)) = sends (trace s).
Proof.
  intros Hconn Hcall.
  destruct call; cbn [is_open] in Hcall; try discriminate;
    try (destruct (step_disconnect_facts s) as (_ & _ & _ & _ & _ & _ & Hs & Hc);
         split; [now apply Hc | exact Hs]);
    cbn [step after client trace]; rewrite ?extend_app, ?sends_app.
  - match goal with |- context [connect ?e ?h ?c] =>
      destruct (connect_unconnected e h c) as (_ & -> & ->) end.
    rewrite app_nil_r. auto.
  - match goal with |- context [subscribe ?e ?ch ?ps ?hd ?h ?c] =>
      destruct (@subscribe_unconnected e ch ps hd h c Hconn) as [-> ->] end.
    rewrite app_nil_r. auto.
  - match goal with |- context [unsubscribe ?e ?ch ?ps ?hd ?h ?c] =>
      destruct (@unsubscribe_unconnected e ch ps hd h c Hconn) as [-> ->] end.
    rewrite app_nil_r. auto.
  - match goal with |- context [_on_message ?e ?w ?m ?h ?c] =>
      destruct (@on_message_unconnected e w m h c Hconn) as [-> ->] end.
    rewrite app_nil_r. auto.
  - unfold _on_error. go. cbn. rewrite app_nil_r. auto.
  - destruct (running (client s)) eqn:Hr.
    + destruct (Z.lt_ge_cases (reconnect_attempts (client s))
                  (max_reconnect_attempts (client s))) as [Hlt|Hge].
      * rewrite on_close_retry by assumption. cbn. rewrite app_nil_r. auto.
      * rewrite on_close_give_up by assumption. cbn. rewrite app_nil_r. auto.
    + rewrite on_close_intended by assumption. cbn. rewrite app_nil_r. auto.
  - destruct (asleep s) as [|[th seconds] rest]; [auto|]. cbn [after client trace].
    rewrite extend_app, sends_app.
    match goal with |- context [_attempt_reconnect_after_sleep ?e ?h ?c] =>
      destruct (tame_after_sleep e h c) as (_ & _ & _ & _ & _ & -> & -> & _) end.
    rewrite app_nil_r. auto.
  - match goal with
    | |- context [_send_ping ?e 1 ?h ?c] =>
        destruct (send_ping_facts e 1 h c) as (_ & Hc & _)
    end.
    rewrite Hc. split; [exact Hconn|].
    cbn [_send_ping]. go. rewrite Hconn, andb_false_r. go. cbn.
    now rewrite app_nil_r.
Qed.

Lemma run_app s calls calls' :
  run env s (calls ++ calls') = run env (run env s calls) calls'.
Proof. unfold run. apply fold_left_app. Qed.

Lemma run_budget calls : forall s,
  within_budget (client s) ->
  within_budget (client (run env s calls)) /\
  max_reconnect_attempts (client (run env s calls)) =
  max_reconnect_attempts (client s).
Proof.
  induction calls as [|call calls IH]; intros s Hb; cbn [run fold_left].
  - auto.
  - destruct (IH (step env s call) (step_budget s call Hb)) as [H1 H2].
    split; [exact H1|]. unfold run in H2. rewrite H2. apply step_policy.
Qed.

Lemma run_registries calls : forall s,
  (forall h hd d, no_registration (call_handler env h hd d)) ->
  forallb (fun call => negb (is_registration call)) calls = true ->
  keeps_registries (client s) (client (run env s calls)).
Proof.
  induction calls as [|call calls IH]; intros s Hnone Hc; cbn [run fold_left].
  - apply keeps_registries_refl.
  - cbn in Hc. apply andb_true_iff in Hc. destruct Hc as [H1 H2].
    apply negb_true_iff in H1.
    destruct (IH (step env s call) Hnone H2) as [Ha Hb].
    destruct (step_registries s call Hnone H1) as [Hc Hd].
    unfold run in *. split; congruence.
Qed.

Lemma run_no_auth calls : forall s,
  forallb (fun call => negb (is_open call)) calls = true ->
  auth_sends (trace (run env s calls)) = auth_sends (trace s).
Proof.
  induction calls as [|call calls IH]; intros s Hc; cbn [run fold_left].
  - reflexivity.
  - cbn in Hc. apply andb_true_iff in Hc. destruct Hc as [H1 H2].
    apply negb_true_iff in H1.
    pose proof (IH (step env s call) H2) as Ha. unfold run in Ha.
    rewrite Ha. now apply step_no_auth.
Qed.

(** What [subscribe] and [unsubscribe] maintain, whoever calls them. *)
Lemma step_registry_ok s call :
  registry_ok (client s) /\ lists_nonempty (subscribed_channels (client s)) ->
  registry_ok (client (step env s call)) /\
  lists_nonempty (subscribed_channels (client (step env s call))).
Proof.
  intros Hok.
  assert (Hkeep : forall c', keeps_registries (client s) c' ->
            registry_ok c' /\ lists_nonempty (subscribed_channels c')).
  { intros c' [Hs Hh]. unfold registry_ok. rewrite Hs, Hh. exact Hok. }
  destruct call; try (apply Hkeep; apply step_disconnect_facts);
    cbn [step after client].
  - apply Hkeep, connect_facts.
  - split; [now apply subscribe_registry_ok | now apply subscribe_lists_nonempty].
  - split; [now apply unsubscribe_registry_ok|].
    apply unsubscribe_lists_nonempty; [apply Hok | apply Hok].
  - apply Hkeep, on_open_facts.
  - now apply on_message_registry_ok.
  - apply Hkeep, on_error_facts.
  - apply Hkeep, (on_close_facts w status msg).
  - destruct (asleep s) as [|[th seconds] rest]; cbn [after client];
      [exact Hok | apply Hkeep, after_sleep_facts].
  - match goal with
    | |- context [_send_ping ?e 1 ?h ?c] =>
        destruct (send_ping_facts e 1 h c) as (_ & -> & _)
    end.
    exact Hok.
Qed.

Lemma run_registry_ok calls : forall s,
  registry_ok (client s) /\ lists_nonempty (subscribed_channels (client s)) ->
  registry_ok (client (run env s calls)) /\
  lists_nonempty (subscribed_channels (client (run env s calls))).
Proof.
  induction calls as [|call calls IH]; intros s Hs; cbn [run fold_left].
  - exact Hs.
  - apply IH. now apply step_registry_ok.
Qed.

(** Every client reached from a fresh one has well-formed registries. *)
Lemma reachable_registry_ok key dbg calls :
  registry_ok (client (run env (boot key dbg) calls)) /\
  lists_nonempty (subscribed_channels (client (run env (boot key dbg) calls))).
Proof.
  apply run_registry_ok. split.
  - repeat split; try constructor; intros k l; discriminate.
  - intros k l; discriminate.
Qed.
End SchedulerFacts.

Section Stopped.
Variable env : Env.
Hypothesis handlers_ok : forall h hd d, no_connect (call_handler env h hd d).

Lemma on_message_stopped t zs w message h c :
  running c = false ->
  let r := _on_message (on_thread t zs env) w message h c in
  running (res_client r) = false /\ opens (res_events r) = [].
Proof.
  intros Hr.
  destruct (@on_message_inv (on_thread t zs env) (fun k => negb (connects k))
              (fun c' => running c' = false)
              (fun evs => opens evs = [])) with (w := w) (message := message)
              (h := h) (c := c) as (Hc & Ho & _); auto.
  - intros a b Ha Hb. now rewrite opens_app, Ha, Hb.
  - intros k h' c' Hk Hc'. destruct k as [ch ps hd|ch ps hd| |];
      cbn [client_call connects negb] in *; try discriminate.
    + destruct (subscribe_facts (on_thread t zs env) ch ps hd h' c')
        as (_ & _ & _ & -> & -> & _). auto.
    + destruct (unsubscribe_facts (on_thread t zs env) ch ps hd h' c')
        as (_ & _ & _ & -> & -> & _). auto.
    + destruct (disconnect_facts (on_thread t zs env) h' c')
        as (_ & _ & _ & -> & -> & _). auto.
  - intros h' c' _. apply opens_resubscribe_channels.
Qed.

(** A client that is not running and has no thread in a backoff sleep
    stays so, and opens no transport, until [connect] is called. *)
Lemma step_stopped s call :
  running (client s) = false -> asleep s = [] -> is_connect call = false ->
  running (client (step env s call)) = false /\
  asleep (step env s call) = [] /\
  opens (trace (step env s call)) = opens (trace s).
Proof.
  intros Hr Hs Hc.
  destruct call; cbn [step after client asleep trace is_connect] in *;
    try discriminate; rewrite ?Hs; cbn [woken_by_join];
    rewrite ?extend_app, ?opens_app.
  - unfold woken_by_join. rewrite Hr. cbn [after client asleep trace].
    rewrite disconnect_stopped by assumption. cbn. rewrite ?opens_app; cbn; rewrite ?app_nil_r. auto.
  - match goal with |- context [subscribe ?e ?ch ?ps ?hd ?h ?c] =>
      destruct (subscribe_facts e ch ps hd h c) as (_ & _ & _ & -> & -> & _) end.
    rewrite ?app_nil_r. auto.
  - match goal with |- context [unsubscribe ?e ?ch ?ps ?hd ?h ?c] =>
      destruct (unsubscribe_facts e ch ps hd h c) as (_ & _ & _ & -> & -> & _) end.
    rewrite ?app_nil_r. auto.
  - match goal with |- context [_on_open ?e ?w ?h ?c] =>
      destruct (on_open_facts e w h c) as (_ & _ & _ & -> & -> & _) end.
    rewrite ?app_nil_r. auto.
  - destruct (@on_message_stopped (runner w) [] w message (trace s) (client s) Hr)
      as [-> ->].
    rewrite ?app_nil_r. auto.
  - destruct (on_error_facts w error (trace s) (client s))
      as (_ & _ & _ & -> & -> & _). rewrite app_nil_r. auto.
  - destruct (on_close_facts w status msg (trace s) (client s))
      as (_ & _ & _ & -> & _ & Hstop).
    destruct (Hstop Hr) as [-> ->]. rewrite app_nil_r. auto.
  - auto.
  - match goal with
    | |- context [_send_ping ?e 1 ?h ?c] =>
        destruct (send_ping_facts e 1 h c) as (_ & -> & -> & _)
    end.
    rewrite ?app_nil_r. auto.
Qed.

Lemma run_stopped calls : forall s,
  running (client s) = false -> asleep s = [] ->
  forallb (fun call => negb (is_connect call)) calls = true ->
  running (client (run env s calls)) = false /\
  opens (trace (run env s calls)) = opens (trace s).
Proof.
  induction calls as [|call calls IH]; intros s Hr Hs Hc; cbn [run fold_left].
  - auto.
  - cbn in Hc. apply andb_true_iff in Hc. destruct Hc as [H1 H2].
    apply negb_true_iff in H1.
    destruct (step_stopped s call Hr Hs H1) as (Hr' & Hs' & Ho').
    destruct (IH (step env s call) Hr' Hs' H2) as [Ha Hb].
    unfold run in *. split; congruence.
Qed.
End Stopped.
(** * The claims *)


(** C6: an auth result with [success] false (or absent).  The
    authenticated flag becomes false and nothing else of the client
    changes, so it stays connected; the failure is logged; no message at
    all is sent in response, so no replay and no new auth message; and in
    any run without a transport open, no auth message is sent. *)
Theorem auth_failure_stays_connected env w message data h c :
  json_loads env message = Ret data ->
  is_dict data = true ->
  data_get data "op" JNull = JStr "auth" ->
  data_get data "success" (JBool false) = JBool false ->
  let r := _on_message env w message h c in
  res_out r = Ret tt /\
  res_client r = set_is_authenticated (JBool false) c /\
  is_authenticated (res_client r) = JBool false /\
  is_connected (res_client r) = is_connected c /\
  sends (res_events r) = [] /\
  res_events r =
    [EvLog DEBUG (ReceivedMessage data);
     EvLog ERROR (AuthenticationFailed
                    (data_get data "message" (JStr "Unknown error")))] /\
  forall s calls,
    forallb (fun call => negb (is_open call)) calls = true ->
    auth_sends (trace (run env s calls)) = auth_sends (trace s).
Proof.
  intros Hl Hd Hop Hsucc r. subst r.
  unfold _on_message, loads. go. rewrite Hl. go.
  rewrite Hd, Hop, Hsucc. cbn [json_eq_str String.eqb Ascii.eqb Bool.eqb andb].
  go. cbn [truthy]. go.
  repeat split; try reflexivity.
  intros s calls Hc. now apply run_no_auth.
Qed.

Lemma auth_failure_stays_connected_witness :
  let r := _on_message sample_env 0%nat "auth bad key" [] sample_client in
  is_authenticated (res_client r) = JBool false /\
  is_connected (res_client r) = true /\
  sends (res_events r) = [] /\
  logs (res_events r) =
    [(DEBUG, ReceivedMessage
               (JObj [("op", JStr "auth"); ("success", JBool false);
                      ("message", JStr "bad key")]));
     (ERROR, AuthenticationFailed (JStr "bad key"))].
Proof.
  pose proof (@auth_failure_stays_connected sample_env 0%nat "auth bad key"
                (JObj [("op", JStr "auth"); ("success", JBool false);
                       ("message", JStr "bad key")])
                [] sample_client eq_refl eq_refl eq_refl eq_refl)
    as (_ & _ & Ha & Hc & Hs & Hev & _).
  split; [exact Ha|]. split; [exact Hc|]. split; [exact Hs|].
  cbv zeta. rewrite Hev. reflexivity.
Defined.

Lemma dict_split {V} (d : PyDict.t V) k v :
  PyDict.wf d -> PyDict.get k d = Some v ->
  exists before after,
    d = before ++ (k, v) :: after /\
    ~ In k (map fst before) /\ ~ In k (map fst after).
Proof.
  unfold PyDict.wf, PyDict.keys.
  induction d as [|[k0 v0] d IH]; simpl; intros Hnd Hget; [discriminate|].
  inversion Hnd as [|? ? Hnin Hnd']; subst.
  destruct (String.eqb k k0) eqn:E.
  - apply String.eqb_eq in E; subst k0. injection Hget as ->.
    exists [], d. simpl. auto.
  - destruct (IH Hnd' Hget) as (before & after & -> & Hb & Ha).
    exists ((k0, v0) :: before), after. simpl. repeat split; auto.
    apply String.eqb_neq in E. intros [H|H]; [congruence | tauto].
Qed.

Lemma dict_in_get {V} (d : PyDict.t V) k v :
  PyDict.wf d -> In (k, v) d -> PyDict.get k d = Some v.
Proof.
  unfold PyDict.wf, PyDict.keys.
  induction d as [|[k0 v0] d IH]; simpl; intros Hnd Hin; [tauto|].
  inversion Hnd as [|? ? Hnin Hnd']; subst.
  destruct Hin as [[= -> ->]|Hin].
  - now rewrite String.eqb_refl.
  - destruct (String.eqb k k0) eqn:E; [|auto].
    apply String.eqb_eq in E; subst k0. exfalso. apply Hnin.
    change k with (fst (k, v)). now apply in_map.
Qed.

Lemma filter_keys {V} (f : string * V -> bool) (d : list (string * V)) k :
  ~ In k (map fst d) -> ~ In k (map fst (filter f d)).
Proof.
  intros Hn Hin. apply Hn. apply in_map_iff in Hin.
  destruct Hin as (x & Hx & Hin). apply filter_In in Hin.
  apply in_map_iff. exists x. tauto.
Qed.

Lemma on_message_auth env w message data h c :
  json_loads env message = Ret data ->
  is_dict data = true ->
  data_get data "op" JNull = JStr "auth" ->
  let r := _on_message env w message h c in
  res_out r = Ret tt /\
  res_client r = set_is_authenticated (data_get data "success" (JBool false)) c.
Proof.
  intros Hl Hd Hop. unfold _on_message, loads. go. rewrite Hl. go.
  rewrite Hd, Hop. cbn [json_eq_str String.eqb Ascii.eqb Bool.eqb andb]. go.
  destruct (truthy (data_get data "success" (JBool false))); go.
  - match goal with
    | |- context [_resubscribe_channels env ?h' ?c'] =>
        rewrite (quiet_eq h' c' (quiet_resubscribe_channels env))
    end.
    cbn. auto.
  - cbn. auto.
Qed.

(** C2: replay after an auth success.  On a connected client, an auth
    result with a truthy [success] makes [_on_message] send one subscribe
    message per registry entry with a non-empty parameter list, in
    registry order, each carrying "channel:param" for all the parameters of
    the entry in their order; a channel with parameters has exactly one
    entry among the replayed ones; the replay changes neither registry;
    and no call other than subscribe and unsubscribe ever does, whether
    the application makes it or a handler, so the registries after the
    replay are those from before the disconnect. *)
Theorem replay_after_auth env w message data transport h c :
  json_loads env message = Ret data ->
  is_dict data = true ->
  data_get data "op" JNull = JStr "auth" ->
  truthy (data_get data "success" (JBool false)) = true ->
  is_connected c = true ->
  ws c = Some transport ->
  PyDict.wf (subscribed_channels c) ->
  let r := _on_message env w message h c in
  let replayed := filter has_params (PyDict.items (subscribed_channels c)) in
  sends (res_events r) = map subscribe_message replayed /\
  (forall channel params,
     PyDict.get channel (subscribed_channels c) = Some params -> params <> [] ->
     exists before after,
       replayed = before ++ (channel, params) :: after /\
       ~ In channel (map fst before) /\ ~ In channel (map fst after)) /\
  (forall channel params,
     In (channel, params) replayed ->
     PyDict.get channel (subscribed_channels c) = Some params /\ params <> []) /\
  subscribed_channels (res_client r) = subscribed_channels c /\
  handlers (res_client r) = handlers c /\
  forall s calls,
    (forall h' hd d, no_registration (call_handler env h' hd d)) ->
    forallb (fun call => negb (is_registration call)) calls = true ->
    keeps_registries (client s) (client (run env s calls)).
Proof.
  intros Hl Hd Hop Hsucc Hconn Hws Hwf r replayed. subst r replayed.
  split.
  { unfold _on_message, loads. go. rewrite Hl. go.
    rewrite Hd, Hop. cbn [json_eq_str String.eqb Ascii.eqb Bool.eqb andb].
    go. rewrite Hsucc. go.
    match goal with
    | |- context [_resubscribe_channels env ?h' ?c'] =>
        pose proof (sends_resubscribe_channels env h' c') as Hs;
        rewrite (quiet_eq h' c' (quiet_resubscribe_channels env))
    end.
    cbn [prefix res_events app sends]. rewrite Hs.
    unfold can_send. proj_m. rewrite Hconn, Hws, Hsucc. reflexivity. }
  split.
  { intros channel params Hget Hne.
    destruct (@dict_split _ _ channel params Hwf Hget) as (before & after & Heq & Hb & Ha).
    exists (filter has_params before), (filter has_params after).
    unfold PyDict.items. rewrite Heq, filter_app. cbn [filter].
    assert (Hp : has_params (channel, params) = true)
      by (destruct params; [congruence | reflexivity]).
    rewrite Hp. repeat split; auto using filter_keys. }
  split.
  { intros channel params Hin. apply filter_In in Hin. destruct Hin as [Hin Hp].
    split; [now apply (@dict_in_get _ (subscribed_channels c))|].
    intros ->. discriminate. }
  destruct (@on_message_auth env w message data h c Hl Hd Hop) as [_ Hcl].
  rewrite Hcl. split; [reflexivity|]. split; [reflexivity|].
  intros s calls Hnone Hc. now apply run_registries.
Qed.

(** The scenario of the specification: "liquidation" registered for BTC
    and ETH is replayed as one message with both arguments. *)
Lemma replay_after_auth_witness :
  let r := _on_message sample_env 0%nat "auth ok" [] sample_client in
  sends (res_events r) = [WSubscribe ["liquidation:BTC"; "liquidation:ETH"]] /\
  subscribed_channels (res_client r) = [("liquidation", ["BTC"; "ETH"])] /\
  handlers (res_client r) = [("liquidation", [1%nat; 2%nat])].
Proof.
  assert (Hwf : PyDict.wf (subscribed_channels sample_client))
    by (repeat constructor; simpl; tauto).
  pose proof (@replay_after_auth sample_env 0%nat "auth ok"
                (JObj [("op", JStr "auth"); ("success", JBool true)])
                0%nat [] sample_client
                eq_refl eq_refl eq_refl eq_refl eq_refl eq_refl Hwf)
    as (Hs & _ & _ & Hsub & Hh & _).
  split; [exact Hs|]. split; [exact Hsub | exact Hh].
Defined.

(** C3: subscribe is idempotent on the wire.  Two [subscribe] calls in a
    row with the same non-empty arguments send at most one control message
    between them; the second sends nothing and returns the client exactly
    as the first left it. *)
Theorem subscribe_twice env channel params handler h h' c :
  channel <> ""%string -> params <> [] ->
  let r1 := subscribe env channel params handler h c in
  let r2 := subscribe env channel params handler h' (res_client r1) in
  (length (sends (res_events r1)) + length (sends (res_events r2)) <= 1)%nat /\
  forallb is_subscribe (sends (res_events r1)) = true /\
  sends (res_events r2) = [] /\
  subscribed_channels (res_client r2) = subscribed_channels (res_client r1) /\
  handlers (res_client r2) = handlers (res_client r1) /\
  res_client r2 = res_client r1.
Proof.
  intros Hch Hps r1 r2. subst r1 r2.
  rewrite !subscribe_run by assumption.
  cbn [res_client res_events].
  set (c1 := set_subscribed_channels _ _).
  assert (Hh1 : handlers c1 = handlers_after_subscribe channel handler (handlers c))
    by reflexivity.
  assert (Hs1 : subscribed_channels c1 =
                subscribed_after_subscribe channel params (subscribed_channels c))
    by reflexivity.
  (* after the first call the handler and the parameters are registered *)
  assert (Hin : handler_in handler (get_list channel (handlers c1)) = true).
  { rewrite Hh1. unfold handlers_after_subscribe.
    destruct (handler_in handler (get_list channel (handlers c))) eqn:E;
      [exact E|].
    unfold get_list at 1. rewrite PyDictFacts.get_set_same.
    apply handler_in_In, in_or_app. right. now left. }
  assert (Hget : PyDict.get channel (subscribed_channels c1) =
                 Some (get_list channel (subscribed_channels c) ++
                       fresh_params params (get_list channel (subscribed_channels c)))).
  { rewrite Hs1. unfold subscribed_after_subscribe.
    apply PyDictFacts.get_set_same. }
  assert (Hfresh : fresh_params params (get_list channel (subscribed_channels c1)) = []).
  { unfold get_list at 1. rewrite Hget. apply fresh_params_registered.
    intros p Hp. now apply fresh_params_covers. }
  assert (Hc2 : set_subscribed_channels
                  (subscribed_after_subscribe channel params (subscribed_channels c1))
                  (set_handlers
                     (handlers_after_subscribe channel handler (handlers c1)) c1)
                = c1).
  { unfold handlers_after_subscribe at 1. rewrite Hin.
    unfold subscribed_after_subscribe at 1. rewrite Hfresh, app_nil_r.
    unfold get_list. rewrite Hget.
    rewrite (PyDictFacts.set_get_same _ _ Hget).
    rewrite set_handlers_same. apply set_subscribed_channels_same. }
  assert (Hs2 : sends (subscribe_events env channel params handler h' c1) = []).
  { unfold subscribe_events. rewrite Hin, Hfresh. reflexivity. }
  assert (Hs1' : (length (sends (subscribe_events env channel params handler h c)) <= 1)%nat
                 /\ forallb is_subscribe
                      (sends (subscribe_events env channel params handler h c)) = true).
  { unfold subscribe_events. rewrite sends_app.
    destruct (handler_in handler (get_list channel (handlers c))); cbn [sends app];
      (destruct (is_empty _); [cbn; auto|]);
      (destruct (is_connected c && truthy (is_authenticated c)); [|cbn; auto]);
      rewrite sends_app, sends_send_events;
      destruct (can_send _); cbn; auto. }
  rewrite Hs2, Hc2. cbn [length]. destruct Hs1' as [Hlen Hsub].
  repeat split; try reflexivity; try assumption. lia.
Qed.

Lemma subscribe_twice_witness :
  let c := init "key" false in
  let c0 := set_is_authenticated (JBool true) (set_is_connected true (set_ws (Some 0%nat) c)) in
  let r1 := subscribe sample_env "liquidation" ["BTC"; "ETH"] 1%nat [] c0 in
  let r2 := subscribe sample_env "liquidation" ["BTC"; "ETH"] 1%nat
              (res_events r1) (res_client r1) in
  sends (res_events r1) = [WSubscribe ["liquidation:BTC"; "liquidation:ETH"]] /\
  sends (res_events r2) = [] /\
  res_client r2 = res_client r1.
Proof.
  intros c c0 r1 r2.
  assert (Hch : "liquidation"%string <> ""%string) by discriminate.
  assert (Hps : ["BTC"; "ETH"]%string <> []) by discriminate.
  pose proof (@subscribe_twice sample_env "liquidation" ["BTC"; "ETH"]%string
                1%nat [] (res_events r1) c0 Hch Hps)
    as (_ & _ & H2 & _ & _ & Hc).
  split; [reflexivity|]. split; [exact H2 | exact Hc].
Defined.




(** C4 as stated fails: "liquidation" is registered for BTC and ETH with
    handlers 1 and 2; unsubscribing XRP with handler 1 meets the early
    return of [unsubscribe] and leaves handler 1 in the list. *)
Lemma unsubscribe_keeps_handler_without_match :
  PyDict.get "liquidation" (subscribed_channels sample_client) = Some ["BTC"; "ETH"] /\
  PyDict.get "liquidation" (handlers sample_client) = Some [1%nat; 2%nat] /\
  PyDict.get "liquidation"
    (handlers (res_client (unsubscribe sample_env "liquidation" ["XRP"]
                             (Some 1%nat) [] sample_client))) =
  Some [1%nat; 2%nat] /\
  ~ removes_given_handler sample_env "liquidation" ["XRP"] 1%nat [] sample_client.
Proof.
  repeat split; try reflexivity.
  intros H. specialize (H [1%nat; 2%nat] eq_refl (or_introl eq_refl)).
  vm_compute in H. discriminate.
Qed.

Lemma filter_keeps_all (params registered : list string) :
  (forall p, In p params -> ~ In p registered) ->
  filter (fun p => negb (str_in p params)) registered = registered.
Proof.
  intros Hdis. apply forallb_filter_id. apply forallb_forall.
  intros p Hp. apply negb_true_iff.
  destruct (str_in p params) eqn:E; [|reflexivity].
  apply str_in_In in E. exfalso. eapply Hdis; eauto.
Qed.

(** C4, amended: [unsubscribe] on a registered channel.  The parameters
    left for the channel are the registered ones that are not in [params],
    in their order, and no other channel is touched.  When some parameter
    of the call is registered: the channel's entry is deleted if nothing
    is left, and a given handler that is in the channel's handler list is
    removed from it, every other handler of the list staying.  When no
    parameter of the call is registered, the call changes nothing. *)
Theorem unsubscribe_removes_intersection env channel params handler registered h c :
  PyDict.get channel (subscribed_channels c) = Some registered ->
  NoDup registered ->
  PyDict.wf (subscribed_channels c) ->
  let r := unsubscribe env channel params handler h c in
  let c' := res_client r in
  let remaining := filter (fun p => negb (str_in p params)) registered in
  res_out r = Ret tt /\
  get_list channel (subscribed_channels c') = remaining /\
  (forall p, In p (get_list channel (subscribed_channels c')) <->
             In p registered /\ ~ In p params) /\
  (forall other, other <> channel ->
     PyDict.get other (subscribed_channels c') =
     PyDict.get other (subscribed_channels c)) /\
  (forall other, other <> channel ->
     PyDict.get other (handlers c') = PyDict.get other (handlers c)) /\
  ((exists p, In p params /\ In p registered) ->
   PyDict.get channel (subscribed_channels c') =
     (if is_empty remaining then None else Some remaining) /\
   forall hd l,
     handler = Some hd ->
     PyDict.get channel (handlers c) = Some l -> In hd l ->
     PyDict.get channel (handlers c') = Some (handler_remove hd l) /\
     (forall hd', hd' <> hd -> (In hd' (handler_remove hd l) <-> In hd' l)) /\
     (NoDup l -> ~ In hd (handler_remove hd l))) /\
  ((forall p, In p params -> ~ In p registered) -> c' = c).
Proof.
  intros Hget Hnd Hwf r c' remaining. subst r c' remaining.
  assert (Hc : PyDict.contains channel (subscribed_channels c) = true)
    by (unfold PyDict.contains; now rewrite Hget).
  assert (Hcur : get_list channel (subscribed_channels c) = registered)
    by (unfold get_list; now rewrite Hget).
  assert (Hmem : forall p, In p (filter (fun p => negb (str_in p params)) registered)
                           <-> In p registered /\ ~ In p params).
  { intros p. rewrite filter_In, negb_true_iff.
    assert (E : str_in p params = false <-> ~ In p params).
    { rewrite <- str_in_In. destruct (str_in p params); intuition congruence. }
    tauto. }
  destruct (params_to_unsubscribe params registered) as [|s0 sel] eqn:Hsel.
  - (* nothing to remove: the early return *)
    assert (Hdis : forall p, In p params -> ~ In p registered).
    { intros p Hp Hr.
      assert (Hin : In p (params_to_unsubscribe params registered))
        by (apply unsubscribe_loop_selected; auto).
      rewrite Hsel in Hin. destruct Hin. }
    rewrite unsubscribe_nothing by (rewrite ?Hcur; assumption).
    cbn [res_out res_client]. rewrite Hcur, filter_keeps_all by assumption.
    split; [reflexivity|]. split; [reflexivity|].
    split.
    { intros p. split; [|tauto].
      intros H. split; [exact H|]. intros Hp. eapply Hdis; eauto. }
    split; [now intros|]. split; [now intros|].
    split; [|now intros].
    intros (p & Hp & Hr). exfalso. eapply Hdis; eauto.
  - (* something to remove *)
    assert (Hsome : params_to_unsubscribe params
                      (get_list channel (subscribed_channels c)) <> [])
      by (rewrite Hcur, Hsel; discriminate).
    destruct (unsubscribe_client env channel params handler h c Hc Hsome)
      as (Ho & Hcl & _).
    rewrite Ho, Hcl. proj_m.
    unfold subscribed_after_unsubscribe, handlers_after_unsubscribe.
    rewrite Hcur. unfold remaining_params.
    rewrite (unsubscribe_loop_remaining params [] Hnd).
    set (remaining := filter (fun p => negb (str_in p params)) registered) in *.
    assert (Hsub : get_list channel
                     (if is_empty remaining
                      then PyDict.del channel (subscribed_channels c)
                      else PyDict.set channel remaining (subscribed_channels c))
                   = remaining).
    { unfold get_list. destruct remaining as [|p0 rest] eqn:Hrem; cbn [is_empty].
      - now rewrite PyDictFacts.get_del_same.
      - now rewrite PyDictFacts.get_set_same. }
    split; [reflexivity|]. split; [exact Hsub|].
    split; [intros p; rewrite Hsub; apply Hmem|].
    split.
    { intros other Hne. destruct (is_empty remaining);
        [now apply PyDictFacts.get_del_other | now apply PyDictFacts.get_set_other]. }
    split.
    { intros other Hne.
      destruct (PyDict.get channel (handlers c)) as [l|]; [|reflexivity].
      destruct handler as [hd|].
      - destruct (handler_in hd l); [now apply PyDictFacts.get_set_other | reflexivity].
      - destruct (is_empty remaining);
          [now apply PyDictFacts.get_del_other | reflexivity]. }
    split.
    { intros _. split.
      - destruct remaining as [|p0 rest]; cbn [is_empty].
        + now apply PyDictFacts.get_del_same.
        + apply PyDictFacts.get_set_same.
      - intros hd l -> Hl Hin. rewrite Hl.
        assert (E : handler_in hd l = true) by now apply handler_in_In.
        rewrite E. split; [apply PyDictFacts.get_set_same|].
        split; [intros hd' Hne; now apply handler_remove_other|].
        apply handler_remove_gone. }
    intros Hdis. exfalso.
    assert (Hin : In s0 (params_to_unsubscribe params registered))
      by (rewrite Hsel; now left).
    apply unsubscribe_loop_selected in Hin. destruct Hin as [[]|[Hp Hr]].
    eapply Hdis; eauto.
Qed.

Lemma unsubscribe_removes_intersection_witness :
  let r := unsubscribe sample_env "liquidation" ["ETH"; "XRP"] (Some 1%nat) []
             sample_client in
  subscribed_channels (res_client r) = [("liquidation", ["BTC"])] /\
  get_list "liquidation" (subscribed_channels (res_client r)) = ["BTC"] /\
  PyDict.get "liquidation" (handlers (res_client r)) = Some [2%nat].
Proof.
  assert (Hnd : NoDup ["BTC"; "ETH"]%string).
  { repeat constructor; simpl; intuition discriminate. }
  assert (Hwf : PyDict.wf (subscribed_channels sample_client))
    by (repeat constructor; simpl; tauto).
  pose proof (@unsubscribe_removes_intersection sample_env "liquidation"
                ["ETH"; "XRP"]%string (Some 1%nat) ["BTC"; "ETH"]%string []
                sample_client eq_refl Hnd Hwf)
    as (_ & Hrem & _ & _ & _ & Hinter & _).
  assert (Hex : exists p, In p ["ETH"; "XRP"]%string /\ In p ["BTC"; "ETH"]%string)
    by (exists "ETH"%string; simpl; auto).
  destruct (Hinter Hex) as [_ Hh].
  destruct (Hh 1%nat [1%nat; 2%nat] eq_refl eq_refl (or_introl eq_refl))
    as (Hgone & _).
  split; [reflexivity|]. split; [exact Hrem | exact Hgone].
Defined.

Section Reconnect.
Variable env : Env.

Lemma connect_starts h c :
  running c = false ->
  let r := connect env h c in
  running (res_client r) = true.
Proof.
  intros Hr. unfold connect. go. rewrite Hr. go.
  match goal with
  | |- context [_start_ws_thread env ?h' ?c'] =>
      destruct (start_ws_thread_facts env h' c') as (_ & _ & _ & _ & Hu & _);
      destruct (_start_ws_thread env h' c') as [o c1 e1]
  end.
  cbn in *. exact Hu.
Qed.

(** [_on_close], the method, is [_on_close_until_sleep] followed, when
    it slept, by the rest of [_attempt_reconnect]. *)
Lemma on_close_split w code msg h c :
  _on_close env w code msg h c =
  bind (_on_close_until_sleep w code msg)
    (fun slept =>
       match slept with
       | Some _ => _attempt_reconnect_after_sleep env
       | None => ret tt
       end) h c.
Proof.
  unfold _on_close, _on_close_until_sleep, on_close_body, _attempt_reconnect,
    _attempt_reconnect_until_sleep.
  go. destruct (running c) eqn:Hr; go; rewrite ?Hr; go; [|reflexivity].
  destruct (reconnect_attempts c <? max_reconnect_attempts c); go;
    [|reflexivity].
  rewrite <- !app_assoc. cbn [app].
  match goal with
  | |- context [_attempt_reconnect_after_sleep env ?h' ?c'] =>
      destruct (_attempt_reconnect_after_sleep env h' c') as [o c1 e1]
  end.
  reflexivity.
Qed.

(** One failed attempt: the close and the end of its backoff sleep. *)
Lemma close_then_wake s w code msg :
  running (client s) = true ->
  reconnect_attempts (client s) < max_reconnect_attempts (client s) ->
  let s2 := step env (step env s (OnClose w code msg)) SleepEnds in
  running (client s2) = true /\
  reconnect_attempts (client s2) = reconnect_attempts (client s) + 1 /\
  keeps_policy (client s) (client s2) /\
  sleeping s2 = sleeping s /\
  sleeps (trace s2) =
    sleeps (trace s) ++
    [reconnect_interval (client s) * 2 ^ (reconnect_attempts (client s) + 1 - 1)].
Proof.
  intros Hr Hlt. cbn [step]. rewrite on_close_retry by assumption.
  cbn [after res_out res_client res_events asleep client trace extend].
  unfold sleeping.
  destruct (asleep s) as [|[th0 z0] rest0]; cbn [app asleep];
    match goal with
    | |- context [_attempt_reconnect_after_sleep ?e ?h' ?c'] =>
        destruct (after_sleep_facts e h' c') as (_ & Hp & _ & Ha & Hu & _ & Hs);
        destruct (_attempt_reconnect_after_sleep e h' c') as [o c1 e1]
    end;
    cbn [after res_out res_client res_events asleep client trace] in *;
    rewrite !extend_app, !sleeps_app, Hs, app_nil_r; cbn [sleeps];
    rewrite Hu, Ha; proj_m; destruct Hp as (Hk & Hi & Hm);
    unfold keeps_policy; rewrite Hk, Hi, Hm; proj_m;
    rewrite ?length_app; cbn [length];
    repeat split; try reflexivity; try assumption; lia.
Qed.
End Reconnect.


Lemma next_attempt env s n slept w code msg :
  at_attempt s n slept -> n < 5 ->
  at_attempt (step env (step env s (OnClose w code msg)) SleepEnds)
    (n + 1) (slept ++ [5 * 2 ^ n]).
Proof.
  intros (Hr & Hn & Hi & Hm & Hs) Hlt.
  destruct (@close_then_wake env s w code msg Hr) as (Hr' & Hn' & Hp & _ & Hs').
  { rewrite Hn, Hm. exact Hlt. }
  destruct Hp as (_ & Hi' & Hm').
  unfold at_attempt. rewrite Hr', Hn', Hi', Hm', Hs', Hn, Hi, Hm, Hs.
  replace (n + 1 - 1) with n by lia. repeat split; reflexivity.
Qed.


Lemma five_failures_run env key dbg :
  at_attempt (run env (boot key dbg) (AppConnect :: five_failures)) 5
    [5; 10; 20; 40; 80].
Proof.
  set (s0 := step env (boot key dbg) AppConnect).
  assert (H0 : at_attempt s0 0 []).
  { subst s0. cbn [step boot trace client after asleep].
    set (e0 := on_thread main_thread [] env).
    pose proof (connect_starts e0 [] (init key dbg) eq_refl) as Hr.
    destruct (connect_facts e0 [] (init key dbg)) as ((_ & Hi & Hm) & _ & Ha & _ & Hs).
    unfold at_attempt, after. cbn [client trace boot]. rewrite extend_app.
    cbn [app]. cbv zeta in Hr.
    rewrite Hr, Ha, Hi, Hm, Hs. repeat split; reflexivity. }
  unfold five_failures. cbn [run fold_left]. fold s0.
  pose proof (@next_attempt env _ _ _ 0%nat None None H0 ltac:(lia)) as H1.
  pose proof (@next_attempt env _ _ _ 0%nat None None H1 ltac:(lia)) as H2.
  pose proof (@next_attempt env _ _ _ 0%nat None None H2 ltac:(lia)) as H3.
  pose proof (@next_attempt env _ _ _ 0%nat None None H3 ltac:(lia)) as H4.
  pose proof (@next_attempt env _ _ _ 0%nat None None H4 ltac:(lia)) as H5.
  exact H5.
Qed.

(** C7: the backoff.  An unexpected close with the counter below the
    maximum increments the counter and puts the thread to sleep, before
    any transport is opened, for [reconnect_interval * 2 ^ (attempt - 1)]
    seconds, [attempt] being the incremented counter, which is at least 1;
    from a fresh client with the default settings the five attempts wait
    5, 10, 20, 40 and 80 seconds. *)
Theorem backoff_wait env s w code msg :
  running (client s) = true ->
  0 <= reconnect_attempts (client s) < max_reconnect_attempts (client s) ->
  let s1 := step env s (OnClose w code msg) in
  let attempt := reconnect_attempts (client s1) in
  attempt = reconnect_attempts (client s) + 1 /\
  1 <= attempt <= max_reconnect_attempts (client s1) /\
  sleeps (trace s1) =
    sleeps (trace s) ++ [reconnect_interval (client s) * 2 ^ (attempt - 1)] /\
  opens (trace s1) = opens (trace s) /\
  sleeping s1 = S (sleeping s) /\
  sleeps (res_events (_on_close env w code msg (trace s) (client s))) =
    [reconnect_interval (client s) * 2 ^ (attempt - 1)] /\
  forall key dbg,
    sleeps (trace (run env (boot key dbg) (AppConnect :: five_failures))) =
    [5; 10; 20; 40; 80].
Proof.
  intros Hr [Hlo Hhi] s1 attempt. subst s1 attempt.
  split; [|split; [|split; [|split; [|split; [|split]]]]].
  - cbn [step]. rewrite on_close_retry by assumption. reflexivity.
  - cbn [step]. rewrite on_close_retry by assumption.
    cbn [after client res_client]. proj_m. lia.
  - cbn [step]. rewrite on_close_retry by assumption.
    cbn [after client trace res_client res_events res_out extend]. proj_m.
    rewrite sleeps_app. reflexivity.
  - cbn [step]. rewrite on_close_retry by assumption.
    cbn [after client trace res_client res_events res_out extend].
    rewrite opens_app. cbn [opens]. apply app_nil_r.
  - cbn [step]. rewrite on_close_retry by assumption.
    unfold sleeping. cbn [after asleep res_out].
    rewrite length_app. cbn [length]. lia.
  - rewrite on_close_split.
    rewrite (bind_eq _ (on_close_retry w code msg (trace s) (client s) Hr Hhi)).
    cbn [step]. rewrite on_close_retry by assumption.
    cbn [after client res_client]. proj_m.
    match goal with
    | |- context [_attempt_reconnect_after_sleep env ?h' ?c'] =>
        destruct (after_sleep_facts env h' c') as (_ & _ & _ & _ & _ & _ & Hs)
    end.
    rewrite res_events_prefix, sleeps_app, Hs. reflexivity.
  - intros key dbg. apply five_failures_run.
Qed.

Lemma backoff_wait_witness :
  let s := step sample_env (boot "key" false) AppConnect in
  let s1 := step sample_env s (OnClose 0%nat None None) in
  reconnect_attempts (client s1) = 1 /\
  sleeps (trace s1) = [5] /\
  sleeps (trace (run sample_env (boot "key" false) (AppConnect :: five_failures))) =
  [5; 10; 20; 40; 80].
Proof.
  intros s s1.
  assert (Hb : 0 <= reconnect_attempts (client s) < max_reconnect_attempts (client s))
    by (cbn; lia).
  pose proof (@backoff_wait sample_env s 0%nat None None eq_refl Hb)
    as (Ha & _ & Hs & _ & _ & _ & Hfive).
  split; [exact Ha|]. split; [exact Hs | exact (Hfive "key"%string false)].
Defined.

(** After the sleep, with the recorded transport thread not alive, a
    transport is built and its thread started, whatever [running] is. *)
Lemma after_sleep_builds env h c :
  (forall h', thread_alive env h' c = false) ->
  let r := _attempt_reconnect_after_sleep env h c in
  exists transport thread,
    opens (res_events r) = [transport] /\
    ws (res_client r) = Some transport /\
    _ws_thread (res_client r) = Some thread /\
    running (res_client r) = running c /\
    In (EvThreadStart thread (RunForever transport)) (res_events r).
Proof.
  intros Hdead. unfold _attempt_reconnect_after_sleep, call. go.
  destruct (ws c) as [transport|]; go.
  - unfold try_except.
    destruct (ws_close env h transport); go;
      rewrite start_ws_thread_run;
      match goal with |- context [thread_alive env ?h' c] =>
        rewrite (Hdead h') end;
      unfold started, start_events; cbn [res_client res_events res_out prefix];
      eexists _, _; rewrite ?opens_app; cbn [opens app];
      (split; [reflexivity|]); (split; [reflexivity|]); (split; [reflexivity|]);
      (split; [reflexivity|]); cbn; auto 12.
  - rewrite start_ws_thread_run, (Hdead h).
    unfold started, start_events. cbn [res_client res_events res_out prefix].
    eexists _, _. cbn [opens app].
    repeat split; try reflexivity. cbn. auto.
Qed.

(** [disconnect] on another thread than the transport's, while the
    transport thread stays alive: the [join] is made with the timeout and
    the warning that the thread did not end is logged. *)
Lemma disconnect_join_times_out env h c th :
  running c = true -> _ws_thread c = Some th -> th <> current_thread env ->
  (forall h', is_alive env h' th = true) ->
  In (EvJoin th JOIN_TIMEOUT) (res_events (disconnect env h c)) /\
  In (EvLog WARNING ThreadDidNotTerminate) (res_events (disconnect env h c)).
Proof.
  intros Hr Hth Hcur Halive.
  apply Nat.eqb_neq in Hcur.
  unfold disconnect, disconnect_body, disconnect_until_join,
    disconnect_after_join, thread_is_alive, thread_join, call, try_except.
  go. rewrite Hr. go.
  destruct (ws c) as [transport|]; go.
  - destruct (ws_close env _ transport); go; rewrite ?Hth; go;
      rewrite ?Hcur, ?Halive; go; rewrite ?Hcur, ?Halive; go;
      cbn [In]; split; auto 12.
  - rewrite ?Hth; go; rewrite ?Hcur, ?Halive; go; rewrite ?Hcur, ?Halive; go.
    cbn [In]; split; auto 12.
Qed.

(** C5, on the code.  What holds: in every run from a client whose
    counter is within its budget the counter stays within it and the
    maximum does not change; the open callback resets the counter to 0;
    an unexpected close that finds the counter at the maximum gives up: it
    sets [running] to false and opens nothing, and with no thread in a
    backoff sleep nothing is opened afterwards until [connect] is called,
    by the application or by a handler.  What fails: a thread that is
    still in a backoff sleep when the client gives up (a [disconnect]
    whose [join] timed out left it behind) does not look at [running] when
    it wakes up, and with the recorded transport thread not alive it
    builds a [WebSocketApp] and starts its thread: a further reconnect
    attempt, although no [connect] was called. *)
Theorem reconnect_budget env s calls :
  within_budget (client s) ->
  let s' := run env s calls in
  reconnect_attempts (client s') <= max_reconnect_attempts (client s') /\
  0 <= reconnect_attempts (client s') /\
  max_reconnect_attempts (client s') = max_reconnect_attempts (client s) /\
  (forall w, reconnect_attempts (client (step env s' (OnOpen w))) = 0) /\
  (forall w code msg,
     running (client s') = true ->
     reconnect_attempts (client s') = max_reconnect_attempts (client s') ->
     let s1 := step env s' (OnClose w code msg) in
     running (client s1) = false /\
     opens (trace s1) = opens (trace s') /\
     asleep s1 = asleep s' /\
     (asleep s' = [] ->
      (forall h hd d, no_connect (call_handler env h hd d)) ->
      forall later,
        forallb (fun call => negb (is_connect call)) later = true ->
        running (client (run env s1 later)) = false /\
        opens (trace (run env s1 later)) = opens (trace s')) /\
     (forall th seconds rest,
        asleep s' = (th, seconds) :: rest ->
        (forall h, thread_alive (on_thread th rest env) h (client s') = false) ->
        let s2 := step env s1 SleepEnds in
        running (client s2) = false /\
        exists transport thread,
          opens (trace s2) = opens (trace s') ++ [transport] /\
          ws (client s2) = Some transport /\
          In (EvThreadStart thread (RunForever transport)) (trace s2))).
Proof.
  intros Hb s'. subst s'.
  destruct (run_budget env calls s Hb) as [[Hlo Hhi] Hmax].
  split; [exact Hhi|]. split; [exact Hlo|]. split; [exact Hmax|].
  split.
  { intros w. cbn [step after client]. apply on_open_facts. }
  intros w code msg Hr Hfull s1. subst s1.
  set (s' := run env s calls) in *.
  assert (Hstep : step env s' (OnClose w code msg) =
                  mkSystem
                    (set_running false
                       (set_is_authenticated (JBool false)
                          (set_is_connected false (client s'))))
                    (asleep s')
                    (trace s' ++
                     [EvLog INFO (ConnectionClosed code msg);
                      EvLog WARNING ClosedUnexpectedly;
                      EvLog ERROR MaxReconnectAttemptsReached])).
  { cbn [step]. rewrite on_close_give_up by (assumption || lia).
    reflexivity. }
  rewrite Hstep. cbn [client trace asleep]. proj_m.
  assert (Ho : opens (trace s' ++
                      [EvLog INFO (ConnectionClosed code msg);
                       EvLog WARNING ClosedUnexpectedly;
                       EvLog ERROR MaxReconnectAttemptsReached]) = opens (trace s'))
    by (rewrite opens_app; apply app_nil_r).
  split; [reflexivity|]. split; [exact Ho|]. split; [reflexivity|]. split.
  - intros Hs Hhd later Hlater.
    match goal with
    | |- context [run env ?s1 later] =>
        destruct (@run_stopped env Hhd later s1 eq_refl Hs Hlater) as [H1 H2]
    end.
    split; [exact H1|]. rewrite H2. exact Ho.
  - intros th seconds rest Hs Hdead. cbn [step asleep client trace]. rewrite Hs.
    match goal with
    | |- context [_attempt_reconnect_after_sleep ?e ?h' ?c'] =>
        destruct (@after_sleep_builds e h' c') as (transport & thread & A & B & _ & C & D)
    end.
    { intros h'. exact (Hdead h'). }
    cbn [after client trace]. rewrite C. split; [reflexivity|].
    exists transport, thread. rewrite extend_app, opens_app, A, Ho.
    split; [reflexivity|]. split; [exact B|]. apply in_or_app. right. exact D.
Qed.

(** With the default settings: four failed connections that the
    application replaces after the sleep, a fifth failure during whose
    80 s sleep the application disconnects and connects again, and the
    close of the new transport, which finds the counter at the maximum and
    gives up; the thread left in the sleep then wakes up and builds a
    transport. *)
Lemma reconnect_budget_witness :
  let calls :=
    AppConnect :: retry_round 1%nat ++ retry_round 13%nat ++ retry_round 25%nat ++
    retry_round 37%nat ++ [OnClose 49%nat None None; AppDisconnect; AppConnect] in
  let s5 := run sample_env (boot "key" false) calls in
  let s6 := step sample_env s5 (OnClose 62%nat None None) in
  let s7 := step sample_env s6 SleepEnds in
  reconnect_attempts (client s5) = 5 /\
  asleep s5 = [(50%nat, 80)] /\
  running (client s6) = false /\
  running (client s7) = false /\
  exists transport,
    opens (trace s7) = opens (trace s5) ++ [transport] /\
    ws (client s7) = Some transport.
Proof.
  intros calls s5 s6 s7.
  assert (Hb : within_budget (client (boot "key" false))) by (cbv; split; discriminate).
  pose proof (@reconnect_budget sample_env (boot "key" false) calls Hb)
    as (_ & _ & _ & _ & Hstop).
  assert (Hr5 : running (client s5) = true) by (vm_compute; reflexivity).
  assert (Hn5 : reconnect_attempts (client s5) = max_reconnect_attempts (client s5))
    by (vm_compute; reflexivity).
  assert (Hs5 : asleep s5 = [(50%nat, 80)]) by (vm_compute; reflexivity).
  destruct (Hstop 62%nat None None Hr5 Hn5) as (Hr & _ & _ & _ & Hwake).
  assert (Hdead : forall h, thread_alive (on_thread 50%nat [] sample_env) h (client s5)
                            = false)
    by (intros h; vm_compute; reflexivity).
  destruct (Hwake 50%nat 80 [] Hs5 Hdead) as (Hr7 & transport & thread & Ho & Hw & _).
  split; [vm_compute; reflexivity|]. split; [exact Hs5|].
  split; [exact Hr|]. split; [exact Hr7|].
  exists transport. split; [exact Ho | exact Hw].
Defined.

(** After the sleep, with the recorded transport thread alive (as it is
    for the thread itself), the stale transport is closed and nothing is
    built. *)
Lemma after_sleep_skips env h c :
  (forall h', thread_alive env h' c = true) ->
  let r := _attempt_reconnect_after_sleep env h c in
  res_out r = Ret tt /\ res_client r = c /\ opens (res_events r) = [].
Proof.
  intros Halive. unfold _attempt_reconnect_after_sleep, call. go.
  destruct (ws c) as [transport|]; go.
  - unfold try_except.
    destruct (ws_close env h transport); go;
      rewrite start_ws_thread_run;
      match goal with |- context [thread_alive env ?h' c] =>
        rewrite (Halive h') end;
      cbn; auto.
  - rewrite start_ws_thread_run, (Halive h). cbn. auto.
Qed.

(** [disconnect] called by the application while the transport thread
    [th] is in a backoff sleep that ends inside the [join]: the thread
    wakes up, finds itself alive and builds nothing, and [disconnect]
    resets the client. *)
Lemma disconnect_wakes_sleeper env zs rest th h c :
  running c = true -> _ws_thread c = Some th -> th <> main_thread ->
  let r := disconnect_body (disconnect_until_join (on_thread main_thread zs env))
             (fun _ => _attempt_reconnect_after_sleep (on_thread th rest env))
             (disconnect_after_join (on_thread main_thread rest env)) h c in
  res_out r = Ret tt /\ res_client r = disconnected c /\ opens (res_events r) = [].
Proof.
  intros Hr Hth Hmain. unfold disconnect_body. go. rewrite Hr. go.
  destruct (disconnect_until_join_facts (on_thread main_thread zs env) h c)
    as (Hc & _ & Ho & _ & _ & _ & Hout).
  assert (Hne : _ws_thread c <> Some (current_thread (on_thread main_thread zs env)))
    by (rewrite Hth; cbn; congruence).
  specialize (Hout Hne).
  destruct (disconnect_until_join (on_thread main_thread zs env) h c) as [o c1 e1].
  cbn [res_out res_client res_events] in *. subst c1.
  assert (Hj : exists joined, o = Ret joined)
    by (destruct Hout as [->|(th' & -> & _)]; eauto).
  destruct Hj as [joined ->]. go.
  destruct joined as [th'|].
  - destruct (@after_sleep_skips (on_thread th rest env) (extend h e1)
                (set_running false c)) as (A & B & C).
    { intros h'. unfold thread_alive. proj_m. rewrite Hth. cbn [on_thread current_thread].
      now rewrite Nat.eqb_refl. }
    destruct (_attempt_reconnect_after_sleep (on_thread th rest env) (extend h e1)
                (set_running false c)) as [o2 c2 e2].
    cbn [res_out res_client res_events] in *. subst o2 c2. go.
    match goal with
    | |- context [disconnect_after_join ?e ?j ?h' ?c'] =>
        destruct (disconnect_after_join_facts e j h' c') as (D & E & _ & F & _);
        destruct (disconnect_after_join e j h' c') as [o3 c3 e3]
    end.
    cbn [res_out res_client res_events prefix] in *. subst o3 c3.
    rewrite !opens_app, Ho, C, F. repeat split; reflexivity.
  - go.
    match goal with
    | |- context [disconnect_after_join ?e ?j ?h' ?c'] =>
        destruct (disconnect_after_join_facts e j h' c') as (D & E & _ & F & _);
        destruct (disconnect_after_join e j h' c') as [o3 c3 e3]
    end.
    cbn [res_out res_client res_events prefix] in *. subst o3 c3.
    rewrite ?opens_app, Ho, F. repeat split; reflexivity.
Qed.

(** C1, on the code.  A close puts the transport thread into the backoff
    sleep; the application calls [disconnect] during the sleep, which
    leaves the client not running and opens nothing.  When the sleep is
    longer than the timeout of the [join], [disconnect] gives up waiting
    for the sleeping thread, resets the handles and returns; when the
    sleep ends, [_attempt_reconnect] does not look at [running] again:
    with the handles reset it builds a new [WebSocketApp] and starts its
    thread although the client is not running.  (When the sleep is no
    longer than the timeout, it ends inside the [join], before the
    handles are reset: the thread finds itself alive and builds nothing,
    and no thread is left asleep.) *)
Theorem disconnect_during_backoff_reopens env s w code msg :
  running (client s) = true ->
  reconnect_attempts (client s) < max_reconnect_attempts (client s) ->
  _ws_thread (client s) = Some (runner w) ->
  asleep s = [] ->
  let wait :=
    reconnect_interval (client s) * 2 ^ (reconnect_attempts (client s) + 1 - 1) in
  let s1 := step env s (OnClose w code msg) in
  let s2 := step env s1 AppDisconnect in
  let s3 := step env s2 SleepEnds in
  asleep s1 = [(runner w, wait)] /\
  running (client s2) = false /\
  opens (trace s2) = opens (trace s) /\
  (JOIN_TIMEOUT < wait ->
   In (EvJoin (runner w) JOIN_TIMEOUT) (trace s2) /\
   In (EvLog WARNING ThreadDidNotTerminate) (trace s2) /\
   asleep s2 = [(runner w, wait)] /\
   exists transport thread,
     opens (trace s3) = opens (trace s) ++ [transport] /\
     ws (client s3) = Some transport /\
     In (EvThreadStart thread (RunForever transport)) (trace s3) /\
     running (client s3) = false) /\
  (wait <= JOIN_TIMEOUT -> asleep s2 = [] /\ s3 = s2).
Proof.
  intros Hr Hlt Hth Hs wait s1 s2 s3.
  assert (E1 : s1 =
               mkSystem
                 (set_reconnect_attempts (reconnect_attempts (client s) + 1)
                    (set_is_authenticated (JBool false)
                       (set_is_connected false (client s))))
                 [(runner w, wait)]
                 (trace s ++
                  [EvLog INFO (ConnectionClosed code msg);
                   EvLog WARNING ClosedUnexpectedly;
                   EvLog INFO (AttemptingReconnect (reconnect_attempts (client s) + 1)
                                 (max_reconnect_attempts (client s)) wait);
                   EvSleep wait])).
  { subst s1. cbn [step]. rewrite on_close_retry by assumption. rewrite Hs.
    reflexivity. }
  assert (Ho1 : opens (trace s1) = opens (trace s)).
  { rewrite E1. cbn [trace]. rewrite opens_app. apply app_nil_r. }
  assert (Hr1 : running (client s1) = true) by (rewrite E1; exact Hr).
  assert (Hth1 : _ws_thread (client s1) = Some (runner w)) by (rewrite E1; exact Hth).
  assert (Hs1 : asleep s1 = [(runner w, wait)]) by (rewrite E1; reflexivity).
  assert (Hw : woken_by_join (client s1) (asleep s1) =
               if wait <=? JOIN_TIMEOUT then Some (runner w) else None).
  { unfold woken_by_join. rewrite Hr1, Hth1, Hs1. cbn [nap].
    rewrite Nat.eqb_refl. destruct (wait <=? JOIN_TIMEOUT); reflexivity. }
  split; [exact Hs1|].
  destruct (wait <=? JOIN_TIMEOUT) eqn:Hwait.
  - (* the sleep ends inside the join *)
    assert (E2 : s2 = after s1
                   (disconnect_body
                      (disconnect_until_join (on_thread main_thread (asleep s1) env))
                      (fun _ => _attempt_reconnect_after_sleep
                                  (on_thread (runner w) (wake (runner w) (asleep s1)) env))
                      (disconnect_after_join
                         (on_thread main_thread (wake (runner w) (asleep s1)) env))
                      (trace s1) (client s1))
                   (wake (runner w) (asleep s1))).
    { subst s2. cbn [step]. rewrite Hw. reflexivity. }
    destruct (@disconnect_wakes_sleeper env (asleep s1) (wake (runner w) (asleep s1))
                (runner w) (trace s1) (client s1) Hr1 Hth1)
      as (_ & Hc2 & Hop2).
    { unfold runner, main_thread. discriminate. }
    assert (Hs2 : asleep s2 = []).
    { rewrite E2. cbn [after asleep]. rewrite Hs1. cbn [wake].
      now rewrite Nat.eqb_refl. }
    split; [rewrite E2; cbn [after client]; rewrite Hc2; reflexivity|].
    split; [rewrite E2; cbn [after trace];
            now rewrite extend_app, opens_app, Hop2, app_nil_r|].
    split; [intros Hlong; apply Z.leb_le in Hwait; lia|].
    intros _. split; [exact Hs2|].
    subst s3. clearbody s2. cbn [step]. rewrite Hs2. reflexivity.
  - (* the join times out *)
    assert (E2 : s2 = after s1 (disconnect (on_thread main_thread (asleep s1) env)
                                  (trace s1) (client s1)) (asleep s1)).
    { subst s2. cbn [step]. rewrite Hw. reflexivity. }
    destruct (@disconnect_running (on_thread main_thread (asleep s1) env)
                (trace s1) (client s1) Hr1) as (_ & Hc2 & _ & _ & Hop2 & _).
    { rewrite Hth1. cbn. discriminate. }
    destruct (@disconnect_join_times_out (on_thread main_thread (asleep s1) env)
                (trace s1) (client s1) (runner w) Hr1 Hth1) as [Hj Hwarn].
    { cbn. discriminate. }
    { intros h'. rewrite Hs1. cbn [on_thread is_alive is_asleep nap].
      unfold is_asleep. cbn [nap]. now rewrite Nat.eqb_refl. }
    assert (Hc2' : client s2 = disconnected (client s1)) by (rewrite E2; exact Hc2).
    assert (Ho2 : opens (trace s2) = opens (trace s)).
    { rewrite E2. cbn [after trace].
      now rewrite extend_app, opens_app, Hop2, app_nil_r. }
    assert (Hs2 : asleep s2 = [(runner w, wait)]) by (rewrite E2; exact Hs1).
    split; [rewrite Hc2'; reflexivity|].
    split; [exact Ho2|].
    split; [|intros Hshort; apply Z.leb_gt in Hwait; lia].
    intros _.
    split; [rewrite E2; cbn [after trace]; rewrite extend_app; apply in_or_app; right;
            exact Hj|].
    split; [rewrite E2; cbn [after trace]; rewrite extend_app; apply in_or_app; right;
            exact Hwarn|].
    split; [exact Hs2|].
    subst s3. clearbody s2. cbn [step]. rewrite Hs2.
    match goal with
    | |- context [_attempt_reconnect_after_sleep ?e ?h' ?c'] =>
        destruct (@after_sleep_builds e h' c') as (transport & thread & A & B & _ & C & D)
    end.
    { intros h'. rewrite Hc2'. reflexivity. }
    exists transport, thread. cbn [after client trace].
    rewrite extend_app, opens_app, A, Ho2, C.
    split; [reflexivity|]. split; [exact B|].
    split; [apply in_or_app; right; exact D | rewrite Hc2'; reflexivity].
Qed.

(** With the default settings: after one failed connection that the
    application replaced, the second transport closes and its thread
    sleeps 10 s; [disconnect] gives up the [join] after 5 s, and the
    thread builds a third transport when it wakes up. *)
Lemma disconnect_during_backoff_reopens_witness :
  let s := run sample_env (boot "key" false) (AppConnect :: retry_round 1%nat) in
  let s3 := run sample_env s [OnClose 13%nat None None; AppDisconnect; SleepEnds] in
  reconnect_attempts (client s) = 1 /\
  sleeps (trace s3) = [5; 10] /\
  running (client s3) = false /\
  exists transport, opens (trace s3) = [1%nat; 13%nat; transport] /\
                    ws (client s3) = Some transport.
Proof.
  intros s s3.
  assert (Hr : running (client s) = true) by (vm_compute; reflexivity).
  assert (Hlt : reconnect_attempts (client s) < max_reconnect_attempts (client s))
    by (vm_compute; reflexivity).
  assert (Hth : _ws_thread (client s) = Some (runner 13%nat)) by (vm_compute; reflexivity).
  assert (Hs : asleep s = []) by (vm_compute; reflexivity).
  assert (Hlong : JOIN_TIMEOUT <
                  reconnect_interval (client s) *
                  2 ^ (reconnect_attempts (client s) + 1 - 1))
    by (vm_compute; reflexivity).
  pose proof (@disconnect_during_backoff_reopens sample_env s 13%nat None None
                Hr Hlt Hth Hs) as (_ & _ & _ & Hdefect & _).
  destruct (Hdefect Hlong)
    as (_ & _ & _ & transport & thread & Ho & Hw & _ & Hr3).
  split; [vm_compute; reflexivity|].
  split; [vm_compute; reflexivity|].
  split; [exact Hr3|].
  exists transport. split; [exact Ho | exact Hw].
Defined.

(** C9, on the code: a turn of the heartbeat loop in which [ws.send]
    raises.  [_send_message] catches the exception and logs it, so the
    body of the loop goes on to its own log line and to the sleep, the
    [except] clause of [_send_ping] is not entered, and the loop takes its
    next turn: a second ping is sent. *)
Theorem ping_loop_survives_send_error env transport e h c :
  running c = true ->
  is_connected c = true ->
  ws c = Some transport ->
  ws_send env h transport WPing = Some e ->
  let turn := _send_ping_body env h c in
  res_out turn = Ret true /\
  res_client turn = c /\
  res_events turn =
    [EvSend transport WPing; EvLog ERROR (ErrorSendingMessage e);
     EvLog DEBUG SentPing; EvSleep PING_INTERVAL] /\
  sends (res_events (_send_ping env 2 h c)) = [WPing; WPing].
Proof.
  intros Hr Hc Hws Hsend turn. subst turn.
  rewrite send_ping_body_run. cbn [res_out res_client res_events].
  assert (Hcan : can_send c = true) by (unfold can_send; now rewrite Hws).
  split; [reflexivity|]. split; [reflexivity|]. split.
  - unfold send_events. rewrite Hws, Hc, Hsend. reflexivity.
  - cbn [_send_ping]. go. rewrite Hr, Hc. go.
    rewrite send_ping_body_run. go. rewrite Hr, Hc. go.
    rewrite send_ping_body_run. go.
    rewrite !sends_app, !sends_send_events, Hcan. reflexivity.
Qed.

Lemma ping_loop_survives_send_error_witness :
  sends (res_events (_send_ping broken_pipe_env 2 [] sample_client)) = [WPing; WPing] /\
  logs (res_events (_send_ping_body broken_pipe_env [] sample_client)) =
    [(ERROR, ErrorSendingMessage (Exception "broken pipe")); (DEBUG, SentPing)].
Proof.
  pose proof (@ping_loop_survives_send_error broken_pipe_env 0%nat
                (Exception "broken pipe") [] sample_client
                eq_refl eq_refl eq_refl eq_refl) as (_ & _ & Hev & Hs).
  split; [exact Hs|]. cbv zeta in Hev. rewrite Hev. reflexivity.
Defined.




(** * Further properties of the client *)

(** ** Connecting and disconnecting *)

(** X1: [connect] is idempotent.  Whatever the client and the environment,
    [connect] leaves the client running and builds at most one transport,
    and a second [connect] right after it only logs a warning: it changes
    nothing and opens nothing. *)
Theorem connect_twice env h h' c :
  let r1 := connect env h c in
  let r2 := connect env h' (res_client r1) in
  res_out r1 = Ret tt /\
  running (res_client r1) = true /\
  (length (opens (res_events r1)) <= 1)%nat /\
  r2 = mkRes (Ret tt) (res_client r1) [EvLog WARNING AlreadyRunning].
Proof.
  intros r1 r2. subst r1 r2.
  assert (H1 : res_out (connect env h c) = Ret tt /\
               running (res_client (connect env h c)) = true /\
               (length (opens (res_events (connect env h c))) <= 1)%nat).
  { rewrite connect_run. destruct (running c) eqn:Hr.
    - cbn. auto.
    - destruct (thread_alive env h c); cbn; auto. }
  destruct H1 as (Ho & Hr & Hlen).
  split; [exact Ho|]. split; [exact Hr|]. split; [exact Hlen|].
  rewrite (connect_run env h'), Hr. reflexivity.
Qed.

(** X2: [connect] on a stopped client whose recorded transport thread is
    not alive.  The client is marked running, one [WebSocketApp] is built
    and one thread is started on its [run_forever], in that order, and
    [ws] and [_ws_thread] hold the two new handles; nothing else of the
    client changes. *)
Theorem connect_opens_one_transport env h c :
  running c = false ->
  thread_alive env h c = false ->
  let r := connect env h c in
  exists transport thread,
    res_events r =
      [EvLog INFO (ConnectingTo WS_URL);
       EvNewWebSocketApp transport;
       EvThreadStart thread (RunForever transport)] /\
    res_client r =
      set_ws_thread (Some thread) (set_ws (Some transport) (set_running true c)) /\
    res_out r = Ret tt.
Proof.
  intros Hr Ha r. subst r. rewrite connect_run, Hr, Ha.
  eexists _, _. repeat split; reflexivity.
Qed.

Lemma connect_opens_one_transport_witness :
  let r := connect sample_env [] (init "key" false) in
  res_events r =
    [EvLog INFO (ConnectingTo WS_URL); EvNewWebSocketApp 1%nat;
     EvThreadStart 2%nat (RunForever 1%nat)] /\
  ws (res_client r) = Some 1%nat /\
  _ws_thread (res_client r) = Some 2%nat /\
  running (res_client r) = true.
Proof.
  destruct (@connect_opens_one_transport sample_env [] (init "key" false)
              eq_refl eq_refl) as (transport & thread & Hev & Hc & _).
  repeat split; reflexivity.
Defined.

(** X3: the guard of [_start_ws_thread] on [connect].  While the recorded
    transport thread is alive, [connect] on a stopped client marks it
    running and returns without building a transport: the handles are the
    old ones and the only action is the warning. *)
Theorem connect_with_live_thread_opens_nothing env h c :
  running c = false ->
  thread_alive env h c = true ->
  connect env h c =
  mkRes (Ret tt) (set_running true c) [EvLog WARNING ThreadAlreadyRunning].
Proof. intros Hr Ha. now rewrite connect_run, Hr, Ha. Qed.

Lemma connect_with_live_thread_opens_nothing_witness :
  let c := set_running false sample_client in
  let r := connect live_thread_env [] c in
  running (res_client r) = true /\
  ws (res_client r) = ws c /\
  opens (res_events r) = [].
Proof.
  intros c r. subst r.
  rewrite (@connect_with_live_thread_opens_nothing live_thread_env [] c
             eq_refl eq_refl).
  repeat split; reflexivity.
Defined.

(** X4: the guard of [_start_ws_thread] on the reconnect path.  When
    [_on_close] runs with the client running, the budget not used up and
    the recorded transport thread reported alive (as it is when the close
    callback runs on that thread), the counter is incremented and the
    thread sleeps, the stale transport is closed, and then no transport is
    built: [ws] and [_ws_thread] keep the old handles and the client stays
    running. *)
Theorem reconnect_skipped_while_thread_alive env w code msg th h c :
  running c = true ->
  reconnect_attempts c < max_reconnect_attempts c ->
  _ws_thread c = Some th ->
  (forall h', is_alive env h' th = true) ->
  let r := _on_close env w code msg h c in
  res_out r = Ret tt /\
  opens (res_events r) = [] /\
  closes (res_events r) =
    match ws c with Some transport => [transport] | None => [] end /\
  sleeps (res_events r) =
    [reconnect_interval c * 2 ^ (reconnect_attempts c + 1 - 1)] /\
  ws (res_client r) = ws c /\
  _ws_thread (res_client r) = Some th /\
  running (res_client r) = true /\
  reconnect_attempts (res_client r) = reconnect_attempts c + 1 /\
  In (EvLog WARNING ThreadAlreadyRunning) (res_events r).
Proof.
  intros Hr Hlt Hth Halive r. subst r.
  rewrite on_close_split.
  rewrite (bind_eq _ (on_close_retry w code msg h c Hr Hlt)).
  cbv zeta. unfold _attempt_reconnect_after_sleep, call. go.
  assert (Hal : forall h' c', _ws_thread c' = Some th ->
                  _start_ws_thread env h' c' =
                  mkRes (Ret tt) c' [EvLog WARNING ThreadAlreadyRunning]).
  { intros h' c' Hc'. rewrite start_ws_thread_run. unfold thread_alive.
    now rewrite Hc', Halive, orb_true_r. }
  destruct (ws c) as [transport|] eqn:Hws; go.
  - unfold try_except.
    destruct (ws_close env _ transport); go;
      rewrite Hal by (proj_m; exact Hth); go; proj_m;
      rewrite ?Hws, ?Hth, ?Hr; cbn; repeat split; auto 10.
  - rewrite Hal by (proj_m; exact Hth). go. proj_m.
    rewrite ?Hws, ?Hth, ?Hr. cbn. repeat split; auto 10.
Qed.

Lemma reconnect_skipped_while_thread_alive_witness :
  let r := _on_close live_thread_env 0%nat None None [] sample_client in
  opens (res_events r) = [] /\
  closes (res_events r) = [0%nat] /\
  sleeps (res_events r) = [5] /\
  ws (res_client r) = Some 0%nat /\
  reconnect_attempts (res_client r) = 1.
Proof.
  assert (Hlt : reconnect_attempts sample_client < max_reconnect_attempts sample_client)
    by (cbn; lia).
  pose proof (@reconnect_skipped_while_thread_alive live_thread_env 0%nat None None
                1%nat [] sample_client eq_refl Hlt eq_refl (fun _ => eq_refl))
    as (_ & Ho & Hc & Hs & Hw & _ & _ & Hn & _).
  split; [exact Ho|]. split; [exact Hc|]. split; [exact Hs|].
  split; [exact Hw | exact Hn].
Defined.

(** X5: [disconnect] is idempotent.  Whatever the client, the
    environment and the thread it is called on, [disconnect] leaves the
    client not running, and a second [disconnect] right after it only
    logs a warning: it changes nothing and closes nothing.  The first
    call returns normally unless it is made, on a running client, on the
    recorded transport thread itself: then, and only then, it ends in the
    [RuntimeError] of a thread that joins itself. *)
Theorem disconnect_twice env h h' c :
  let r1 := disconnect env h c in
  let r2 := disconnect env h' (res_client r1) in
  (res_out r1 = Ret tt \/
   res_out r1 = Exc (RuntimeError "cannot join current thread")) /\
  (res_out r1 = Exc (RuntimeError "cannot join current thread") <->
   running c = true /\ _ws_thread c = Some (current_thread env)) /\
  running (res_client r1) = false /\
  r2 = mkRes (Ret tt) (res_client r1) [EvLog WARNING ClientNotRunning].
Proof.
  intros r1 r2. subst r1 r2.
  destruct (disconnect_facts env h c)
    as (_ & _ & _ & Hr & _ & _ & _ & _ & _ & Ho).
  split; [exact Ho|]. split; [|split; [exact Hr | now apply disconnect_stopped]].
  destruct (running c) eqn:Hrun.
  - assert (Hdec : _ws_thread c = Some (current_thread env) \/
                   _ws_thread c <> Some (current_thread env)).
    { destruct (_ws_thread c) as [th|]; [|right; discriminate].
      destruct (Nat.eq_dec th (current_thread env)) as [->|Hne];
        [left; reflexivity | right; congruence]. }
    destruct Hdec as [Heq|Hne].
    + split; [auto|]. intros _.
      unfold disconnect, disconnect_body. go. rewrite Hrun. go.
      destruct (disconnect_until_join_facts env h c) as (_ & _ & _ & _ & _ & Hcur & _).
      specialize (Hcur Heq).
      destruct (disconnect_until_join env h c) as [o c1 e1].
      cbn [res_out] in Hcur. subst o. reflexivity.
    + destruct (@disconnect_running env h c Hrun Hne) as (Hret & _).
      rewrite Hret. split; [discriminate | intros [_ Heq]; contradiction].
  - rewrite disconnect_stopped by assumption. cbn [res_out].
    split; [discriminate | intros [H _]; discriminate].
Qed.

(** X6: what [disconnect] does to a running client.  Called on another
    thread than the recorded transport thread, it never raises, whether
    [ws.close()] raises or not and whatever the thread does; it calls
    [close()] once on the transport the client holds, if it holds one;
    afterwards the client is not running, not connected, not
    authenticated, and holds no transport and no thread handle, while the
    registries, the reconnect counter and the settings are as before.
    Called on the recorded transport thread (by a handler, say), it
    closes the transport as well, but the [join] raises [RuntimeError]
    and the rest of the method is not run: the client is left not
    running, with its handles and its flags as they were. *)
Theorem disconnect_resets env h c :
  running c = true ->
  let r := disconnect env h c in
  closes (res_events r) =
    match ws c with Some transport => [transport] | None => [] end /\
  sends (res_events r) = [] /\
  opens (res_events r) = [] /\
  (_ws_thread c <> Some (current_thread env) ->
   res_out r = Ret tt /\
   res_client r = disconnected c /\
   subscribed_channels (res_client r) = subscribed_channels c /\
   handlers (res_client r) = handlers c /\
   reconnect_attempts (res_client r) = reconnect_attempts c) /\
  (_ws_thread c = Some (current_thread env) ->
   res_out r = Exc (RuntimeError "cannot join current thread") /\
   res_client r = set_running false c).
Proof.
  intros Hr r. subst r.
  destruct (disconnect_facts env h c)
    as (_ & _ & _ & _ & Hop & _ & _ & Hs & _).
  assert (Hcl : closes (res_events (disconnect env h c)) =
                match ws c with Some transport => [transport] | None => [] end /\
                (_ws_thread c = Some (current_thread env) ->
                 res_out (disconnect env h c) =
                   Exc (RuntimeError "cannot join current thread") /\
                 res_client (disconnect env h c) = set_running false c)).
  { destruct (_ws_thread c) as [th|] eqn:Hth.
    - destruct (Nat.eq_dec th (current_thread env)) as [->|Hne].
      + unfold disconnect, disconnect_body. go. rewrite Hr. go.
        destruct (disconnect_until_join_facts env h c)
          as (Hc1 & _ & _ & _ & Hcl1 & Hcur & _).
        rewrite Hth in Hcur. specialize (Hcur eq_refl).
        destruct (disconnect_until_join env h c) as [o c1 e1].
        cbn [res_out res_client res_events] in *. subst o c1.
        cbn [res_out res_client res_events prefix app]. auto.
      + assert (Hne' : Some th <> Some (current_thread env)) by congruence.
        rewrite <- Hth in Hne'.
        destruct (@disconnect_running env h c Hr Hne') as (_ & _ & Hcl & _).
        split; [exact Hcl|]. intros [= Heq]. contradiction.
    - assert (Hne' : _ws_thread c <> Some (current_thread env))
        by (rewrite Hth; discriminate).
      destruct (@disconnect_running env h c Hr Hne') as (_ & _ & Hcl & _).
      split; [exact Hcl|]. discriminate. }
  destruct Hcl as [Hcl Hself].
  split; [exact Hcl|]. split; [exact Hs|]. split; [exact Hop|].
  split; [|exact Hself].
  intros Hne.
  destruct (@disconnect_running env h c Hr Hne) as (Ho & Hc & _).
  rewrite Ho, Hc. repeat split; reflexivity.
Qed.

(** On the main thread with a transport whose [close] raises, and on the
    transport thread itself. *)
Lemma disconnect_resets_witness :
  let r := disconnect broken_pipe_env [] sample_client in
  let r' := disconnect (on_thread 1%nat [] sample_env) [] sample_client in
  closes (res_events r) = [0%nat] /\
  ws (res_client r) = None /\
  is_connected (res_client r) = false /\
  is_authenticated (res_client r) = JBool false /\
  running (res_client r) = false /\
  subscribed_channels (res_client r) = [("liquidation", ["BTC"; "ETH"])] /\
  res_out r' = Exc (RuntimeError "cannot join current thread") /\
  ws (res_client r') = Some 0%nat /\
  is_connected (res_client r') = true.
Proof.
  pose proof (@disconnect_resets broken_pipe_env [] sample_client eq_refl)
    as (Hcl & _ & _ & Hother & _).
  pose proof (@disconnect_resets (on_thread 1%nat [] sample_env) [] sample_client
                eq_refl) as (_ & _ & _ & _ & Hself).
  destruct Hother as (_ & Hc & _); [cbn; discriminate|].
  destruct (Hself eq_refl) as [Ho' Hc'].
  cbv zeta. rewrite Hc, Ho', Hc'. split; [exact Hcl|]. repeat split; reflexivity.
Defined.

(** ** Sending and receiving *)

(** X7: [_send_message] never raises and never changes the client.  The
    message is handed to [ws.send] once when the client holds a transport
    and is connected, and not at all otherwise (a warning is logged
    instead); when [ws.send] raises, the exception is logged and goes no
    further. *)
Theorem send_message_never_raises env msg h c :
  let r := _send_message env msg h c in
  res_out r = Ret tt /\
  res_client r = c /\
  sends (res_events r) = (if can_send c then [msg] else []) /\
  (can_send c = false ->
   res_events r = [EvLog WARNING NotConnectedCannotSend]) /\
  (forall transport e,
     ws c = Some transport -> is_connected c = true ->
     ws_send env h transport msg = Some e ->
     res_events r = [EvSend transport msg; EvLog ERROR (ErrorSendingMessage e)]).
Proof.
  intros r. subst r. rewrite send_message_run.
  cbn [res_out res_client res_events]. rewrite sends_send_events.
  split; [reflexivity|]. split; [reflexivity|]. split; [reflexivity|].
  unfold can_send, send_events. split.
  - destruct (ws c); [|reflexivity]. intros ->. reflexivity.
  - intros transport e -> -> ->. reflexivity.
Qed.

Lemma invocations_resubscribe_channels env h c :
  invocations (res_events (_resubscribe_channels env h c)) = [].
Proof.
  unfold _resubscribe_channels. step_m.
  destruct (negb (is_connected c) || negb (truthy (is_authenticated c)));
    step_m; [reflexivity|]. norm_prefix. cbn [invocations].
  rewrite (for_each_reading invocations (resubscribe_channel env) (fun _ _ => [])
             invocations_app (quiet_resubscribe_channel env)).
  - apply flat_map_nil.
  - intros item h0 c0. unfold resubscribe_channel.
    destruct (negb (is_empty (snd item))); [|reflexivity].
    rewrite (bind_eq _ (send_message_run env _ h0 c0)). step_m.
    rewrite invocations_app, invocations_send_events. reflexivity.
Qed.


(** X9: a text that [json.loads] rejects is logged and dropped: the
    client is left as it was and nothing is sent or dispatched.  A
    [JSONDecodeError] is logged as a parse failure, any other exception
    as a processing error. *)
Theorem undecodable_message_dropped env w message e h c :
  json_loads env message = Exc e ->
  _on_message env w message h c =
  mkRes (Ret tt) c
    [EvLog ERROR match e with
                 | JSONDecodeError _ => FailedToParse message
                 | _ => ErrorProcessingMessage e
                 end].
Proof.
  intros Hl. unfold _on_message, loads. go. rewrite Hl. go.
  destruct e; reflexivity.
Qed.

Lemma undecodable_message_dropped_witness :
  _on_message sample_env 0%nat "{not json" [] sample_client =
  mkRes (Ret tt) sample_client [EvLog ERROR (FailedToParse "{not json")].
Proof.
  exact (@undecodable_message_dropped sample_env 0%nat "{not json"
           (JSONDecodeError "{not json") [] sample_client eq_refl).
Defined.

(** X10: a decoded message that none of the four tests of [_on_message]
    accepts (not a dict, or a dict that is no pong, no auth result, has
    not both [channel] and [data], and is no error event) is dropped: the
    only action is the debug line for the received message. *)
Theorem unrecognised_message_dropped env w message data h c :
  json_loads env message = Ret data ->
  recognised data = false ->
  _on_message env w message h c =
  mkRes (Ret tt) c [EvLog DEBUG (ReceivedMessage data)].
Proof.
  intros Hl Hrec. unfold _on_message, loads. go. rewrite Hl. go.
  unfold recognised in Hrec.
  destruct (is_dict data); cbn [andb] in *; [|reflexivity].
  destruct (json_eq_str (data_get data "op" JNull) "pong"); [discriminate|].
  destruct (json_eq_str (data_get data "op" JNull) "auth"); [discriminate|].
  destruct (data_has data "channel" && data_has data "data"); [discriminate|].
  destruct (json_eq_str (data_get data "event" JNull) "error"); [discriminate|].
  reflexivity.
Qed.

Lemma unrecognised_message_dropped_witness :
  _on_message (decoding_env (JArr [JNum 1; JNum 2])) 0%nat "[1, 2]" [] sample_client =
  mkRes (Ret tt) sample_client
    [EvLog DEBUG (ReceivedMessage (JArr [JNum 1; JNum 2]))].
Proof.
  exact (@unrecognised_message_dropped (decoding_env (JArr [JNum 1; JNum 2]))
           0%nat "[1, 2]" (JArr [JNum 1; JNum 2]) [] sample_client
           eq_refl eq_refl).
Defined.

(** X11: pong and auth results are never dispatched.  A dict whose [op]
    is "pong" or "auth" invokes no handler, even when it also carries
    [channel] and [data] for a channel with handlers: the tests on [op]
    come first. *)
Theorem control_messages_not_dispatched env w message data h c :
  json_loads env message = Ret data ->
  is_dict data = true ->
  json_eq_str (data_get data "op" JNull) "pong" = true \/
  json_eq_str (data_get data "op" JNull) "auth" = true ->
  invocations (res_events (_on_message env w message h c)) = [].
Proof.
  intros Hl Hd Hop. unfold _on_message, loads. go. rewrite Hl. go. rewrite Hd.
  cbn [andb].
  destruct (json_eq_str (data_get data "op" JNull) "pong") eqn:Hp; go;
    [reflexivity|].
  destruct Hop as [Hop|Hop]; [discriminate|]. rewrite Hop. go.
  destruct (truthy (data_get data "success" (JBool false))); go;
    [|reflexivity].
  match goal with
  | |- context [_resubscribe_channels env ?h' ?c'] =>
      pose proof (invocations_resubscribe_channels env h' c') as Hinv;
      rewrite (quiet_eq h' c' (quiet_resubscribe_channels env))
  end.
  cbn [prefix res_events app invocations]. exact Hinv.
Qed.

Lemma control_messages_not_dispatched_witness :
  let data := JObj [("op", JStr "pong"); ("channel", JStr "liquidation");
                    ("data", JNum 1)] in
  PyDict.get "liquidation" (handlers sample_client) = Some [1%nat; 2%nat] /\
  invocations
    (res_events (_on_message (decoding_env data) 0%nat "pong" [] sample_client)) = [].
Proof.
  intros data. split; [reflexivity|].
  exact (@control_messages_not_dispatched (decoding_env data) 0%nat "pong" data
           [] sample_client eq_refl eq_refl (or_introl eq_refl)).
Defined.

(** X12: channel data nobody is registered for.  A channel-data message
    whose [channel] is no key of the handler registry (an unknown name,
    or a value that is not a string) invokes no handler, sends nothing
    and leaves the client as it was; an unhashable [channel] (a list or a
    dict) raises [TypeError] inside the callback, which is caught and
    logged. *)
Theorem unroutable_channel_data_dropped env w message data h c :
  json_loads env message = Ret data ->
  is_dict data = true ->
  json_eq_str (data_get data "op" JNull) "pong" = false ->
  json_eq_str (data_get data "op" JNull) "auth" = false ->
  data_has data "channel" = true ->
  data_has data "data" = true ->
  (forall name, data_get data "channel" JNull = JStr name ->
                PyDict.get name (handlers c) = None) ->
  let r := _on_message env w message h c in
  res_out r = Ret tt /\
  res_client r = c /\
  invocations (res_events r) = [] /\
  sends (res_events r) = [] /\
  res_events r =
    [EvLog DEBUG (ReceivedMessage data);
     match data_get data "channel" JNull with
     | JArr _ | JObj _ =>
         EvLog ERROR (ErrorProcessingMessage (TypeError "unhashable type"))
     | channel => EvLog DEBUG (NoHandlerRegistered channel)
     end].
Proof.
  intros Hl Hd Hp Ha Hc Hdd Hnone r. subst r.
  unfold _on_message, loads. go. rewrite Hl. go.
  rewrite Hd, Hp, Ha, Hc, Hdd. go.
  unfold dispatch, PyDict.contains.
  destruct (data_get data "channel" JNull) as [| | |name| |] eqn:Hch; go;
    try (repeat split; reflexivity).
  rewrite (Hnone name eq_refl). go. repeat split; reflexivity.
Qed.

Lemma unroutable_channel_data_dropped_witness :
  let data := JObj [("channel", JArr [JStr "liquidation"]); ("data", JNum 1)] in
  let r := _on_message (decoding_env data) 0%nat "list channel" [] sample_client in
  res_out r = Ret tt /\
  invocations (res_events r) = [] /\
  logs (res_events r) =
    [(DEBUG, ReceivedMessage data);
     (ERROR, ErrorProcessingMessage (TypeError "unhashable type"))].
Proof.
  intros data r.
  assert (Hnone : forall name,
            data_get data "channel" JNull = JStr name ->
            PyDict.get name (handlers sample_client) = None)
    by (intros name H; discriminate H).
  pose proof (@unroutable_channel_data_dropped (decoding_env data) 0%nat
                "list channel" data [] sample_client
                eq_refl eq_refl eq_refl eq_refl eq_refl eq_refl Hnone)
    as (Ho & _ & Hi & _ & Hev).
  split; [exact Ho|]. split; [exact Hi|].
  subst r. rewrite Hev. reflexivity.
Defined.

(** X13: an auth success that arrives while the client is not marked
    connected (after [_on_error], say).  [is_authenticated] takes the
    value of [success], but [_resubscribe_channels] refuses to run: a
    warning is logged and no subscribe message is sent. *)
Theorem auth_success_while_disconnected env w message data h c :
  json_loads env message = Ret data ->
  is_dict data = true ->
  data_get data "op" JNull = JStr "auth" ->
  truthy (data_get data "success" (JBool false)) = true ->
  is_connected c = false ->
  _on_message env w message h c =
  mkRes (Ret tt)
    (set_is_authenticated (data_get data "success" (JBool false)) c)
    [EvLog DEBUG (ReceivedMessage data);
     EvLog INFO AuthenticationSuccessful;
     EvLog WARNING CannotResubscribe].
Proof.
  intros Hl Hd Hop Hsucc Hconn. unfold _on_message, loads. go. rewrite Hl. go.
  rewrite Hd, Hop. cbn [json_eq_str String.eqb Ascii.eqb Bool.eqb andb].
  go. rewrite Hsucc. go.
  unfold _resubscribe_channels. go. rewrite Hconn. go. reflexivity.
Qed.

Lemma auth_success_while_disconnected_witness :
  let c := set_is_authenticated (JBool false) (set_is_connected false sample_client) in
  let r := _on_message sample_env 0%nat "auth ok" [] c in
  is_authenticated (res_client r) = JBool true /\
  sends (res_events r) = [] /\
  In (EvLog WARNING CannotResubscribe) (res_events r).
Proof.
  intros c r. subst r.
  rewrite (@auth_success_while_disconnected sample_env 0%nat "auth ok"
             (JObj [("op", JStr "auth"); ("success", JBool true)]) [] c
             eq_refl eq_refl eq_refl eq_refl eq_refl).
  repeat split; cbn; auto.
Defined.

(** ** Between the open and the close of a connection *)

(** X14: nothing is sent while the client is not marked connected.  From
    a client with [is_connected] false (a fresh one, or one after
    [disconnect], [_on_error] or [_on_close]), whatever is called except
    the open callback, with whatever arguments, no control message is
    handed to a transport and [is_connected] stays false: only [_on_open]
    makes the client connected. *)
Theorem nothing_sent_while_disconnected env s calls :
  is_connected (client s) = false ->
  forallb (fun call => negb (is_open call)) calls = true ->
  sends (trace (run env s calls)) = sends (trace s) /\
  is_connected (client (run env s calls)) = false.
Proof.
  revert s. induction calls as [|call calls IH]; intros s Hconn Hcalls;
    cbn [run fold_left].
  - auto.
  - cbn in Hcalls. apply andb_true_iff in Hcalls. destruct Hcalls as [H1 H2].
    apply negb_true_iff in H1.
    destruct (step_unconnected env s call Hconn H1) as [Hc' Hs'].
    destruct (IH (step env s call) Hc' H2) as [Ha Hb].
    unfold run in *. rewrite Ha, Hs'. auto.
Qed.

Lemma nothing_sent_while_disconnected_witness :
  let s := mkSystem sample_client [] [] in
  let later := [AppDisconnect; AppSubscribe "trade" ["BTCUSDT:Binance"] 3%nat;
                OnMessage 0%nat "auth ok"; PingTurn;
                AppUnsubscribe "liquidation" ["BTC"] None; AppConnect] in
  sends (trace (run sample_env (step sample_env s (OnError 0%nat "reset")) later)) = [].
Proof.
  intros s later.
  exact (proj1 (@nothing_sent_while_disconnected sample_env
                  (step sample_env s (OnError 0%nat "reset")) later
                  eq_refl eq_refl)).
Defined.

(** X15: the open callback.  On a client that holds a transport,
    [_on_open] marks the client connected, resets the reconnect counter,
    hands exactly one message to the client's transport, the auth message
    with the client's API key, and then starts the heartbeat thread, whose
    handle it records; [is_authenticated] is not touched. *)
Theorem on_open_authenticates env w transport h c :
  ws c = Some transport ->
  let r := _on_open env w h c in
  res_out r = Ret tt /\
  sends (res_events r) = [WAuth (api_key c)] /\
  (exists log_line thread,
     res_events r =
       [EvLog INFO ConnectionOpened;
        EvSend transport (WAuth (api_key c));
        log_line;
        EvThreadStart thread SendPing] /\
     _ping_thread (res_client r) = Some thread) /\
  is_connected (res_client r) = true /\
  reconnect_attempts (res_client r) = 0 /\
  is_authenticated (res_client r) = is_authenticated c.
Proof.
  intros Hws r. subst r. unfold _on_open. go. rewrite send_message_run. go.
  unfold send_events. proj_m. rewrite Hws.
  destruct (ws_send env (h ++ [EvLog INFO ConnectionOpened]) transport
              (WAuth (api_key c))) eqn:Hsend; cbn [app sends].
  - repeat split; try reflexivity. eexists _, _. split; reflexivity.
  - repeat split; try reflexivity. eexists _, _. split; reflexivity.
Qed.

Lemma on_open_authenticates_witness :
  let c := started [] (set_running true (init "key" false)) in
  let r := _on_open sample_env 1%nat [] c in
  sends (res_events r) = [WAuth "key"] /\
  is_connected (res_client r) = true /\
  reconnect_attempts (res_client r) = 0.
Proof.
  intros c.
  pose proof (@on_open_authenticates sample_env 1%nat 1%nat [] c eq_refl)
    as (_ & Hs & _ & Hc & Hn & _).
  split; [exact Hs|]. split; [exact Hc | exact Hn].
Defined.

(** X16: a close that was asked for.  When the client is not running,
    [_on_close] marks it disconnected and unauthenticated and returns:
    no reconnect attempt, no sleep, no transport, the counter as it
    was. *)
Theorem intentional_close_no_reconnect env w code msg h c :
  running c = false ->
  _on_close env w code msg h c =
  mkRes (Ret tt)
    (set_is_authenticated (JBool false) (set_is_connected false c))
    [EvLog INFO (ConnectionClosed code msg); EvLog INFO ClosedIntentionally].
Proof.
  intros Hr. rewrite on_close_split.
  rewrite (bind_eq _ (on_close_intended w code msg h c Hr)). reflexivity.
Qed.

Lemma intentional_close_no_reconnect_witness :
  let c := set_running false sample_client in
  let r := _on_close sample_env 0%nat (Some 1000) None [] c in
  sleeps (res_events r) = [] /\ opens (res_events r) = [] /\
  is_connected (res_client r) = false /\
  reconnect_attempts (res_client r) = 0.
Proof.
  intros c r. subst r.
  rewrite (@intentional_close_no_reconnect sample_env 0%nat (Some 1000) None []
             c eq_refl).
  repeat split; reflexivity.
Defined.

(** X17: [connect] does not give the budget back.  On a client that gave
    up (not running, counter at the maximum), [connect] marks it running
    again but leaves the counter where it is: only [_on_open] resets it.
    If the new connection closes before it opens, that close gives up at
    once, without any backoff sleep. *)
Theorem connect_after_give_up_has_no_retries env s w code msg :
  running (client s) = false ->
  max_reconnect_attempts (client s) <= reconnect_attempts (client s) ->
  let s1 := step env s AppConnect in
  let s2 := step env s1 (OnClose w code msg) in
  running (client s1) = true /\
  reconnect_attempts (client s1) = reconnect_attempts (client s) /\
  running (client s2) = false /\
  sleeps (trace s2) = sleeps (trace s) /\
  sleeping s2 = sleeping s /\
  In (EvLog ERROR MaxReconnectAttemptsReached) (trace s2).
Proof.
  intros Hr Hge s1 s2.
  assert (H1 : running (client s1) = true /\
               reconnect_attempts (client s1) = reconnect_attempts (client s) /\
               max_reconnect_attempts (client s1) = max_reconnect_attempts (client s) /\
               sleeps (trace s1) = sleeps (trace s) /\
               sleeping s1 = sleeping s).
  { subst s1. cbn [step]. unfold sleeping. cbn [after client trace asleep].
    set (e0 := on_thread main_thread (asleep s) env).
    destruct (connect_facts e0 (trace s) (client s))
      as ((_ & _ & Hm) & _ & Ha & _ & Hs).
    rewrite extend_app, sleeps_app, Hs, app_nil_r, Ha, Hm.
    split; [|auto].
    rewrite connect_run, Hr. destruct (thread_alive e0 (trace s) (client s));
      reflexivity. }
  destruct H1 as (Hr1 & Hn1 & Hm1 & Hs1 & Hsl1).
  split; [exact Hr1|]. split; [exact Hn1|].
  subst s2. cbn [step].
  rewrite on_close_give_up by (try assumption; rewrite Hn1, Hm1; assumption).
  unfold sleeping in *.
  cbn [after client trace asleep res_out res_client res_events extend].
  proj_m. rewrite sleeps_app, Hs1, Hsl1. cbn [sleeps].
  rewrite app_nil_r. repeat split; try reflexivity.
  apply in_or_app. right. cbn. auto.
Qed.

Lemma connect_after_give_up_has_no_retries_witness :
  let s := run sample_env (boot "key" false)
             (AppConnect :: five_failures ++ [OnClose 0%nat None None]) in
  let s2 := run sample_env s [AppConnect; OnClose 0%nat None None] in
  running (client s) = false /\
  reconnect_attempts (client s) = 5 /\
  running (client s2) = false /\
  sleeps (trace s2) = [5; 10; 20; 40; 80].
Proof.
  intros s s2.
  assert (Hge : max_reconnect_attempts (client s) <= reconnect_attempts (client s))
    by (vm_compute; discriminate).
  pose proof (@connect_after_give_up_has_no_retries sample_env s 0%nat None None
                eq_refl Hge) as (_ & _ & Hr2 & Hs2 & _).
  split; [reflexivity|]. split; [reflexivity|]. split; [exact Hr2 | exact Hs2].
Defined.

(** X18: the backoff doubles.  Of two failed reconnect attempts in a row
    (close, end of the sleep, close, end of the sleep) the second waits
    twice as long as the first. *)
Theorem backoff_doubles env s w code msg w' code' msg' :
  running (client s) = true ->
  0 <= reconnect_attempts (client s) ->
  reconnect_attempts (client s) + 1 < max_reconnect_attempts (client s) ->
  let s2 := run env s [OnClose w code msg; SleepEnds;
                       OnClose w' code' msg'; SleepEnds] in
  let wait := reconnect_interval (client s) * 2 ^ reconnect_attempts (client s) in
  sleeps (trace s2) = sleeps (trace s) ++ [wait; 2 * wait] /\
  reconnect_attempts (client s2) = reconnect_attempts (client s) + 2 /\
  running (client s2) = true.
Proof.
  intros Hr Hlo Hlt s2 wait. subst s2 wait. cbn [run fold_left].
  destruct (@close_then_wake env s w code msg Hr ltac:(lia))
    as (Hr1 & Hn1 & (_ & Hi1 & Hm1) & _ & Hs1).
  set (s1 := step env (step env s (OnClose w code msg)) SleepEnds) in *.
  destruct (@close_then_wake env s1 w' code' msg' Hr1 ltac:(lia))
    as (Hr2 & Hn2 & _ & _ & Hs2).
  rewrite Hs2, Hs1, Hn2, Hn1, Hi1, Hr2, <- app_assoc. cbn [app].
  replace (reconnect_attempts (client s) + 1 - 1) with (reconnect_attempts (client s))
    by lia.
  replace (reconnect_attempts (client s) + 1 + 1 - 1)
    with (Z.succ (reconnect_attempts (client s))) by lia.
  rewrite Z.pow_succ_r by assumption.
  repeat split; try reflexivity; try lia.
  do 3 f_equal. ring.
Qed.

Lemma backoff_doubles_witness :
  let s := step sample_env (boot "key" false) AppConnect in
  let s2 := run sample_env s [OnClose 0%nat None None; SleepEnds;
                              OnClose 0%nat None None; SleepEnds] in
  sleeps (trace s2) = [5; 10].
Proof.
  intros s.
  assert (Hlo : 0 <= reconnect_attempts (client s)) by (cbn; lia).
  assert (Hlt : reconnect_attempts (client s) + 1 < max_reconnect_attempts (client s))
    by (cbn; lia).
  exact (proj1 (@backoff_doubles sample_env s 0%nat None None 0%nat None None
                  eq_refl Hlo Hlt)).
Defined.

(** ** Subscribing and unsubscribing *)

Lemma fresh_params_distinct params : forall cur, NoDup (fresh_params params cur).
Proof.
  induction params as [|p ps IH]; intros cur; simpl; [constructor|].
  destruct (str_in p cur); [apply IH|].
  constructor; [|apply IH].
  intros Hin. apply fresh_params_new in Hin. destruct Hin as [_ Hn].
  apply Hn. apply in_or_app. right. now left.
Qed.

Lemma fresh_params_iff params cur p :
  In p (fresh_params params cur) <-> In p params /\ ~ In p cur.
Proof.
  split; [apply fresh_params_new|].
  intros [Hp Hn]. pose proof (fresh_params_covers params cur p Hp) as H.
  apply in_app_or in H. tauto.
Qed.

Lemma dict_get_in {V} (d : PyDict.t V) k v : PyDict.get k d = Some v -> In (k, v) d.
Proof.
  induction d as [|[k0 v0] d IH]; simpl; [discriminate|].
  destruct (String.eqb k k0) eqn:E.
  - apply String.eqb_eq in E. subst k0. intros [= ->]. now left.
  - intros H. right. auto.
Qed.

Lemma dict_del_absent {V} (d : PyDict.t V) k : PyDict.get k d = None -> PyDict.del k d = d.
Proof.
  induction d as [|[k0 v0] d IH]; simpl; [reflexivity|].
  destruct (String.eqb k k0); [discriminate|]. intros H. now rewrite IH.
Qed.

Lemma dict_del_set {V} (d : PyDict.t V) k v :
  PyDict.get k d = None -> PyDict.del k (PyDict.set k v d) = d.
Proof.
  induction d as [|[k0 v0] d IH]; simpl.
  - now rewrite String.eqb_refl.
  - destruct (String.eqb k k0) eqn:E; [discriminate|].
    intros H. simpl. now rewrite E, IH.
Qed.

Lemma on_message_auth_success_sends env w message data transport h c :
  json_loads env message = Ret data ->
  is_dict data = true ->
  data_get data "op" JNull = JStr "auth" ->
  truthy (data_get data "success" (JBool false)) = true ->
  is_connected c = true ->
  ws c = Some transport ->
  sends (res_events (_on_message env w message h c)) =
  map subscribe_message (filter has_params (PyDict.items (subscribed_channels c))).
Proof.
  intros Hl Hd Hop Hsucc Hconn Hws.
  unfold _on_message, loads. go. rewrite Hl. go.
  rewrite Hd, Hop. cbn [json_eq_str String.eqb Ascii.eqb Bool.eqb andb].
  go. rewrite Hsucc. go.
  match goal with
  | |- context [_resubscribe_channels env ?h' ?c'] =>
      pose proof (sends_resubscribe_channels env h' c') as Hs;
      rewrite (quiet_eq h' c' (quiet_resubscribe_channels env))
  end.
  cbn [prefix res_events app sends]. rewrite Hs.
  unfold can_send. proj_m. rewrite Hconn, Hws, Hsucc. reflexivity.
Qed.

(** X19: [subscribe] rejects an empty channel name and an empty parameter
    list: it logs an error and returns, with the client, both registries
    included, as it was and nothing sent. *)
Theorem subscribe_rejects_empty env channel params handler h c :
  channel = ""%string \/ params = [] ->
  subscribe env channel params handler h c =
  mkRes (Ret tt) c [EvLog ERROR EmptyChannelOrParams].
Proof.
  intros [->| ->]; unfold subscribe.
  - reflexivity.
  - destruct (String.eqb channel ""); reflexivity.
Qed.

Lemma subscribe_rejects_empty_witness :
  subscribe sample_env "liquidation" [] 3%nat [] sample_client =
  mkRes (Ret tt) sample_client [EvLog ERROR EmptyChannelOrParams].
Proof.
  exact (@subscribe_rejects_empty sample_env "liquidation" [] 3%nat []
           sample_client (or_intror eq_refl)).
Defined.

(** X20: [subscribe] wires the delta only.  On a connected, authenticated
    client with a transport, [subscribe] sends one subscribe message for
    exactly the parameters of the call that are not registered for the
    channel yet, each once, in the order of the call, or no message when
    there is none; afterwards the channel's list is the old one followed
    by those parameters. *)
Theorem subscribe_sends_delta env channel params handler transport h c :
  channel <> ""%string -> params <> [] ->
  ws c = Some transport ->
  is_connected c = true ->
  truthy (is_authenticated c) = true ->
  let registered := get_list channel (subscribed_channels c) in
  let fresh := fresh_params params registered in
  let r := subscribe env channel params handler h c in
  sends (res_events r) =
    (if is_empty fresh then [] else [WSubscribe (map (arg_of channel) fresh)]) /\
  (forall p, In p fresh <-> In p params /\ ~ In p registered) /\
  NoDup fresh /\
  PyDict.get channel (subscribed_channels (res_client r)) = Some (registered ++ fresh).
Proof.
  intros Hch Hps Hws Hconn Hauth registered fresh r. subst r.
  rewrite subscribe_run by assumption.
  cbn [res_client res_events]. proj_m.
  split.
  { unfold subscribe_events. fold registered. fold fresh.
    rewrite Hconn, Hauth, sends_app. cbn [andb].
    destruct (handler_in handler (get_list channel (handlers c))); cbn [sends app];
      (destruct (is_empty fresh); [reflexivity|]);
      rewrite sends_app, sends_send_events; unfold can_send; proj_m;
      rewrite Hws, Hconn; reflexivity. }
  split; [intros p; apply fresh_params_iff|].
  split; [apply fresh_params_distinct|].
  unfold subscribed_after_subscribe. apply PyDictFacts.get_set_same.
Qed.

Lemma subscribe_sends_delta_witness :
  let r := subscribe sample_env "liquidation" ["ETH"; "SOL"; "SOL"; "XRP"] 1%nat []
             sample_client in
  sends (res_events r) = [WSubscribe ["liquidation:SOL"; "liquidation:XRP"]] /\
  PyDict.get "liquidation" (subscribed_channels (res_client r)) =
    Some ["BTC"; "ETH"; "SOL"; "XRP"].
Proof.
  assert (Hch : "liquidation"%string <> ""%string) by discriminate.
  assert (Hps : ["ETH"; "SOL"; "SOL"; "XRP"]%string <> []) by discriminate.
  pose proof (@subscribe_sends_delta sample_env "liquidation"
                ["ETH"; "SOL"; "SOL"; "XRP"]%string 1%nat 0%nat [] sample_client
                Hch Hps eq_refl eq_refl eq_refl) as (Hs & _ & _ & Hg).
  split; [exact Hs | exact Hg].
Defined.

(** X21: a subscription made before authentication is replayed.  On a
    connected client that is not authenticated yet, [subscribe] sends
    nothing and records the parameters; the auth success that follows
    sends a subscribe message for the channel that carries every
    parameter of the call. *)
Theorem subscribe_offline_then_replay
    env channel params handler transport w message data h h' c :
  channel <> ""%string -> params <> [] ->
  truthy (is_authenticated c) = false ->
  is_connected c = true ->
  ws c = Some transport ->
  json_loads env message = Ret data ->
  is_dict data = true ->
  data_get data "op" JNull = JStr "auth" ->
  truthy (data_get data "success" (JBool false)) = true ->
  let r1 := subscribe env channel params handler h c in
  let r2 := _on_message env w message h' (res_client r1) in
  sends (res_events r1) = [] /\
  exists args,
    In (WSubscribe args) (sends (res_events r2)) /\
    forall p, In p params -> In (arg_of channel p) args.
Proof.
  intros Hch Hps Hauth Hconn Hws Hl Hd Hop Hsucc r1 r2. subst r1 r2.
  rewrite subscribe_run by assumption. cbn [res_client res_events].
  split.
  { unfold subscribe_events. rewrite Hconn, Hauth, sends_app. cbn [andb].
    destruct (handler_in handler (get_list channel (handlers c)));
      destruct (is_empty _); reflexivity. }
  erewrite on_message_auth_success_sends by (try eassumption; proj_m; eassumption).
  proj_m. unfold subscribed_after_subscribe.
  set (registered := get_list channel (subscribed_channels c)).
  set (l := registered ++ fresh_params params registered).
  exists (map (arg_of channel) l). split.
  - change (WSubscribe (map (arg_of channel) l)) with (subscribe_message (channel, l)).
    apply in_map. apply filter_In. split.
    + apply dict_get_in. apply PyDictFacts.get_set_same.
    + destruct params as [|p0 ps]; [congruence|].
      assert (Hin : In p0 l) by (apply fresh_params_covers; now left).
      unfold has_params. cbn [snd]. destruct l; [destruct Hin | reflexivity].
  - intros p Hp. apply in_map. now apply fresh_params_covers.
Qed.

Lemma subscribe_offline_then_replay_witness :
  let c := set_is_authenticated (JBool false) sample_client in
  let r1 := subscribe sample_env "trade" ["BTCUSDT:Binance"] 3%nat [] c in
  let r2 := _on_message sample_env 0%nat "auth ok" (res_events r1) (res_client r1) in
  sends (res_events r1) = [] /\
  sends (res_events r2) =
    [WSubscribe ["liquidation:BTC"; "liquidation:ETH"];
     WSubscribe ["trade:BTCUSDT:Binance"]].
Proof.
  intros c r1 r2.
  assert (Hch : "trade"%string <> ""%string) by discriminate.
  assert (Hps : ["BTCUSDT:Binance"]%string <> []) by discriminate.
  pose proof (@subscribe_offline_then_replay sample_env "trade"
                ["BTCUSDT:Binance"]%string 3%nat 0%nat 0%nat "auth ok"
                (JObj [("op", JStr "auth"); ("success", JBool true)])
                [] (res_events r1) c Hch Hps eq_refl eq_refl eq_refl
                eq_refl eq_refl eq_refl eq_refl) as (H1 & _).
  split; [exact H1 | reflexivity].
Defined.

(** X22: what [unsubscribe] sends.  When some parameter of the call is
    registered for the channel, the parameters picked for removal are
    exactly those of the call that are registered; a connected,
    authenticated client with a transport sends one unsubscribe message
    with them, any other client sends nothing; the subscription registry
    is updated in both cases. *)
Theorem unsubscribe_wire env channel params handler registered h c :
  PyDict.get channel (subscribed_channels c) = Some registered ->
  (exists p, In p params /\ In p registered) ->
  let picked := params_to_unsubscribe params registered in
  let r := unsubscribe env channel params handler h c in
  (forall p, In p picked <-> In p params /\ In p registered) /\
  sends (res_events r) =
    (if is_connected c && truthy (is_authenticated c) && can_send c
     then [WUnsubscribe (map (arg_of channel) picked)] else []) /\
  subscribed_channels (res_client r) =
    subscribed_after_unsubscribe channel params (subscribed_channels c).
Proof.
  intros Hget (p0 & Hp0 & Hr0) picked r. subst picked r.
  assert (Hc : PyDict.contains channel (subscribed_channels c) = true)
    by (unfold PyDict.contains; now rewrite Hget).
  assert (Hcur : get_list channel (subscribed_channels c) = registered)
    by (unfold get_list; now rewrite Hget).
  assert (Hsel : forall p, In p (params_to_unsubscribe params registered) <->
                           In p params /\ In p registered).
  { intros p. unfold params_to_unsubscribe. rewrite unsubscribe_loop_selected.
    simpl. tauto. }
  assert (Hne : params_to_unsubscribe params
                  (get_list channel (subscribed_channels c)) <> []).
  { rewrite Hcur. intros Hnil. assert (Hin := proj2 (Hsel p0) (conj Hp0 Hr0)).
    rewrite Hnil in Hin. destruct Hin. }
  destruct (unsubscribe_client env channel params handler h c Hc Hne)
    as (_ & Hcl & _ & _ & Hse).
  rewrite Hse, Hcl, Hcur. proj_m. auto.
Qed.

Lemma unsubscribe_wire_witness :
  let r := unsubscribe sample_env "liquidation" ["XRP"; "ETH"; "ETH"] None []
             sample_client in
  sends (res_events r) = [WUnsubscribe ["liquidation:ETH"]] /\
  subscribed_channels (res_client r) = [("liquidation", ["BTC"])].
Proof.
  assert (Hex : exists p, In p ["XRP"; "ETH"; "ETH"]%string /\ In p ["BTC"; "ETH"]%string)
    by (exists "ETH"%string; simpl; auto).
  pose proof (@unsubscribe_wire sample_env "liquidation"
                ["XRP"; "ETH"; "ETH"]%string None ["BTC"; "ETH"]%string []
                sample_client eq_refl Hex) as (_ & Hs & Hc).
  split; [exact Hs | exact Hc].
Defined.

(** X23: [unsubscribe] without a handler.  When some parameter of the call
    is registered, the channel's handlers are all removed if the call
    leaves the channel without parameters, and none is removed if some
    parameter remains. *)
Theorem unsubscribe_without_handler env channel params registered h c :
  PyDict.get channel (subscribed_channels c) = Some registered ->
  NoDup registered ->
  (exists p, In p params /\ In p registered) ->
  let r := unsubscribe env channel params None h c in
  let remaining := filter (fun p => negb (str_in p params)) registered in
  handlers (res_client r) =
    (if is_empty remaining then PyDict.del channel (handlers c) else handlers c).
Proof.
  intros Hget Hnd (p0 & Hp0 & Hr0) r remaining. subst r remaining.
  assert (Hc : PyDict.contains channel (subscribed_channels c) = true)
    by (unfold PyDict.contains; now rewrite Hget).
  assert (Hcur : get_list channel (subscribed_channels c) = registered)
    by (unfold get_list; now rewrite Hget).
  assert (Hne : params_to_unsubscribe params
                  (get_list channel (subscribed_channels c)) <> []).
  { rewrite Hcur. intros Hnil.
    assert (Hin : In p0 (params_to_unsubscribe params registered))
      by (apply unsubscribe_loop_selected; auto).
    rewrite Hnil in Hin. destruct Hin. }
  destruct (unsubscribe_client env channel params None h c Hc Hne)
    as (_ & Hcl & _).
  rewrite Hcl. proj_m. unfold handlers_after_unsubscribe, remaining_params.
  rewrite Hcur, (unsubscribe_loop_remaining params [] Hnd).
  destruct (PyDict.get channel (handlers c)) eqn:Hh; [reflexivity|].
  rewrite dict_del_absent by assumption.
  destruct (is_empty _); reflexivity.
Qed.

Lemma unsubscribe_without_handler_witness :
  handlers (res_client (unsubscribe sample_env "liquidation" ["BTC"] None []
                          sample_client)) = [("liquidation", [1%nat; 2%nat])] /\
  handlers (res_client (unsubscribe sample_env "liquidation" ["BTC"; "ETH"] None []
                          sample_client)) = [].
Proof.
  assert (Hnd : NoDup ["BTC"; "ETH"]%string).
  { repeat constructor; simpl; intuition discriminate. }
  split.
  - assert (Hex : exists p, In p ["BTC"]%string /\ In p ["BTC"; "ETH"]%string)
      by (exists "BTC"%string; simpl; auto).
    exact (@unsubscribe_without_handler sample_env "liquidation" ["BTC"]%string
             ["BTC"; "ETH"]%string [] sample_client eq_refl Hnd Hex).
  - assert (Hex : exists p, In p ["BTC"; "ETH"]%string /\ In p ["BTC"; "ETH"]%string)
      by (exists "BTC"%string; simpl; auto).
    exact (@unsubscribe_without_handler sample_env "liquidation"
             ["BTC"; "ETH"]%string ["BTC"; "ETH"]%string [] sample_client
             eq_refl Hnd Hex).
Defined.

(** X24: handlers that outlive their channel.  When [unsubscribe] is given
    a handler and removes the last parameters of the channel, the channel
    leaves the subscription registry but keeps its entry in the handler
    registry, with the handlers other than the given one; from then on
    every [unsubscribe] for the channel is the no-op for an unknown
    channel, so it removes none of them. *)
Theorem handlers_outlive_channel env channel params hd registered l h c :
  PyDict.get channel (subscribed_channels c) = Some registered ->
  NoDup registered ->
  PyDict.wf (subscribed_channels c) ->
  registered <> [] ->
  (forall p, In p registered -> In p params) ->
  PyDict.get channel (handlers c) = Some l ->
  let r := unsubscribe env channel params (Some hd) h c in
  PyDict.get channel (subscribed_channels (res_client r)) = None /\
  PyDict.get channel (handlers (res_client r)) =
    Some (if handler_in hd l then handler_remove hd l else l) /\
  forall params' handler' h',
    unsubscribe env channel params' handler' h' (res_client r) =
    mkRes (Ret tt) (res_client r) [EvLog WARNING (NotSubscribedToChannel channel)].
Proof.
  intros Hget Hnd Hwf Hne Hall Hl r. subst r.
  assert (Hc : PyDict.contains channel (subscribed_channels c) = true)
    by (unfold PyDict.contains; now rewrite Hget).
  assert (Hcur : get_list channel (subscribed_channels c) = registered)
    by (unfold get_list; now rewrite Hget).
  assert (Hsome : params_to_unsubscribe params
                    (get_list channel (subscribed_channels c)) <> []).
  { rewrite Hcur. destruct registered as [|p0 rest]; [congruence|].
    intros Hnil.
    assert (Hin : In p0 (params_to_unsubscribe params (p0 :: rest))).
    { apply unsubscribe_loop_selected. right. split; [apply Hall|]; now left. }
    rewrite Hnil in Hin. destruct Hin. }
  assert (Hrem : remaining_params params registered = []).
  { unfold remaining_params. rewrite (unsubscribe_loop_remaining params [] Hnd).
    clear - Hall. induction registered as [|p rest IH]; [reflexivity|].
    simpl. assert (E : str_in p params = true)
      by (apply str_in_In, Hall; now left).
    rewrite E. simpl. apply IH. intros q Hq. apply Hall. now right. }
  destruct (unsubscribe_client env channel params (Some hd) h c Hc Hsome)
    as (_ & Hcl & _).
  assert (Hgone : PyDict.get channel (subscribed_channels
                    (res_client (unsubscribe env channel params (Some hd) h c))) = None).
  { rewrite Hcl. proj_m. unfold subscribed_after_unsubscribe.
    rewrite Hcur, Hrem. cbn [is_empty]. now apply PyDictFacts.get_del_same. }
  split; [exact Hgone|]. split.
  - rewrite Hcl. proj_m. unfold handlers_after_unsubscribe. rewrite Hl.
    destruct (handler_in hd l); [apply PyDictFacts.get_set_same | exact Hl].
  - intros params' handler' h'. unfold unsubscribe at 1, PyDict.contains. go.
    rewrite Hgone. go. reflexivity.
Qed.

Lemma handlers_outlive_channel_witness :
  let r := unsubscribe sample_env "liquidation" ["BTC"; "ETH"] (Some 1%nat) []
             sample_client in
  subscribed_channels (res_client r) = [] /\
  handlers (res_client r) = [("liquidation", [2%nat])] /\
  handlers (res_client (unsubscribe sample_env "liquidation" ["BTC"; "ETH"] None
                          (res_events r) (res_client r))) =
  [("liquidation", [2%nat])].
Proof.
  intros r.
  assert (Hnd : NoDup ["BTC"; "ETH"]%string).
  { repeat constructor; simpl; intuition discriminate. }
  assert (Hwf : PyDict.wf (subscribed_channels sample_client))
    by (repeat constructor; simpl; tauto).
  assert (Hne : ["BTC"; "ETH"]%string <> []) by discriminate.
  pose proof (@handlers_outlive_channel sample_env "liquidation"
                ["BTC"; "ETH"]%string 1%nat ["BTC"; "ETH"]%string
                [1%nat; 2%nat] [] sample_client eq_refl Hnd Hwf Hne
                (fun p H => H) eq_refl) as (_ & _ & Hnoop).
  split; [reflexivity|]. split; [reflexivity|].
  subst r. rewrite Hnoop. reflexivity.
Defined.

(** X25: subscribe and unsubscribe undo each other on a new channel.  For
    a channel in neither registry, [subscribe] followed by [unsubscribe]
    of the same parameters without a handler returns the client exactly
    to where it was. *)
Theorem subscribe_unsubscribe_round_trip env channel params handler h h' c :
  channel <> ""%string -> params <> [] ->
  PyDict.get channel (subscribed_channels c) = None ->
  PyDict.get channel (handlers c) = None ->
  let r1 := subscribe env channel params handler h c in
  let r2 := unsubscribe env channel params None h' (res_client r1) in
  PyDict.get channel (subscribed_channels (res_client r1)) =
    Some (fresh_params params []) /\
  PyDict.get channel (handlers (res_client r1)) = Some [handler] /\
  res_client r2 = c.
Proof.
  intros Hch Hps Hs Hh r1 r2. subst r1 r2.
  rewrite subscribe_run by assumption. cbn [res_client].
  unfold subscribed_after_subscribe, handlers_after_subscribe, get_list.
  rewrite Hs, Hh. cbn [handler_in existsb app].
  set (fresh := fresh_params params []).
  set (c1 := set_subscribed_channels _ _).
  assert (Hs1 : PyDict.get channel (subscribed_channels c1) = Some fresh)
    by (subst c1; proj_m; apply PyDictFacts.get_set_same).
  assert (Hh1 : PyDict.get channel (handlers c1) = Some [handler])
    by (subst c1; proj_m; apply PyDictFacts.get_set_same).
  split; [exact Hs1|]. split; [exact Hh1|].
  assert (Hc : PyDict.contains channel (subscribed_channels c1) = true)
    by (unfold PyDict.contains; now rewrite Hs1).
  assert (Hcur : get_list channel (subscribed_channels c1) = fresh)
    by (unfold get_list; now rewrite Hs1).
  assert (Hnd : NoDup fresh) by apply fresh_params_distinct.
  assert (Hsub : forall p, In p fresh -> In p params)
    by (intros p Hp; now apply fresh_params_new in Hp).
  assert (Hsome : params_to_unsubscribe params
                    (get_list channel (subscribed_channels c1)) <> []).
  { rewrite Hcur. destruct params as [|p0 ps]; [congruence|].
    intros Hnil.
    assert (Hin : In p0 (params_to_unsubscribe (p0 :: ps) fresh)).
    { apply unsubscribe_loop_selected. right. split; [now left|].
      apply fresh_params_iff. split; [now left | tauto]. }
    rewrite Hnil in Hin. destruct Hin. }
  assert (Hrem : remaining_params params fresh = []).
  { unfold remaining_params. rewrite (unsubscribe_loop_remaining params [] Hnd).
    clear - Hsub. induction fresh as [|p rest IH]; [reflexivity|].
    simpl. assert (E : str_in p params = true)
      by (apply str_in_In, Hsub; now left).
    rewrite E. simpl. apply IH. intros q Hq. apply Hsub. now right. }
  destruct (unsubscribe_client env channel params None h' c1 Hc Hsome)
    as (_ & Hcl & _).
  rewrite Hcl. unfold subscribed_after_unsubscribe, handlers_after_unsubscribe.
  rewrite Hcur, Hrem, Hh1. cbn [is_empty].
  subst c1. proj_m. rewrite !dict_del_set by assumption.
  destruct c; reflexivity.
Qed.

Lemma subscribe_unsubscribe_round_trip_witness :
  let r1 := subscribe sample_env "trade" ["BTCUSDT:Binance"; "ETHUSDT:OKX"] 3%nat []
              sample_client in
  let r2 := unsubscribe sample_env "trade" ["BTCUSDT:Binance"; "ETHUSDT:OKX"] None
              (res_events r1) (res_client r1) in
  subscribed_channels (res_client r1) =
    [("liquidation", ["BTC"; "ETH"]); ("trade", ["BTCUSDT:Binance"; "ETHUSDT:OKX"])] /\
  res_client r2 = sample_client.
Proof.
  intros r1.
  assert (Hch : "trade"%string <> ""%string) by discriminate.
  assert (Hps : ["BTCUSDT:Binance"; "ETHUSDT:OKX"]%string <> []) by discriminate.
  pose proof (@subscribe_unsubscribe_round_trip sample_env "trade"
                ["BTCUSDT:Binance"; "ETHUSDT:OKX"]%string 3%nat []
                (res_events r1) sample_client Hch Hps eq_refl eq_refl)
    as (_ & _ & Hback).
  split; [reflexivity | exact Hback].
Defined.

(** ** Registries and dispatch *)

(** X26: the registries of every reachable client are well formed.
    Whatever calls and callbacks a fresh client goes through, each
    channel is a key of each registry once, no channel's parameter list
    or handler list has a duplicate, and no channel is registered with an
    empty parameter list, so the replay after authentication skips no
    registered channel. *)
Theorem reachable_registries_well_formed env key dbg calls :
  let c := client (run env (boot key dbg) calls) in
  NoDup (PyDict.keys (subscribed_channels c)) /\
  NoDup (PyDict.keys (handlers c)) /\
  (forall channel l,
     PyDict.get channel (subscribed_channels c) = Some l -> NoDup l /\ l <> []) /\
  (forall channel l, PyDict.get channel (handlers c) = Some l -> NoDup l) /\
  filter has_params (PyDict.items (subscribed_channels c)) =
    PyDict.items (subscribed_channels c).
Proof.
  intros c. subst c.
  pose proof (reachable_registry_ok env key dbg calls)
    as ((Hws & Hwh & Hns & Hnh) & Hne).
  split; [exact Hws|]. split; [exact Hwh|].
  split; [intros channel l Hget; split; [eapply Hns | eapply Hne]; eassumption|].
  split; [exact Hnh|].
  apply forallb_filter_id. apply forallb_forall. intros [k l] Hin.
  unfold has_params. cbn [snd].
  assert (Hget := @dict_in_get _ _ k l Hws Hin). apply Hne in Hget.
  destruct l; [congruence | reflexivity].
Qed.

(** X27: a subscribed handler gets the channel's data.  After a
    [subscribe] with a channel name and at least one parameter, whether
    or not anything could be sent, a channel-data message for the channel
    makes [_on_message] call the handler with the inner payload, as well
    as every handler the channel had before, and return normally, as long
    as no handler subscribes or unsubscribes for the channel while it
    runs and no handler ends the interpreter. *)
Theorem subscribed_handler_is_called
    env channel params handler w message data h h' c :
  channel <> ""%string -> params <> [] ->
  json_loads env message = Ret data ->
  is_channel_data data channel ->
  (forall h0 hd d, leaves_handlers channel (call_handler env h0 hd d)) ->
  (forall h0 hd d, never_exits (call_handler env h0 hd d)) ->
  let payload := data_get data "data" JNull in
  let r1 := subscribe env channel params handler h c in
  let r2 := _on_message env w message h' (res_client r1) in
  res_out r2 = Ret tt /\
  In (handler, payload) (invocations (res_events r2)) /\
  forall hd, In hd (get_list channel (handlers c)) ->
             In (hd, payload) (invocations (res_events r2)).
Proof.
  intros Hch Hps Hl Hdata Hleave Hnever payload r1 r2. subst payload r1 r2.
  rewrite subscribe_run by assumption. cbn [res_client].
  set (l := get_list channel (handlers c)).
  set (l' := if handler_in handler l then l else l ++ [handler]).
  assert (Hget : PyDict.get channel
                   (handlers
                      (set_subscribed_channels
                         (subscribed_after_subscribe channel params (subscribed_channels c))
                         (set_handlers
                            (handlers_after_subscribe channel handler (handlers c)) c))) =
                 Some l').
  { proj_m. unfold handlers_after_subscribe. fold l. subst l'.
    destruct (handler_in handler l) eqn:E.
    - subst l. unfold get_list in *.
      destruct (PyDict.get channel (handlers c)); [reflexivity | discriminate].
    - apply PyDictFacts.get_set_same. }
  destruct (@on_message_channel_data env w message data channel l' h' _ Hl Hdata Hget
              (fun h0 hd _ => Hleave h0 hd _)) as (_ & Hall).
  destruct (Hall (fun h0 hd _ => Hnever h0 hd _)) as [Ho Hinv].
  rewrite Ho, Hinv.
  split; [reflexivity|]. split.
  - apply (in_map (fun x => (x, data_get data "data" JNull))). subst l'.
    destruct (handler_in handler l) eqn:E.
    + now apply handler_in_In.
    + apply in_or_app. right. now left.
  - intros hd Hin. apply (in_map (fun x => (x, data_get data "data" JNull))).
    subst l'. destruct (handler_in handler l); [assumption|].
    apply in_or_app. now left.
Qed.

Lemma subscribed_handler_is_called_witness :
  let r1 := subscribe sample_env "liquidation" ["SOL"] 3%nat [] sample_client in
  let r2 := _on_message sample_env 0%nat "liquidation 1" (res_events r1)
              (res_client r1) in
  In (3%nat, JNum 1) (invocations (res_events r2)) /\
  In (1%nat, JNum 1) (invocations (res_events r2)).
Proof.
  assert (Hch : "liquidation"%string <> ""%string) by discriminate.
  assert (Hps : ["SOL"]%string <> []) by discriminate.
  assert (Hd : is_channel_data
                 (JObj [("channel", JStr "liquidation"); ("data", JNum 1)])
                 "liquidation") by (repeat split; reflexivity).
  assert (Hleave : forall (h0 : History) (hd : Handler) (d : json),
             leaves_handlers "liquidation" (call_handler sample_env h0 hd d)).
  { intros h0 hd d. cbn. destruct (Nat.eqb hd 1); constructor. }
  assert (Hnever : forall (h0 : History) (hd : Handler) (d : json),
             never_exits (call_handler sample_env h0 hd d)).
  { intros h0 hd d. cbn. destruct (Nat.eqb hd 1); constructor. }
  pose proof (@subscribed_handler_is_called sample_env "liquidation" ["SOL"]%string
                3%nat 0%nat "liquidation 1" _ []
                (res_events (subscribe sample_env "liquidation" ["SOL"] 3%nat []
                               sample_client))
                sample_client Hch Hps eq_refl Hd Hleave Hnever) as (_ & H3 & Hold).
  split; [exact H3|]. apply Hold. simpl. auto.
Defined.

(** X28: a handler taken out by [unsubscribe] is not called any more.
    When [unsubscribe] is given a handler and some parameter of the call
    is registered for the channel, a later channel-data message for the
    channel is not dispatched to the given handler, even though
    parameters of the channel may still be subscribed, as long as no
    handler subscribes or unsubscribes for the channel while it runs; it
    is dispatched to every other handler of the channel when,
    moreover, no handler ends the interpreter. *)
Theorem removed_handler_is_not_called
    env channel params hd registered l w message data h h' c :
  PyDict.get channel (subscribed_channels c) = Some registered ->
  (exists p, In p params /\ In p registered) ->
  PyDict.get channel (handlers c) = Some l ->
  NoDup l ->
  json_loads env message = Ret data ->
  is_channel_data data channel ->
  (forall h0 hd0 d, leaves_handlers channel (call_handler env h0 hd0 d)) ->
  let payload := data_get data "data" JNull in
  let r1 := unsubscribe env channel params (Some hd) h c in
  let r2 := _on_message env w message h' (res_client r1) in
  ~ In (hd, payload) (invocations (res_events r2)) /\
  ((forall h0 hd0 d, never_exits (call_handler env h0 hd0 d)) ->
   forall hd', hd' <> hd -> In hd' l ->
               In (hd', payload) (invocations (res_events r2))).
Proof.
  intros Hget (p0 & Hp0 & Hr0) Hl Hnd Hload Hdata Hleave payload r1 r2.
  subst payload r1 r2.
  assert (Hc : PyDict.contains channel (subscribed_channels c) = true)
    by (unfold PyDict.contains; now rewrite Hget).
  assert (Hcur : get_list channel (subscribed_channels c) = registered)
    by (unfold get_list; now rewrite Hget).
  assert (Hsome : params_to_unsubscribe params
                    (get_list channel (subscribed_channels c)) <> []).
  { rewrite Hcur. intros Hnil.
    assert (Hin : In p0 (params_to_unsubscribe params registered))
      by (apply unsubscribe_loop_selected; auto).
    rewrite Hnil in Hin. destruct Hin. }
  destruct (unsubscribe_client env channel params (Some hd) h c Hc Hsome)
    as (_ & Hcl & _).
  set (l' := if handler_in hd l then handler_remove hd l else l).
  assert (Hget' : PyDict.get channel
                    (handlers (res_client (unsubscribe env channel params (Some hd) h c))) =
                  Some l').
  { rewrite Hcl. proj_m. unfold handlers_after_unsubscribe. rewrite Hl. subst l'.
    destruct (handler_in hd l); [apply PyDictFacts.get_set_same | exact Hl]. }
  destruct (@on_message_channel_data env w message data channel l' h' _ Hload Hdata
              Hget' (fun h0 hd0 _ => Hleave h0 hd0 _)) as ([n Hn] & Hall).
  split.
  - rewrite Hn. intros Hin. apply in_map_iff in Hin.
    destruct Hin as (x & [= ->] & Hx).
    assert (Hx' : In hd l')
      by (rewrite <- (firstn_skipn n l'); apply in_or_app; left; exact Hx).
    subst l'. destruct (handler_in hd l) eqn:E.
    + now apply (handler_remove_gone hd Hnd).
    + apply handler_in_In in Hx'. congruence.
  - intros Hnever hd' Hneq Hin.
    destruct (Hall (fun h0 hd0 _ => Hnever h0 hd0 _)) as [_ Hinv].
    rewrite Hinv.
    apply (in_map (fun x => (x, data_get data "data" JNull))).
    subst l'. destruct (handler_in hd l); [|assumption].
    now apply handler_remove_other.
Qed.

Lemma removed_handler_is_not_called_witness :
  let r1 := unsubscribe sample_env "liquidation" ["ETH"] (Some 1%nat) [] sample_client in
  let r2 := _on_message sample_env 0%nat "liquidation 1" (res_events r1)
              (res_client r1) in
  subscribed_channels (res_client r1) = [("liquidation", ["BTC"])] /\
  ~ In (1%nat, JNum 1) (invocations (res_events r2)) /\
  In (2%nat, JNum 1) (invocations (res_events r2)).
Proof.
  assert (Hex : exists p, In p ["ETH"]%string /\ In p ["BTC"; "ETH"]%string)
    by (exists "ETH"%string; simpl; auto).
  assert (Hnd : NoDup [1%nat; 2%nat]).
  { repeat constructor; simpl; intuition discriminate. }
  assert (Hd : is_channel_data
                 (JObj [("channel", JStr "liquidation"); ("data", JNum 1)])
                 "liquidation") by (repeat split; reflexivity).
  assert (Hleave : forall (h0 : History) (hd : Handler) (d : json),
             leaves_handlers "liquidation" (call_handler sample_env h0 hd d)).
  { intros h0 hd d. cbn. destruct (Nat.eqb hd 1); constructor. }
  assert (Hnever : forall (h0 : History) (hd : Handler) (d : json),
             never_exits (call_handler sample_env h0 hd d)).
  { intros h0 hd d. cbn. destruct (Nat.eqb hd 1); constructor. }
  pose proof (@removed_handler_is_not_called sample_env "liquidation" ["ETH"]%string
                1%nat ["BTC"; "ETH"]%string [1%nat; 2%nat] 0%nat "liquidation 1" _ []
                (res_events (unsubscribe sample_env "liquidation" ["ETH"] (Some 1%nat)
                               [] sample_client))
                sample_client eq_refl Hex eq_refl Hnd eq_refl Hd Hleave) as (Hno & Hyes).
  split; [reflexivity|]. split; [exact Hno|].
  apply (Hyes Hnever); [discriminate | simpl; auto].
Defined.

(** ** The heartbeat *)

(** X29: the heartbeat loop while the client is running and connected.
    However many turns it takes and whatever [ws.send] does, each turn
    ends in one sleep of the ping interval and the loop goes on; each
    turn hands one ping to the transport when the client holds one, and
    none when it does not; the client is not changed. *)
Theorem heartbeat_turns env fuel h c :
  running c = true ->
  is_connected c = true ->
  let r := _send_ping env fuel h c in
  res_out r = Ret tt /\
  res_client r = c /\
  sleeps (res_events r) = repeat PING_INTERVAL fuel /\
  sends (res_events r) = (if can_send c then repeat WPing fuel else []).
Proof.
  intros Hr Hc. cbv zeta. revert h.
  induction fuel as [|fuel IH]; intros h; cbn [_send_ping].
  - go. cbn. destruct (can_send c); auto.
  - go. rewrite Hr, Hc. go. rewrite send_ping_body_run. go.
    match goal with
    | |- context [_send_ping env fuel ?h' c] =>
        destruct (IH h') as (Ho & Hcl & Hsl & Hse);
        destruct (_send_ping env fuel h' c) as [o c1 e1]
    end.
    cbn [res_out res_client res_events prefix] in *. subst o c1.
    split; [reflexivity|]. split; [reflexivity|].
    rewrite <- app_assoc, !sleeps_app, !sends_app, sleeps_send_events,
      sends_send_events, Hsl, Hse.
    cbn. destruct (can_send c); auto.
Qed.

Lemma heartbeat_turns_witness :
  let r := _send_ping broken_pipe_env 3 [] sample_client in
  sleeps (res_events r) = [PING_INTERVAL; PING_INTERVAL; PING_INTERVAL] /\
  sends (res_events r) = [WPing; WPing; WPing].
Proof.
  pose proof (@heartbeat_turns broken_pipe_env 3 [] sample_client eq_refl eq_refl)
    as (_ & _ & Hsl & Hse).
  split; [exact Hsl | exact Hse].
Defined.

Lemma send_ping_exits env fuel h c :
  running c = false \/ is_connected c = false ->
  _send_ping env fuel h c = mkRes (Ret tt) c [].
Proof.
  intros Hstop. destruct fuel as [|fuel]; cbn [_send_ping]; go; [reflexivity|].
  destruct Hstop as [-> | ->]; [|destruct (running c)]; reflexivity.
Qed.

(** X30: the heartbeat loop stops with the connection.  Right after
    [disconnect], and right after the close callback of a transport,
    whatever the client was before, the loop's test fails: it returns
    without a ping and without a sleep. *)
Theorem heartbeat_stops_after_close env s call fuel :
  call = AppDisconnect \/ (exists w code msg, call = OnClose w code msg) ->
  let s' := step env s call in
  _send_ping env fuel (trace s') (client s') = mkRes (Ret tt) (client s') [].
Proof.
  intros Hcall s'. subst s'. apply send_ping_exits.
  destruct Hcall as [-> | (w & code & msg & ->)]; cbn [step after client].
  - left. apply step_disconnect_facts.
  - right. unfold _on_close_until_sleep, on_close_body,
      _attempt_reconnect_until_sleep. go.
    repeat (break; go); reflexivity.
Qed.

Lemma heartbeat_stops_after_close_witness :
  let s := mkSystem sample_client [] [] in
  _send_ping sample_env 5 [] sample_client <> mkRes (Ret tt) sample_client [] /\
  (let s' := step sample_env s (OnClose 0%nat None None) in
   _send_ping sample_env 5 (trace s') (client s') = mkRes (Ret tt) (client s') []).
Proof.
  split; [vm_compute; discriminate|].
  exact (@heartbeat_stops_after_close sample_env (mkSystem sample_client [] [])
           (OnClose 0%nat None None) 5
           (or_intror (ex_intro _ 0%nat (ex_intro _ None (ex_intro _ None eq_refl))))).
Defined.
